(** * info-sphere-analyzer: the analysis engine of [src/analyze.ts]

    A shallow embedding of [resolveCallTargetFile] and [analyze] and the
    properties of the metrics they produce, and of [rating], [toMarkdown]
    and [run] of [src/run.ts], which rate and report them.

    Conventions of the embedding.
    - A JavaScript [number] that holds a weight, V, A, S, alpha or the
      cohesion ratio is a binary64 value: Rocq's primitive [float], whose
      [+], [*], [-], [/] and comparisons are the IEEE 754 operations that
      JavaScript uses.
    - The eleven counters of an accumulator only ever hold non-negative
      integers that are incremented: they are [nat], and [of_count] turns
      one into the [number] it is when it enters an arithmetic expression.
      A counter is exact in JavaScript as long as it stays below 2^53.
    - A JavaScript string is a [string]. The patterns that the engine
      searches for are ASCII, so that the code units of a text beyond ASCII
      play no role.
    - [modulesMap] is a JavaScript object keyed by relative file paths: an
      association list in insertion order, which [Object.entries]
      enumerates in the order of the language, the keys that are array
      indices first. (A path of a source file is not a name inherited from
      [Object.prototype].)
    - What the engine obtains from its environment is a parameter:
      [path.relative(process.cwd(), _)], [minimatch(_, _, {dot: true})],
      [Math.pow], the parsed configuration file and the source files that
      [project.addSourceFilesAtPaths] added. So is what the report obtains:
      the strings of numbers, [path.resolve] and [JSON.stringify].
    - [run] is a function from its inputs to the lines it prints and the
      files it writes, in order. *)

From Stdlib Require Import String Ascii List ZArith Lia Bool Arith.
From Stdlib Require Import Floats Uint63 Zpower Permutation Sorted.
Import ListNotations.

Local Open Scope string_scope.
Local Open Scope list_scope.

(** ** JavaScript numbers *)

(** The [number] that an integer counter is. *)
Definition of_count (n : nat) : float :=
  of_uint63 (Uint63.of_Z (Z.of_nat n)).

(** [Number.EPSILON]: the gap between 1 and the next binary64 value. *)
Definition Number_EPSILON : float := 0x1p-52%float.

(** [Number.MIN_VALUE]: the smallest positive binary64 value. *)
Definition Number_MIN_VALUE : float := 0x1p-1074%float.

(** A counter [n] is exact as a [number] when it is below 2^53. *)
Definition exact_count (n : nat) : Prop := (Z.of_nat n < 2 ^ 53)%Z.

(** ** JavaScript strings and the outbound-call pattern *)

(** [s.startsWith(p)] *)
Definition startsWith (s p : string) : bool := String.prefix p s.

(** [s.includes(sub)] *)
Fixpoint includes (s sub : string) : bool :=
  String.prefix sub s ||
  match s with
  | EmptyString => false
  | String _ s' => includes s' sub
  end.

(** A regular expression that is an alternation of literal strings, as
    [/fetch\(|axios\.|http\.request|XMLHttpRequest/] is. *)
Definition RegExp := list string.

Definition OUTBOUND : RegExp :=
  ["fetch("; "axios."; "http.request"; "XMLHttpRequest"].

(** The match of the expression that starts at the first character of [s]:
    the first alternative, in order, that is a prefix of [s]. *)
Fixpoint matchHere (re : RegExp) (s : string) : option string :=
  match re with
  | [] => None
  | alt :: re' => if String.prefix alt s then Some alt else matchHere re' s
  end.

(** [re.test(s)]: is there a position of [s] with a match. *)
Fixpoint test (re : RegExp) (s : string) : bool :=
  match matchHere re s with
  | Some _ => true
  | None =>
      match s with
      | EmptyString => false
      | String _ s' => test re s'
      end
  end.

(** [s.match(re) || []] for [re] with the [g] flag: the successive matches
    from left to right, each search resuming where the previous match
    ended. [skip] counts the characters of the last match still to pass. *)
Fixpoint match_g_from (re : RegExp) (skip : nat) (s : string) : list string :=
  match s with
  | EmptyString => []
  | String _ s' =>
      match skip with
      | S k => match_g_from re k s'
      | O =>
          match matchHere re s with
          | Some alt => alt :: match_g_from re (String.length alt - 1) s'
          | None => match_g_from re 0 s'
          end
      end
  end.

Definition match_g (re : RegExp) (s : string) : list string :=
  match_g_from re 0 s.

(** [body || ""] for the [string | undefined] of [getBodyText()]. *)
Definition orEmpty (body : option string) : string :=
  match body with
  | Some b => b
  | None => ""
  end.

(** [a ?? b] *)
Definition nullish {T : Type} (a : option T) (b : T) : T :=
  match a with
  | Some x => x
  | None => b
  end.

(** ** Configuration *)

Inductive WeightKey : Set :=
| privateMethod
| internalCall
| internalType
| exportedSymbol
| publicMethod
| externalImport
| outgoingCall.

(** [Weights]: one number per key. [Partial<Weights>]: some keys absent. *)
Definition Weights := WeightKey -> float.
Definition PartialWeights := WeightKey -> option float.

Definition DEFAULT_WEIGHTS : Weights := fun k =>
  match k with
  | privateMethod => 1
  | internalCall => 1
  | internalType => 2
  | exportedSymbol => 3
  | publicMethod => 2
  | externalImport => 2
  | outgoingCall => 2
  end%float.

(** [{ ...d, ...o }]: the properties of [o] replace those of [d]. *)
Definition spread (d : Weights) (o : PartialWeights) : Weights := fun k =>
  match o k with
  | Some w => w
  | None => d k
  end.

(** A total [Weights] object where a [Partial<Weights>] is expected. *)
Definition total (w : Weights) : PartialWeights := fun k => Some (w k).

(** [cfg.weights || {}] *)
Definition orNoWeights (o : option PartialWeights) : PartialWeights :=
  match o with
  | Some p => p
  | None => fun _ => None
  end.

Record Thresholds : Set := { good : float; warning : float }.

Module Config.
Record t : Type := {
  include : list string;
  exclude : option (list string);
  weights : option PartialWeights;
  alpha : option float;
  thresholds : option Thresholds
}.
End Config.

(** The literal 1.8 of the source: the binary64 value nearest to 1.8. *)
Definition alpha_1_8 : float := 0x1.ccccccccccccdp+0%float.

(** [loadConfig]: [raw] is the parsed [sphere.config.json], [None] when the
    file does not exist. *)
Definition loadConfig (raw : option Config.t) : Config.t :=
  match raw with
  | None =>
      {| Config.include := ["src/**/*.ts"];
         Config.exclude := None;
         Config.weights := Some (total DEFAULT_WEIGHTS);
         Config.alpha := Some alpha_1_8;
         Config.thresholds := Some {| good := 10; warning := 3 |} |}
  | Some raw => raw
  end.

(** ** The syntax tree, as far as the engine looks at it *)

(** A declaration of a symbol: [getSourceFile()] and then [getFilePath()],
    [None] when the declaration has no source file. *)
Record Declaration : Set := { getSourceFile : option string }.

Record Symbol : Set := { getDeclarations : list Declaration }.

(** The callee of a call. [sym] is what [getSymbol()] returns on the node. *)
Inductive Expression : Set :=
| PropertyAccessExpression (sym : option Symbol) (object : Expression)
| Identifier (sym : option Symbol)
| OtherExpression (sym : option Symbol).

Definition getSymbol (e : Expression) : option Symbol :=
  match e with
  | PropertyAccessExpression sym _ => sym
  | Identifier sym => sym
  | OtherExpression sym => sym
  end.

Record CallExpression : Set := { getExpression : Expression }.

Record MethodDeclaration : Set := {
  hasPublicKeyword : bool;
  hasPrivateKeyword : bool;
  hasProtectedKeyword : bool;
  method_getBodyText : option string
}.

(** Of [getProperties()] and [getConstructors()] only the lengths are read. *)
Record ClassDeclaration : Set := {
  getMethods : list MethodDeclaration;
  getProperties_length : nat;
  getConstructors_length : nat
}.

Record FunctionDeclaration : Set := {
  isExported : bool;
  function_getBodyText : option string
}.

Record SourceFile : Set := {
  getFilePath : string;
  (** the keys of [getExportedDeclarations()] *)
  getExportedDeclarations_keys : list string;
  (** [getModuleSpecifierValue()] of each of [getImportDeclarations()] *)
  getImportDeclarations : list string;
  getClasses : list ClassDeclaration;
  getFunctions : list FunctionDeclaration;
  (** [getDescendantsOfKind(SyntaxKind.CallExpression)] *)
  getCallExpressions : list CallExpression;
  getFullText : string
}.

(** ** The accumulator of a module *)

Record Accumulator : Set := {
  exportedCount : nat;
  externalImports : nat;
  privateMethodCount : nat;
  publicMethodCount : nat;
  internalTypeCount : nat;
  outgoingCallHeuristic : nat;
  callsOut_total : nat;
  callsOut_internal : nat;
  callsOut_external : nat;
  incomingInternal : nat;
  incomingExternal : nat
}.

Definition emptyAccumulator : Accumulator :=
  {| exportedCount := 0; externalImports := 0; privateMethodCount := 0;
     publicMethodCount := 0; internalTypeCount := 0;
     outgoingCallHeuristic := 0; callsOut_total := 0;
     callsOut_internal := 0; callsOut_external := 0;
     incomingInternal := 0; incomingExternal := 0 |}.

(** The assignments to one field of an accumulator. *)
Definition set_exportedCount (v : nat) (m : Accumulator) : Accumulator :=
  {| exportedCount := v; externalImports := externalImports m;
     privateMethodCount := privateMethodCount m;
     publicMethodCount := publicMethodCount m;
     internalTypeCount := internalTypeCount m;
     outgoingCallHeuristic := outgoingCallHeuristic m;
     callsOut_total := callsOut_total m;
     callsOut_internal := callsOut_internal m;
     callsOut_external := callsOut_external m;
     incomingInternal := incomingInternal m;
     incomingExternal := incomingExternal m |}.

Definition set_externalImports (v : nat) (m : Accumulator) : Accumulator :=
  {| exportedCount := exportedCount m; externalImports := v;
     privateMethodCount := privateMethodCount m;
     publicMethodCount := publicMethodCount m;
     internalTypeCount := internalTypeCount m;
     outgoingCallHeuristic := outgoingCallHeuristic m;
     callsOut_total := callsOut_total m;
     callsOut_internal := callsOut_internal m;
     callsOut_external := callsOut_external m;
     incomingInternal := incomingInternal m;
     incomingExternal := incomingExternal m |}.

Definition set_privateMethodCount (v : nat) (m : Accumulator) : Accumulator :=
  {| exportedCount := exportedCount m; externalImports := externalImports m;
     privateMethodCount := v;
     publicMethodCount := publicMethodCount m;
     internalTypeCount := internalTypeCount m;
     outgoingCallHeuristic := outgoingCallHeuristic m;
     callsOut_total := callsOut_total m;
     callsOut_internal := callsOut_internal m;
     callsOut_external := callsOut_external m;
     incomingInternal := incomingInternal m;
     incomingExternal := incomingExternal m |}.

Definition set_publicMethodCount (v : nat) (m : Accumulator) : Accumulator :=
  {| exportedCount := exportedCount m; externalImports := externalImports m;
     privateMethodCount := privateMethodCount m;
     publicMethodCount := v;
     internalTypeCount := internalTypeCount m;
     outgoingCallHeuristic := outgoingCallHeuristic m;
     callsOut_total := callsOut_total m;
     callsOut_internal := callsOut_internal m;
     callsOut_external := callsOut_external m;
     incomingInternal := incomingInternal m;
     incomingExternal := incomingExternal m |}.

Definition set_internalTypeCount (v : nat) (m : Accumulator) : Accumulator :=
  {| exportedCount := exportedCount m; externalImports := externalImports m;
     privateMethodCount := privateMethodCount m;
     publicMethodCount := publicMethodCount m;
     internalTypeCount := v;
     outgoingCallHeuristic := outgoingCallHeuristic m;
     callsOut_total := callsOut_total m;
     callsOut_internal := callsOut_internal m;
     callsOut_external := callsOut_external m;
     incomingInternal := incomingInternal m;
     incomingExternal := incomingExternal m |}.

Definition set_outgoingCallHeuristic (v : nat) (m : Accumulator) : Accumulator :=
  {| exportedCount := exportedCount m; externalImports := externalImports m;
     privateMethodCount := privateMethodCount m;
     publicMethodCount := publicMethodCount m;
     internalTypeCount := internalTypeCount m;
     outgoingCallHeuristic := v;
     callsOut_total := callsOut_total m;
     callsOut_internal := callsOut_internal m;
     callsOut_external := callsOut_external m;
     incomingInternal := incomingInternal m;
     incomingExternal := incomingExternal m |}.

Definition set_callsOut_total (v : nat) (m : Accumulator) : Accumulator :=
  {| exportedCount := exportedCount m; externalImports := externalImports m;
     privateMethodCount := privateMethodCount m;
     publicMethodCount := publicMethodCount m;
     internalTypeCount := internalTypeCount m;
     outgoingCallHeuristic := outgoingCallHeuristic m;
     callsOut_total := v;
     callsOut_internal := callsOut_internal m;
     callsOut_external := callsOut_external m;
     incomingInternal := incomingInternal m;
     incomingExternal := incomingExternal m |}.

Definition set_callsOut_internal (v : nat) (m : Accumulator) : Accumulator :=
  {| exportedCount := exportedCount m; externalImports := externalImports m;
     privateMethodCount := privateMethodCount m;
     publicMethodCount := publicMethodCount m;
     internalTypeCount := internalTypeCount m;
     outgoingCallHeuristic := outgoingCallHeuristic m;
     callsOut_total := callsOut_total m;
     callsOut_internal := v;
     callsOut_external := callsOut_external m;
     incomingInternal := incomingInternal m;
     incomingExternal := incomingExternal m |}.

Definition set_callsOut_external (v : nat) (m : Accumulator) : Accumulator :=
  {| exportedCount := exportedCount m; externalImports := externalImports m;
     privateMethodCount := privateMethodCount m;
     publicMethodCount := publicMethodCount m;
     internalTypeCount := internalTypeCount m;
     outgoingCallHeuristic := outgoingCallHeuristic m;
     callsOut_total := callsOut_total m;
     callsOut_internal := callsOut_internal m;
     callsOut_external := v;
     incomingInternal := incomingInternal m;
     incomingExternal := incomingExternal m |}.

Definition set_incomingInternal (v : nat) (m : Accumulator) : Accumulator :=
  {| exportedCount := exportedCount m; externalImports := externalImports m;
     privateMethodCount := privateMethodCount m;
     publicMethodCount := publicMethodCount m;
     internalTypeCount := internalTypeCount m;
     outgoingCallHeuristic := outgoingCallHeuristic m;
     callsOut_total := callsOut_total m;
     callsOut_internal := callsOut_internal m;
     callsOut_external := callsOut_external m;
     incomingInternal := v;
     incomingExternal := incomingExternal m |}.

(** ** [modulesMap]: the object from relative path to accumulator *)

Definition ModulesMap := list (string * Accumulator).

(** [modulesMap[k]] *)
Fixpoint lookup (k : string) (mm : ModulesMap) : option Accumulator :=
  match mm with
  | [] => None
  | (k', v) :: mm' => if String.eqb k' k then Some v else lookup k mm'
  end.

(** [modulesMap[k] = v]: an existing property keeps its place, a new one
    comes last. *)
Fixpoint assign (k : string) (v : Accumulator) (mm : ModulesMap) : ModulesMap :=
  match mm with
  | [] => [(k, v)]
  | (k', v') :: mm' =>
      if String.eqb k' k then (k', v) :: mm' else (k', v') :: assign k v mm'
  end.

(** A mutation [f] of the accumulator that [modulesMap[k]] refers to. *)
Fixpoint mutate (k : string) (f : Accumulator -> Accumulator)
  (mm : ModulesMap) : ModulesMap :=
  match mm with
  | [] => []
  | (k', v) :: mm' =>
      if String.eqb k' k then (k', f v) :: mm' else (k', v) :: mutate k f mm'
  end.

(** The decimal digit that a character is. *)
Definition digit (c : ascii) : option N :=
  let n := N_of_ascii c in
  if ((48 <=? n) && (n <=? 57))%N then Some (n - 48)%N else None.

(** The number that a string of decimal digits writes, after [acc]. *)
Fixpoint decimal (s : string) (acc : N) : option N :=
  match s with
  | EmptyString => Some acc
  | String c s' =>
      match digit c with
      | Some d => decimal s' (10 * acc + d)%N
      | None => None
      end
  end.

(** The array index that a property key is, if it is one: the key is the
    decimal numeral, without a leading zero, of an integer from 0 to
    2^32 - 2. *)
Definition arrayIndex (k : string) : option N :=
  match k with
  | EmptyString => None
  | String c rest =>
      match digit c, rest with
      | Some 0%N, EmptyString => Some 0%N
      | Some 0%N, String _ _ => None
      | _, _ =>
          match decimal k 0 with
          | Some n => if (n <? 4294967295)%N then Some n else None
          | None => None
          end
      end
  end.

(** The properties whose keys are array indices, in ascending order of
    the index. *)
Fixpoint insertIndex (i : N) (e : string * Accumulator)
  (l : list (N * (string * Accumulator))) : list (N * (string * Accumulator)) :=
  match l with
  | [] => [(i, e)]
  | (j, e') :: l' =>
      if (j <? i)%N then (j, e') :: insertIndex i e l' else (i, e) :: (j, e') :: l'
  end.

Fixpoint indexEntries (mm : ModulesMap) : list (N * (string * Accumulator)) :=
  match mm with
  | [] => []
  | e :: mm' =>
      match arrayIndex (fst e) with
      | Some i => insertIndex i e (indexEntries mm')
      | None => indexEntries mm'
      end
  end.

(** The other properties, in insertion order. *)
Definition stringEntries (mm : ModulesMap) : list (string * Accumulator) :=
  filter (fun e => match arrayIndex (fst e) with Some _ => false | None => true end) mm.

(** [Object.entries(modulesMap)]: the properties in the order of the
    language, those whose keys are array indices first, by ascending index,
    then the others in insertion order. *)
Definition Object_entries (mm : ModulesMap) : list (string * Accumulator) :=
  map snd (indexEntries mm) ++ stringEntries mm.

(** ** The metrics record *)

Module ModuleMetrics.
Record t : Set := {
  id : string;
  file : string;
  V : float;
  A : float;
  (** [{ ...data, ... }]: a copy of the accumulator *)
  extras : Accumulator;
  s : option float;
  cohesion : option float
}.
End ModuleMetrics.

Module Analysis.
Record t : Set := {
  results : list ModuleMetrics.t;
  alpha : float;
  thresholds : option Thresholds
}.
End Analysis.

(** ** [resolveCallTargetFile] *)

(** What [resolveCallTargetFile] returns: a relative path of a file of the
    project, the string ['external'], or [undefined]. A relative path of a
    source file is neither empty nor the word ['external'], so the three
    are kept apart by constructors. *)
Inductive CallTarget : Set :=
| TargetFile (rel : string)
| TargetExternal
| TargetUndefined.

Definition isNodeModuleFile (fp : string) : bool :=
  includes fp "node_modules" || includes fp "/@types/"
  || includes fp "\node_modules\".

(** ** The sort of the result *)

(** [(a, b) => (a.s ?? 0) - (b.s ?? 0)]. [analyze] sets [s] and [cohesion]
    of every record it builds; their type leaves them optional. *)
Definition compareFn (a b : ModuleMetrics.t) : float :=
  (nullish (ModuleMetrics.s a) 0 - nullish (ModuleMetrics.s b) 0)%float.

(** [Array.prototype.sort(comparefn)]. The language fixes what it returns
    for a consistent comparator: the permutation that is ordered by the
    comparator and keeps equal elements in their order (the sort is
    stable). The embedding computes it by insertion. A comparator result
    [v] puts [x] before [y] when [v < 0]; a NaN result counts as [+0]. *)
Definition SortCompare {T : Type} (comparefn : T -> T -> float) (x y : T) : float :=
  let v := comparefn x y in
  if is_nan v then 0%float else v.

Fixpoint insertSorted {T : Type} (comparefn : T -> T -> float) (x : T)
  (l : list T) : list T :=
  match l with
  | [] => [x]
  | y :: l' =>
      if (SortCompare comparefn y x <? 0)%float
      then y :: insertSorted comparefn x l'
      else x :: y :: l'
  end.

Fixpoint Array_sort {T : Type} (comparefn : T -> T -> float) (l : list T) : list T :=
  match l with
  | [] => []
  | x :: l' => insertSorted comparefn x (Array_sort comparefn l')
  end.

(** ** The metrics of one module *)

(** The base of the power in the sphericity. *)
Definition AforS (rawA : float) : float :=
  if (rawA =? 0)%float then Number_EPSILON else rawA.

(** ** The first pass on one file *)

(** The first pass over one method, one class, one function. *)
Definition collectMethod (m : Accumulator) (mth : MethodDeclaration) : Accumulator :=
  let isPublic :=
    hasPublicKeyword mth
    || (negb (hasPrivateKeyword mth) && negb (hasProtectedKeyword mth)) in
  let m :=
    if isPublic then set_publicMethodCount (S (publicMethodCount m)) m
    else set_privateMethodCount (S (privateMethodCount m)) m in
  let body := orEmpty (method_getBodyText mth) in
  if test OUTBOUND body
  then set_outgoingCallHeuristic (outgoingCallHeuristic m + 1) m
  else m.

Definition collectClass (m : Accumulator) (cls : ClassDeclaration) : Accumulator :=
  let m := fold_left collectMethod (getMethods cls) m in
  set_internalTypeCount
    (internalTypeCount m + (getProperties_length cls + getConstructors_length cls)) m.

Definition collectFunction (m : Accumulator) (fn : FunctionDeclaration) : Accumulator :=
  let body := orEmpty (function_getBodyText fn) in
  let m :=
    if isExported fn then set_publicMethodCount (S (publicMethodCount m)) m
    else set_privateMethodCount (S (privateMethodCount m)) m in
  if test OUTBOUND body
  then set_outgoingCallHeuristic (outgoingCallHeuristic m + 1) m
  else m.

(** The body of the first-pass loop, on the accumulator [m] of the file. *)
Definition collectSourceFile (sf : SourceFile) (m : Accumulator) : Accumulator :=
  let m := set_exportedCount (length (getExportedDeclarations_keys sf)) m in
  let m :=
    set_externalImports
      (length (filter (fun spec => negb (startsWith spec "." || startsWith spec "/"))
                 (getImportDeclarations sf))) m in
  let m := fold_left collectClass (getClasses sf) m in
  let m := fold_left collectFunction (getFunctions sf) m in
  let fullText := getFullText sf in
  set_outgoingCallHeuristic
    (outgoingCallHeuristic m + length (match_g OUTBOUND fullText)) m.

(** ** The rating and the report of [src/run.ts] *)

(** The four words that [rating] returns. *)
Inductive Rating : Set := UNKNOWN | GOOD | WARNING | COLLAPSE.

(** The word of a rating, as a template literal prints it. *)
Definition Rating_toString (r : Rating) : string :=
  match r with
  | UNKNOWN => "UNKNOWN"
  | GOOD => "GOOD"
  | WARNING => "WARNING"
  | COLLAPSE => "COLLAPSE"
  end.

Definition Rating_eqb (a b : Rating) : bool :=
  match a, b with
  | UNKNOWN, UNKNOWN | GOOD, GOOD | WARNING, WARNING | COLLAPSE, COLLAPSE => true
  | _, _ => false
  end.

(** The configuration as [src/run.ts] reads it: an untyped object, every
    key of which may be absent. *)
Module Run.
Record Thresholds : Set := { good : option float; warning : option float }.
Record Report : Set := { markdown : option string; json : option string }.
Record Config : Set := {
  include : option (list string);
  alpha : option float;
  thresholds : option Thresholds;
  report : option Report
}.

Definition defaultReport : Report :=
  {| markdown := Some "sphere-report.md"; json := Some "sphere-report.json" |}.

(** [loadConfig] of [src/run.ts]: [raw] is the parsed [sphere.config.json],
    [None] when the file does not exist. *)
Definition loadConfig (raw : option Config) : Config :=
  match raw with
  | None =>
      {| include := Some ["src/**/*.ts"];
         alpha := Some alpha_1_8;
         thresholds := Some {| good := Some 10%float; warning := Some 3%float |};
         report := Some defaultReport |}
  | Some raw => raw
  end.
End Run.

(** The thresholds that [analyze] returns, as the untyped object that
    [src/run.ts] receives. *)
Definition untyped (t : Thresholds) : Run.Thresholds :=
  {| Run.good := Some (good t); Run.warning := Some (warning t) |}.

(** [a ?? b] where [b] may be absent as well. *)
Definition nullishOr {T : Type} (a b : option T) : option T :=
  match a with
  | Some x => Some x
  | None => b
  end.

(** [a?.k]: the key [k] of [a], absent when [a] is. *)
Definition chain {T U : Type} (k : T -> option U) (a : option T) : option U :=
  match a with
  | Some x => k x
  | None => None
  end.

(** [rating]. [s > t] is [t < s]; [isFinite] of a number is [is_finite]. *)
Definition rating (s : option float) (thresholds : option Run.Thresholds) : Rating :=
  match thresholds with
  | None => UNKNOWN
  | Some thresholds =>
      match s with
      | None => UNKNOWN
      | Some s =>
          if negb (is_finite s) then UNKNOWN
          else if (nullish (Run.good thresholds) 10 <? s)%float then GOOD
          else if (nullish (Run.warning thresholds) 3 <? s)%float then WARNING
          else COLLAPSE
      end
  end.

(** A record of [annotated]: [{ ...r, s: sVal, rating: ... }]. *)
Module Annotated.
Record t : Set := {
  id : string;
  file : string;
  V : float;
  A : float;
  extras : Accumulator;
  s : float;
  cohesion : option float;
  rating : Rating
}.
End Annotated.

(** The function that [run] maps over the results, for the thresholds
    [cfg.thresholds ?? thresholds] in force. *)
Definition annotate (thresholds : option Run.Thresholds) (r : ModuleMetrics.t)
  : Annotated.t :=
  let sVal := nullish (ModuleMetrics.s r) 0%float in
  {| Annotated.id := ModuleMetrics.id r;
     Annotated.file := ModuleMetrics.file r;
     Annotated.V := ModuleMetrics.V r;
     Annotated.A := ModuleMetrics.A r;
     Annotated.extras := ModuleMetrics.extras r;
     Annotated.s := sVal;
     Annotated.cohesion := ModuleMetrics.cohesion r;
     Annotated.rating := rating (Some sVal) thresholds |}.

(** The object [counts] of [toMarkdown], keyed by rating, in insertion
    order. *)
Definition Counts := list (Rating * nat).

(** [acc[k]] *)
Fixpoint count_get (k : Rating) (acc : Counts) : option nat :=
  match acc with
  | [] => None
  | (k', n) :: acc' => if Rating_eqb k' k then Some n else count_get k acc'
  end.

(** [acc[k] = n] *)
Fixpoint count_set (k : Rating) (n : nat) (acc : Counts) : Counts :=
  match acc with
  | [] => [(k, n)]
  | (k', n') :: acc' =>
      if Rating_eqb k' k then (k', n) :: acc' else (k', n') :: count_set k n acc'
  end.

(** [n || 0] for a count that may be absent. *)
Definition orZero (n : option nat) : nat :=
  match n with
  | Some n => n
  | None => 0
  end.

(** [(acc, c) => { acc[c.rating] = (acc[c.rating] || 0) + 1; return acc; }] *)
Definition tallyRating (acc : Counts) (c : Annotated.t) : Counts :=
  count_set (Annotated.rating c) (orZero (count_get (Annotated.rating c) acc) + 1) acc.

(** [results.reduce(..., {})] *)
Definition ratingCounts (results : list Annotated.t) : Counts :=
  fold_left tallyRating results [].

(** A string that is truthy: present and not empty. *)
Definition truthy (s : option string) : option string :=
  match s with
  | Some EmptyString => None
  | _ => s
  end.

(** The line feed of [lines.join("\n")]. *)
Definition LF : string := String (Ascii.ascii_of_nat 10) EmptyString.

(** What [run] does to the world outside, in order. *)
Inductive Effect : Set :=
| console_log (line : string)
| fs_writeFileSync (file data : string).

(** ** Binary64 values and their order

    The primitive operations are specified on [spec_float] ([Prim2SF]):
    a sign, a mantissa and an exponent. The definitions below name what the
    proofs say about such values. *)

Definition P52 : Z := 4503599627370496.
Definition P53 : Z := 9007199254740992.
Definition TOP : Z := 18446744073709551616.

(** A rank of the binary64 values that are not NaN: it grows with the
    value, and the two zeros share the rank 0. *)
Definition ord (x : spec_float) : Z :=
  match x with
  | S754_zero _ => 0
  | S754_nan => 0
  | S754_infinity s => if s then - TOP else TOP
  | S754_finite s m e =>
      let v := ((e + 1074) * P53 + Zpos m)%Z in if s then (- v)%Z else v
  end.

Definition ordf (x : float) : Z := ord (Prim2SF x).

Definition not_nan (x : spec_float) : Prop :=
  match x with
  | S754_nan => False
  | _ => True
  end.

(** A non-zero number or an infinity of sign [s]. *)
Definition signed (s : bool) (x : spec_float) : Prop :=
  match x with
  | S754_finite s' _ _ => s' = s
  | S754_infinity s' => s' = s
  | _ => False
  end.

(** The outcome of rounding a mantissa at exponent [e]: a number at
    exponent [e], or the carry to the next power of two. *)
Definition lands (s : bool) (e : Z) (r : spec_float) : Prop :=
  exists m e',
    r = S754_finite s m e' /\ (e' = e \/ (e' = e + 1 /\ Zpos m = P52))%Z.

(** ** A small corpus, to run the engine on *)

(** [path.relative] for the working directory [/cwd]. *)
Definition cwd_relative (p : string) : string :=
  if String.prefix "/cwd/" p then String.substring 5 (String.length p - 5) p else p.

(** [minimatch] restricted to the one pattern of the example. *)
Definition test_minimatch (rel pattern : string) : bool :=
  String.eqb pattern "test/**" && String.prefix "test/" rel.

(** [Math.pow] at the exponent 2 of the example. *)
Definition pow_2 (base exponent : float) : float := (base * base)%float.

Definition declaredIn (path : string) : Symbol :=
  {| getDeclarations := [ {| getSourceFile := Some path |} ] |}.

Definition undeclared : Symbol := {| getDeclarations := [] |}.

Definition call_self : CallExpression :=
  {| getExpression := Identifier (Some (declaredIn "/cwd/src/a.ts")) |}.
Definition call_cross : CallExpression :=
  {| getExpression :=
       PropertyAccessExpression None (Identifier (Some (declaredIn "/cwd/src/b.ts"))) |}.
Definition call_library : CallExpression :=
  {| getExpression := Identifier (Some (declaredIn "/cwd/node_modules/lib/index.d.ts")) |}.
Definition call_unresolved : CallExpression :=
  {| getExpression := OtherExpression None |}.
Definition call_excluded : CallExpression :=
  {| getExpression := Identifier (Some (declaredIn "/cwd/test/c.ts")) |}.
(** [a.b()] where [a] has a symbol that has no declaration. *)
Definition call_undeclared : CallExpression :=
  {| getExpression := PropertyAccessExpression None (Identifier (Some undeclared)) |}.
(** [a.b.c()] where only [a] has a symbol. *)
Definition call_chain : CallExpression :=
  {| getExpression :=
       PropertyAccessExpression None
         (PropertyAccessExpression None (Identifier (Some (declaredIn "/cwd/src/b.ts")))) |}.

Definition file_a : SourceFile :=
  {| getFilePath := "/cwd/src/a.ts";
     getExportedDeclarations_keys := ["Service"; "load"];
     getImportDeclarations := ["fs"; "./b"];
     getClasses :=
       [ {| getMethods :=
              [ {| hasPublicKeyword := false; hasPrivateKeyword := false;
                   hasProtectedKeyword := false;
                   method_getBodyText := Some "return fetch(url);" |};
                {| hasPublicKeyword := false; hasPrivateKeyword := true;
                   hasProtectedKeyword := false;
                   method_getBodyText := Some "this.run(u);" |} ];
            getProperties_length := 1;
            getConstructors_length := 1 |} ];
     getFunctions :=
       [ {| isExported := true; function_getBodyText := Some "return axios.get(u);" |};
         {| isExported := false; function_getBodyText := None |} ];
     getCallExpressions :=
       [call_self; call_cross; call_library; call_unresolved; call_excluded];
     getFullText :=
       "class Service { run(url) { return fetch(url); } } function load(u) { return axios.get(u); }"
  |}.

Definition file_b : SourceFile :=
  {| getFilePath := "/cwd/src/b.ts";
     getExportedDeclarations_keys := ["helper"];
     getImportDeclarations := [];
     getClasses := [];
     getFunctions := [ {| isExported := true; function_getBodyText := Some "return 1;" |} ];
     getCallExpressions := [];
     getFullText := "export function helper() { return 1; }" |}.

Definition file_c : SourceFile :=
  {| getFilePath := "/cwd/test/c.ts";
     getExportedDeclarations_keys := [];
     getImportDeclarations := [];
     getClasses := [];
     getFunctions := [];
     getCallExpressions := [];
     getFullText := "" |}.

Definition corpus : list SourceFile := [file_a; file_b; file_c].

Definition config : Config.t :=
  {| Config.include := ["**/*.ts"];
     Config.exclude := Some ["test/**"];
     Config.weights :=
       Some (fun k => match k with internalCall => Some 2%float | _ => None end);
     Config.alpha := Some 2%float;
     Config.thresholds := None |}.

(** A configuration whose weights are all positive and finite, one of them
    very large, and a module with two private functions. *)
Definition config_large : Config.t :=
  {| Config.include := ["src/**/*.ts"];
     Config.exclude := None;
     Config.weights :=
       Some (fun k => match k with privateMethod => Some 0x1p+1023%float | _ => None end);
     Config.alpha := Some alpha_1_8;
     Config.thresholds := None |}.

Definition file_private : SourceFile :=
  {| getFilePath := "/cwd/src/p.ts";
     getExportedDeclarations_keys := [];
     getImportDeclarations := [];
     getClasses := [];
     getFunctions :=
       [ {| isExported := false; function_getBodyText := Some "return 1;" |};
         {| isExported := false; function_getBodyText := Some "return 2;" |} ];
     getCallExpressions := [];
     getFullText := "function f() { return 1; } function g() { return 2; }" |}.







(** What the engine is to return on [corpus] under [config]. *)
Definition metrics_a : ModuleMetrics.t :=
  {| ModuleMetrics.id := "src/a.ts";
     ModuleMetrics.file := "src/a.ts";
     ModuleMetrics.V := 8;
     ModuleMetrics.A := 28;
     ModuleMetrics.extras :=
       {| exportedCount := 2; externalImports := 1; privateMethodCount := 2;
          publicMethodCount := 2; internalTypeCount := 2; outgoingCallHeuristic := 4;
          callsOut_total := 5; callsOut_internal := 1; callsOut_external := 4;
          incomingInternal := 0; incomingExternal := 0 |};
     ModuleMetrics.s := Some (8 / pow_2 28 2)%float;
     ModuleMetrics.cohesion := Some (of_count 1 / of_count 5)%float |}.

Definition metrics_b : ModuleMetrics.t :=
  {| ModuleMetrics.id := "src/b.ts";
     ModuleMetrics.file := "src/b.ts";
     ModuleMetrics.V := 2;
     ModuleMetrics.A := 5;
     ModuleMetrics.extras :=
       {| exportedCount := 1; externalImports := 0; privateMethodCount := 0;
          publicMethodCount := 1; internalTypeCount := 0; outgoingCallHeuristic := 0;
          callsOut_total := 0; callsOut_internal := 0; callsOut_external := 0;
          incomingInternal := 1; incomingExternal := 0 |};
     ModuleMetrics.s := Some (2 / pow_2 5 2)%float;
     ModuleMetrics.cohesion := Some 1%float |}.

(** What the engine is to return on [file_a] alone, without a
    configuration file. *)
Definition metrics_a_default : ModuleMetrics.t :=
  {| ModuleMetrics.id := "src/a.ts";
     ModuleMetrics.file := "src/a.ts";
     ModuleMetrics.V := 7;
     ModuleMetrics.A := 28;
     ModuleMetrics.extras := ModuleMetrics.extras metrics_a;
     ModuleMetrics.s := Some (7 / pow_2 28 alpha_1_8)%float;
     ModuleMetrics.cohesion := Some (of_count 1 / of_count 5)%float |}.

(** [Math.pow] at the exponent 0: the number 1, whatever the base. *)
Definition pow_0 (base exponent : float) : float := 1%float.

(** A symbol with three declarations: one without a source file, one in
    [src/b.ts], one in a package. *)
Definition merged : Symbol :=
  {| getDeclarations :=
       [ {| getSourceFile := None |};
         {| getSourceFile := Some "/cwd/src/b.ts" |};
         {| getSourceFile := Some "/cwd/node_modules/lib/index.d.ts" |} ] |}.

Definition call_merged : CallExpression :=
  {| getExpression := Identifier (Some merged) |}.

(** Stand-ins for what the report obtains from its host: the strings of
    numbers, [path.resolve] for the working directory [/cwd], and
    [JSON.stringify]. *)
Definition show_number (x : float) : string := "<number>".
Definition show_fixed (x : float) (digits : nat) : string := "<fixed>".
Definition cwd_resolve (p : string) : string := ("/cwd/" ++ p)%string.
Definition show_json (alpha : float) (results : list Annotated.t) : string := "<json>".

(** The configuration file of [config], as [src/run.ts] reads it: no key
    [thresholds], no key [report]. *)
Definition run_config : Run.Config :=
  {| Run.include := Some ["**/*.ts"];
     Run.alpha := Some 2%float;
     Run.thresholds := None;
     Run.report := None |}.

(** Thresholds in the wrong order: [good] below [warning]. *)
Definition thresholds_swapped : Run.Thresholds :=
  {| Run.good := Some 3%float; Run.warning := Some 10%float |}.

(** ** The engine *)

Section Engine.

(** [path.relative(process.cwd(), p)] *)
Variable path_relative : string -> string.
(** [minimatch(rel, pattern, { dot: true })] *)
Variable minimatch : string -> string -> bool.
(** [Math.pow] *)
Variable Math_pow : float -> float -> float.

(** The first declaration that has a source file decides. *)
Fixpoint firstDeclarationTarget (decls : list Declaration) : CallTarget :=
  match decls with
  | [] => TargetUndefined
  | d :: decls' =>
      match getSourceFile d with
      | None => firstDeclarationTarget decls'
      | Some declPath =>
          if isNodeModuleFile declPath then TargetExternal
          else TargetFile (path_relative declPath)
      end
  end.

Definition resolveCallTargetFile (callNode : CallExpression) : CallTarget :=
  let expr := getExpression callNode in
  let sym := getSymbol expr in
  let sym :=
    match sym with
    | Some _ => sym
    | None =>
        match expr with
        | PropertyAccessExpression _ object => getSymbol object
        | Identifier _ => getSymbol expr
        | OtherExpression _ => getSymbol expr
        end
    end in
  match sym with
  | None => TargetUndefined
  | Some sym => firstDeclarationTarget (getDeclarations sym)
  end.

(** [project.getSourceFiles()] after the manual excludes. *)
Definition removeExcluded (cfg : Config.t) (added : list SourceFile) : list SourceFile :=
  match Config.exclude cfg with
  | Some (p :: ps) =>
      filter (fun sf =>
                let rel := path_relative (getFilePath sf) in
                negb (existsb (fun pattern => minimatch rel pattern) (p :: ps)))
             added
  | _ => added
  end.

(** "Initialize module entries" *)
Definition initModules (sourceFiles : list SourceFile) : ModulesMap :=
  fold_left (fun modulesMap sf =>
               let rel := path_relative (getFilePath sf) in
               assign rel emptyAccumulator modulesMap)
            sourceFiles [].

(** "First pass" *)
Definition firstPass (sourceFiles : list SourceFile) (modulesMap : ModulesMap) : ModulesMap :=
  fold_left (fun modulesMap sf =>
               let rel := path_relative (getFilePath sf) in
               mutate rel (collectSourceFile sf) modulesMap)
            sourceFiles modulesMap.

(** The body of the loop over the calls of the file [callerFile]. *)
Definition tallyCall (callerFile : string) (modulesMap : ModulesMap)
  (call : CallExpression) : ModulesMap :=
  let modulesMap :=
    mutate callerFile (fun e => set_callsOut_total (S (callsOut_total e)) e) modulesMap in
  let target := resolveCallTargetFile call in
  match target with
  | TargetExternal =>
      mutate callerFile (fun e => set_callsOut_external (S (callsOut_external e)) e)
        modulesMap
  | TargetUndefined =>
      mutate callerFile (fun e => set_callsOut_external (S (callsOut_external e)) e)
        modulesMap
  | TargetFile target =>
      if String.eqb target callerFile then
        mutate callerFile
          (fun e =>
             let e := set_callsOut_internal (S (callsOut_internal e)) e in
             set_incomingInternal (incomingInternal e + 0) e)
          modulesMap
      else
        let modulesMap :=
          mutate callerFile (fun e => set_callsOut_external (S (callsOut_external e)) e)
            modulesMap in
        match lookup target modulesMap with
        | Some _ =>
            mutate target (fun e => set_incomingInternal (incomingInternal e + 1) e)
              modulesMap
        | None => modulesMap
        end
  end.

(** "Second pass" *)
Definition secondPass (sourceFiles : list SourceFile) (modulesMap : ModulesMap) : ModulesMap :=
  fold_left (fun modulesMap sf =>
               let callerFile := path_relative (getFilePath sf) in
               fold_left (tallyCall callerFile) (getCallExpressions sf) modulesMap)
            sourceFiles modulesMap.

(** "Compose ModuleMetrics objects": one entry of [modulesMap]. *)
Definition composeMetrics (weights : Weights) (alpha : float)
  (entry : string * Accumulator) : ModuleMetrics.t :=
  let '(file, data) := entry in
  let rawV :=
    ((of_count (privateMethodCount data) * weights privateMethod)
     + ((of_count (callsOut_internal data) + of_count (incomingInternal data))
        * weights internalCall)
     + (of_count (internalTypeCount data) * weights internalType))%float in
  let rawA :=
    ((of_count (exportedCount data) * weights exportedSymbol)
     + (of_count (publicMethodCount data) * weights publicMethod)
     + (of_count (externalImports data) * weights externalImport)
     + (of_count (outgoingCallHeuristic data) * weights outgoingCall)
     + (of_count (callsOut_external data) * weights outgoingCall))%float in
  let cohesion :=
    if Nat.eqb (callsOut_total data) 0 then 1%float
    else (of_count (callsOut_internal data) / of_count (callsOut_total data))%float in
  let s := (rawV / Math_pow (AforS rawA) alpha)%float in
  {| ModuleMetrics.id := file;
     ModuleMetrics.file := file;
     ModuleMetrics.V := rawV;
     ModuleMetrics.A := rawA;
     ModuleMetrics.s := Some s;
     ModuleMetrics.cohesion := Some cohesion;
     ModuleMetrics.extras := data |}.

(** The accumulators at the end of the second pass. *)
Definition tallied (cfg : Config.t) (added : list SourceFile) : ModulesMap :=
  let sourceFiles := removeExcluded cfg added in
  secondPass sourceFiles (firstPass sourceFiles (initModules sourceFiles)).

(** [analyze]: [raw] is the parsed configuration file if there is one,
    [added] the source files that the include globs added. *)
Definition analyze (raw : option Config.t) (added : list SourceFile) : Analysis.t :=
  let cfg := loadConfig raw in
  let weights := spread DEFAULT_WEIGHTS (orNoWeights (Config.weights cfg)) in
  let alpha := nullish (Config.alpha cfg) alpha_1_8 in
  let modulesMap := tallied cfg added in
  let modules := map (composeMetrics weights alpha) (Object_entries modulesMap) in
  {| Analysis.results := Array_sort compareFn modules;
     Analysis.alpha := alpha;
     Analysis.thresholds := Config.thresholds cfg |}.

(** ** What the specification says, in its own words *)

(** The weight of a category: "the configured override for that category if
    present and the built-in default otherwise". *)
Definition configured_weight (raw : option Config.t) (k : WeightKey) : float :=
  match raw with
  | Some cfg =>
      match Config.weights cfg with
      | Some overrides =>
          match overrides k with
          | Some w => w
          | None => DEFAULT_WEIGHTS k
          end
      | None => DEFAULT_WEIGHTS k
      end
  | None => DEFAULT_WEIGHTS k
  end.

(** "V = privateMethodCount * wPrivate
       + (callsOutInternal + incomingInternal) * wInternalCall
       + internalMemberCount * wInternalType" *)
Definition spec_V (w : Weights) (d : Accumulator) : float :=
  (of_count (privateMethodCount d) * w privateMethod
   + (of_count (callsOut_internal d) + of_count (incomingInternal d)) * w internalCall
   + of_count (internalTypeCount d) * w internalType)%float.

(** "A = exportedCount * wExported + publicMethodCount * wPublic
       + externalImportCount * wExternalImport
       + outgoingCallHeuristic * wOutgoingCall
       + callsOutExternal * wOutgoingCall" *)
Definition spec_A (w : Weights) (d : Accumulator) : float :=
  (of_count (exportedCount d) * w exportedSymbol
   + of_count (publicMethodCount d) * w publicMethod
   + of_count (externalImports d) * w externalImport
   + of_count (outgoingCallHeuristic d) * w outgoingCall
   + of_count (callsOut_external d) * w outgoingCall)%float.

(** The four classes of a call of the resolver pass. *)
Inductive CallClass : Set :=
| SelfInternal
| CrossModule (target : string)
| TrueExternal
| Unresolved.

Definition classify (callerFile : string) (call : CallExpression) : CallClass :=
  match resolveCallTargetFile call with
  | TargetExternal => TrueExternal
  | TargetUndefined => Unresolved
  | TargetFile target =>
      if String.eqb target callerFile then SelfInternal else CrossModule target
  end.

(** A module "removed by an exclude pattern": its relative path matches one
    of the configured patterns. *)
Definition excluded (cfg : Config.t) (rel : string) : Prop :=
  exists patterns,
    Config.exclude cfg = Some patterns
    /\ existsb (fun pattern => minimatch rel pattern) patterns = true.

(** The left-most sub-expression of a member-access chain. *)
Fixpoint leftMost (e : Expression) : Expression :=
  match e with
  | PropertyAccessExpression _ object => leftMost object
  | _ => e
  end.

(** The module to which a symbol resolves. *)
Definition symbolTarget (sym : option Symbol) : CallTarget :=
  match sym with
  | None => TargetUndefined
  | Some sym => firstDeclarationTarget (getDeclarations sym)
  end.

(** The method and function bodies of a module. *)
Definition bodies (sf : SourceFile) : list string :=
  map (fun mth => orEmpty (method_getBodyText mth)) (flat_map getMethods (getClasses sf))
  ++ map (fun fn => orEmpty (function_getBodyText fn)) (getFunctions sf).

(** A body "contains at least one of the fixed outbound-call patterns". *)
Definition containsPattern (body : string) : bool :=
  existsb (fun pattern => includes body pattern) OUTBOUND.

(** The "literal occurrences" of one pattern in a text: the positions at
    which the pattern starts. *)
Fixpoint occurrences (pattern s : string) : nat :=
  (if String.prefix pattern s then 1 else 0)
  + match s with
    | EmptyString => 0
    | String _ s' => occurrences pattern s'
    end.

(** "the number of method/function bodies ... that contain at least one of
    the fixed outbound-call text patterns ... plus the total number of
    literal occurrences of those patterns in the module's entire raw text" *)
Definition spec_outgoingCallHeuristic (sf : SourceFile) : nat :=
  length (filter containsPattern (bodies sf))
  + list_sum (map (fun pattern => occurrences pattern (getFullText sf)) OUTBOUND).

(** The sphericity of a record, as the comparator of the sort reads it. *)
Definition sphericity (m : ModuleMetrics.t) : float := nullish (ModuleMetrics.s m) 0%float.

(** The records before they are sorted: in the order of [Object.entries]. *)
Definition composed (raw : option Config.t) (added : list SourceFile) : list ModuleMetrics.t :=
  let cfg := loadConfig raw in
  map (composeMetrics (spread DEFAULT_WEIGHTS (orNoWeights (Config.weights cfg)))
         (nullish (Config.alpha cfg) alpha_1_8))
      (Object_entries (tallied cfg added)).

(** The files of the project in the order of [project.getSourceFiles()]:
    the discovery order of the corpus. *)
Definition discovered (raw : option Config.t) (added : list SourceFile) : list string :=
  map (fun sf => path_relative (getFilePath sf)) (removeExcluded (loadConfig raw) added).

(** ** The report: [toMarkdown] and [run] of [src/run.ts] *)

(** The thresholds by which [run] rates: [cfg.thresholds ?? thresholds],
    the first from the configuration that [run] loads, the second from the
    one that [analyze] loads. *)
Definition thresholdsInForce (cfg : Run.Config) (analysis : Analysis.t)
  : option Run.Thresholds :=
  nullishOr (Run.thresholds cfg) (option_map untyped (Analysis.thresholds analysis)).

(** The list [annotated] of [run]. *)
Definition annotated (cfg : Run.Config) (analysis : Analysis.t) : list Annotated.t :=
  map (annotate (thresholdsInForce cfg analysis)) (Analysis.results analysis).

Section Report.

(** The string of a number in a template literal, [`${x}`]. *)
Variable Number_toString : float -> string.
(** [x.toFixed(digits)] *)
Variable Number_toFixed : float -> nat -> string.
(** [path.resolve(process.cwd(), p)] *)
Variable path_resolve : string -> string.
(** [JSON.stringify({ meta: { alpha }, results }, null, 2)] *)
Variable JSON_stringify : float -> list Annotated.t -> string.

(** The two lines of [toMarkdown] for one record. *)
Definition hotspot (cfg : Run.Config) (r : Annotated.t) : list string :=
  [ ("- **module** `" ++ Annotated.file r ++ "` — S="
     ++ Number_toFixed (nullish (Some (Annotated.s r)) 0%float) 3
     ++ " — **"
     ++ Rating_toString (rating (Some (Annotated.s r)) (Run.thresholds cfg))
     ++ "**")%string;
    ("  - V: " ++ Number_toString (Annotated.V r)
     ++ ", A: " ++ Number_toString (Annotated.A r))%string ].

Definition toMarkdown (results : list Annotated.t) (cfg : Run.Config) : string :=
  let lines :=
    [ "# Information Sphere Report";
      ("Alpha: " ++ Number_toString (nullish (Run.alpha cfg) alpha_1_8))%string;
      ("Thresholds: good > "
       ++ Number_toString (nullish (chain Run.good (Run.thresholds cfg)) 10%float)
       ++ ", warning > "
       ++ Number_toString (nullish (chain Run.warning (Run.thresholds cfg)) 3%float))%string;
      "";
      "## Hotspots (lowest sphericity first)" ] in
  let lines := lines ++ flat_map (hotspot cfg) results in
  let lines := lines ++ [ ""; "## Summary" ] in
  let counts := ratingCounts results in
  let lines :=
    lines
    ++ [ ("- Good: " ++ Number_toString (of_count (orZero (count_get GOOD counts))))%string;
         ("- Warning: "
          ++ Number_toString (of_count (orZero (count_get WARNING counts))))%string;
         ("- Collapse: "
          ++ Number_toString (of_count (orZero (count_get COLLAPSE counts))))%string ] in
  String.concat LF lines.

(** The six lines that [run] prints for one record. *)
Definition moduleLines (r : Annotated.t) : list Effect :=
  [ console_log ("Module: " ++ Annotated.file r)%string;
    console_log ("  Internal cohesion (V): " ++ Number_toString (Annotated.V r))%string;
    console_log ("  Public surface (A): " ++ Number_toString (Annotated.A r))%string;
    console_log ("  Cohesion (calls internal / calls total): "
                 ++ Number_toFixed (nullish (Annotated.cohesion r) 0%float) 3)%string;
    console_log ("  Sphericity (S): " ++ Number_toFixed (Annotated.s r) 3
                 ++ "  " ++ Rating_toString (Annotated.rating r))%string;
    console_log "" ].

(** [run], on the runs in which nothing throws. The configuration file is
    read twice: [rawRun] is what [loadConfig] of [src/run.ts] parses, [raw]
    what [loadConfig] of [src/analyze.ts] parses. What is returned is the
    sequence of lines printed and files written. *)
Definition run (rawRun : option Run.Config) (raw : option Config.t)
  (added : list SourceFile) : list Effect :=
  let cfg := Run.loadConfig rawRun in
  let analysis := analyze raw added in
  let alpha := Analysis.alpha analysis in
  let annotated := annotated cfg analysis in
  let out :=
    [ console_log "";
      console_log "Information Sphere — Ranked hotspots (lowest S first)";
      console_log ("alpha = " ++ Number_toString alpha)%string;
      console_log "" ] in
  if Nat.eqb (length annotated) 0 then
    out
    ++ [ console_log
           "No source files found by the analyzer. Check sphere.config.json include patterns." ]
  else
    let out := out ++ flat_map moduleLines annotated in
    let out :=
      out
      ++ [ console_log ("Analyzed " ++ Number_toString (of_count (length annotated))
                        ++ " modules.")%string ] in
    let reportCfg :=
      match Run.report cfg with
      | Some report => report
      | None => Run.defaultReport
      end in
    let out :=
      match truthy (Run.json reportCfg) with
      | Some json =>
          out
          ++ [ fs_writeFileSync (path_resolve json) (JSON_stringify alpha annotated);
               console_log ("Wrote JSON report: " ++ json)%string ]
      | None => out
      end in
    match truthy (Run.markdown reportCfg) with
    | Some markdown =>
        let md := toMarkdown annotated cfg in
        out
        ++ [ fs_writeFileSync (path_resolve markdown) md;
             console_log ("Wrote Markdown report: " ++ markdown)%string ]
    | None => out
    end.

End Report.

(** ** What the code is measured against *)

(** [Node.isPropertyAccessExpression] *)
Definition isPropertyAccessExpression (e : Expression) : bool :=
  match e with
  | PropertyAccessExpression _ _ => true
  | _ => false
  end.

(** A method counts as public: it has the [public] keyword, or neither
    [private] nor [protected]. *)
Definition declaredPublic (mth : MethodDeclaration) : bool :=
  hasPublicKeyword mth || (negb (hasPrivateKeyword mth) && negb (hasProtectedKeyword mth)).

(** The methods of all classes of a file. *)
Definition methods (sf : SourceFile) : list MethodDeclaration :=
  flat_map getMethods (getClasses sf).

(** An import counts as external: its specifier starts neither with a dot
    nor with a slash. *)
Definition externalSpecifier (spec : string) : bool :=
  negb (startsWith spec "." || startsWith spec "/").

(** The call expressions of the files that sit at the relative path [rel]. *)
Definition callsOf (rel : string) (files : list SourceFile) : list CallExpression :=
  flat_map getCallExpressions
    (filter (fun sf => String.eqb (path_relative (getFilePath sf)) rel) files).

Definition isSelfInternal (c : CallClass) : bool :=
  match c with
  | SelfInternal => true
  | _ => false
  end.

(** A call of class [c] goes from another module into [rel]. *)
Definition goesInto (rel : string) (c : CallClass) : bool :=
  match c with
  | CrossModule target => String.eqb target rel
  | _ => false
  end.

(** The number of calls, in all of [files], that go from another module
    into [rel]. *)
Definition callsInto (rel : string) (files : list SourceFile) : nat :=
  list_sum
    (map (fun sf =>
            length (filter (fun call =>
                              goesInto rel (classify (path_relative (getFilePath sf)) call))
                      (getCallExpressions sf)))
       files).

(** A number that is finite and not negative: what a weight is meant to
    be, and what a counter is. *)
Definition finite_nonneg (x : float) : Prop :=
  is_finite x = true /\ (0 <=? x)%float = true.

(** A number that is finite and positive. *)
Definition finite_positive (x : float) : Prop :=
  is_finite x = true /\ (0 <? x)%float = true.

(** V and A under the default weights, as integers. *)
Definition default_V (d : Accumulator) : nat :=
  privateMethodCount d + (callsOut_internal d + incomingInternal d)
  + 2 * internalTypeCount d.

Definition default_A (d : Accumulator) : nat :=
  3 * exportedCount d + 2 * publicMethodCount d + 2 * externalImports d
  + 2 * outgoingCallHeuristic d + 2 * callsOut_external d.

(** The order of the ratings from worst to best; [UNKNOWN] is no part of
    it and sits at the bottom. *)
Definition rank (r : Rating) : nat :=
  match r with
  | UNKNOWN => 0
  | COLLAPSE => 0
  | WARNING => 1
  | GOOD => 2
  end.

(** The number of records of a rating. *)
Definition rated (k : Rating) (results : list Annotated.t) : nat :=
  length (filter (fun c => Rating_eqb (Annotated.rating c) k) results).

(** The files that a run writes, in order. *)
Definition writes (out : list Effect) : list (string * string) :=
  flat_map (fun e =>
              match e with
              | fs_writeFileSync file data => [(file, data)]
              | console_log _ => []
              end)
    out.

(** * Properties *)

(** ** Binary64 arithmetic *)

Local Open Scope Z_scope.

(** *** The number of digits of a mantissa *)
Lemma digits2_size p : digits2_pos p = Pos.size p.
Proof. induction p; simpl; congruence. Qed.

Lemma digits2_bounds p :
  2 ^ (Zpos (digits2_pos p) - 1) <= Zpos p < 2 ^ Zpos (digits2_pos p).
Proof.
  rewrite digits2_size. split.
  - pose proof (Pos.size_le p) as H.
    assert (Zpos (2 ^ Pos.size p) <= Zpos p~0) by exact H.
    rewrite Pos2Z.inj_pow in H0.
    replace (Zpos (Pos.size p)) with (Z.succ (Zpos (Pos.size p) - 1)) in H0 by lia.
    rewrite Z.pow_succ_r in H0 by lia. lia.
  - pose proof (Pos.size_gt p) as H.
    assert (Zpos p < Zpos (2 ^ Pos.size p)) by exact H.
    now rewrite Pos2Z.inj_pow in H0.
Qed.

Lemma digits2_unique p d :
  2 ^ (d - 1) <= Zpos p < 2 ^ d -> Zpos (digits2_pos p) = d.
Proof.
  intros [Hl Hu]. pose proof (digits2_bounds p) as [Hl' Hu'].
  assert (0 < d).
  { destruct (Z.lt_ge_cases 0 d); auto. 
    assert (2 ^ d <= 2 ^ 0) by (apply Z.pow_le_mono_r; lia). simpl in H0. lia. }
  assert (d - 1 < Zpos (digits2_pos p)).
  { apply (Z.pow_lt_mono_r_iff 2); try lia. }
  assert (Zpos (digits2_pos p) - 1 < d).
  { apply (Z.pow_lt_mono_r_iff 2); try lia. }
  lia.
Qed.

(** *** Shifting a mantissa to the right *)
Lemma shr_m_of_loc m l : shr_m (shr_record_of_loc m l) = m.
Proof. destruct l as [|[]]; reflexivity. Qed.

Lemma loc_of_shr_of_loc m l : loc_of_shr_record (shr_record_of_loc m l) = l.
Proof. destruct l as [|[]]; reflexivity. Qed.

Lemma shr_1_m mrs : 0 <= shr_m mrs -> shr_m (shr_1 mrs) = shr_m mrs / 2.
Proof.
  destruct mrs as [m r s]; simpl. intros H.
  destruct m as [|p|p]; [reflexivity| |lia].
  destruct p; simpl.
  - rewrite Pos2Z.inj_xI. apply (Z.div_unique _ _ _ 1); lia.
  - rewrite Pos2Z.inj_xO. apply (Z.div_unique _ _ _ 0); lia.
  - reflexivity.
Qed.

Lemma pow2_xI n : 2 ^ Zpos n~1 = 2 * 2 ^ Zpos n * 2 ^ Zpos n.
Proof.
  replace (Zpos n~1) with (Z.succ (Zpos n + Zpos n)) by lia.
  rewrite Z.pow_succ_r by lia. rewrite Z.pow_add_r by lia. ring.
Qed.

Lemma pow2_xO n : 2 ^ Zpos n~0 = 2 ^ Zpos n * 2 ^ Zpos n.
Proof.
  replace (Zpos n~0) with (Zpos n + Zpos n) by lia.
  rewrite Z.pow_add_r by lia. reflexivity.
Qed.

Lemma iter_shr_m n : forall mrs, 0 <= shr_m mrs ->
  shr_m (iter_pos shr_1 n mrs) = shr_m mrs / 2 ^ Zpos n.
Proof.
  induction n as [n IH|n IH|]; intros mrs H; simpl iter_pos;
    try (assert (Hp : 0 < 2 ^ Zpos n) by (apply Z.pow_pos_nonneg; lia)).
  - assert (H1 : 0 <= shr_m (shr_1 mrs)).
    { rewrite shr_1_m by lia. apply Z.div_pos; lia. }
    assert (H2 : 0 <= shr_m (iter_pos shr_1 n (shr_1 mrs))).
    { rewrite IH by lia. apply Z.div_pos; lia. }
    rewrite IH by lia. rewrite IH by lia. rewrite shr_1_m by lia.
    rewrite !Z.div_div by lia. rewrite pow2_xI. f_equal. ring.
  - assert (H2 : 0 <= shr_m (iter_pos shr_1 n mrs)).
    { rewrite IH by lia. apply Z.div_pos; lia. }
    rewrite IH by lia. rewrite IH by lia.
    rewrite !Z.div_div by lia. rewrite pow2_xO. f_equal.
  - rewrite shr_1_m by lia. reflexivity.
Qed.

Lemma fexp_eq e : fexp prec emax e = Z.max (e - 53) (-1074).
Proof. reflexivity. Qed.

(** A positive mantissa stays positive when it is shifted to the format. *)
Lemma shr_fexp_pos m e l :
  0 < m -> -1074 <= e ->
  0 < shr_m (fst (shr_fexp prec emax m e l)) /\ -1074 <= snd (shr_fexp prec emax m e l).
Proof.
  intros Hm He. unfold shr_fexp, shr. rewrite fexp_eq.
  destruct m as [|p|p]; try lia. simpl Zdigits2.
  pose proof (digits2_bounds p) as [Hl Hu].
  set (d := Zpos (digits2_pos p)) in *.
  destruct (Z.max (d + e - 53) (-1074) - e) as [|n|n] eqn:En; simpl fst; simpl snd.
  - rewrite shr_m_of_loc. lia.
  - rewrite iter_shr_m by (rewrite shr_m_of_loc; lia).
    rewrite shr_m_of_loc. split; [|lia].
    assert (Zpos n = d - 53) by lia.
    apply Z.div_str_pos. split; [lia|].
    rewrite H. transitivity (2 ^ (d - 1)); [|lia].
    apply Z.pow_le_mono_r; lia.
  - rewrite shr_m_of_loc. lia.
Qed.

Lemma round_nearest_even_ge m l : m <= round_nearest_even m l <= m + 1.
Proof. destruct l as [|[]]; simpl; try lia. destruct (Z.even m); lia. Qed.

Lemma binary_round_aux_signed s m e l :
  0 < m -> -1074 <= e -> signed s (binary_round_aux prec emax s m e l).
Proof.
  intros Hm He. unfold binary_round_aux.
  pose proof (shr_fexp_pos m e l Hm He) as [H1 H2].
  destruct (shr_fexp prec emax m e l) as [mrs' e']. simpl in H1, H2.
  pose proof (round_nearest_even_ge (shr_m mrs') (loc_of_shr_record mrs')) as Hr.
  set (m2 := round_nearest_even (shr_m mrs') (loc_of_shr_record mrs')) in *.
  assert (Hm2 : 0 < m2) by lia.
  pose proof (shr_fexp_pos m2 e' loc_Exact Hm2 H2) as [H3 H4].
  destruct (shr_fexp prec emax m2 e' loc_Exact) as [mrs'' e'']. simpl in H3, H4.
  destruct (shr_m mrs'') as [|p|p]; try lia.
  destruct (e'' <=? emax - prec); reflexivity.
Qed.

Lemma shl_align_fst m e e' :
  e' <= e -> Zpos (fst (shl_align m e e')) = Zpos m * 2 ^ (e - e').
Proof.
  intros H. unfold shl_align.
  destruct (e' - e) as [|d|d] eqn:E.
  - simpl. replace (e - e') with 0 by lia. simpl; lia.
  - lia.
  - simpl fst. change (Pos.iter xO m d) with (shift_pos d m).
    rewrite shift_pos_correct, Z.pow_pos_fold.
    replace (e - e') with (Zpos d) by lia. lia.
Qed.

Lemma shl_align_snd m e e' :
  e' <= e -> snd (shl_align m e e') = e'.
Proof.
  intros H. unfold shl_align.
  destruct (e' - e) as [|d|d] eqn:E; simpl; lia.
Qed.

Lemma binary_round_signed s m e :
  -1074 <= e -> signed s (binary_round prec emax s m e).
Proof.
  intros He. unfold binary_round.
  destruct (shl_align m e (fexp prec emax (Zpos (digits2_pos m) + e))) as [mz ez] eqn:E.
  apply binary_round_aux_signed; [lia|].
  unfold shl_align in E. rewrite fexp_eq in E.
  destruct (Z.max (Z.pos (digits2_pos m) + e - 53) (-1074) - e); inversion E; subst; lia.
Qed.

(** *** The order of binary64 values *)

Lemma P53_eq : 2 ^ 53 = P53. Proof. reflexivity. Qed.
Lemma P52_eq : 2 ^ 52 = P52. Proof. reflexivity. Qed.

Lemma bounded_inv m e :
  bounded prec emax m e = true ->
  -1074 <= e <= 971 /\ Zpos m < P53 /\ (-1074 < e -> P52 <= Zpos m).
Proof.
  unfold bounded, canonical_mantissa. rewrite andb_true_iff, Z.eqb_eq, Z.leb_le, fexp_eq.
  intros [Hc He]. change (emax - prec) with 971 in He.
  pose proof (digits2_bounds m) as [Hl Hu].
  set (d := Zpos (digits2_pos m)) in *.
  assert (d <= 53) by lia.
  split; [lia|]. split.
  - rewrite <- P53_eq. eapply Z.lt_le_trans; [exact Hu|]. apply Z.pow_le_mono_r; lia.
  - intros H1. assert (d = 53) by lia. rewrite H0 in Hl. exact Hl.
Qed.

Lemma SFcompare_ord x y :
  valid_binary x = true -> valid_binary y = true -> not_nan x -> not_nan y ->
  SFcompare x y = Some (ord x ?= ord y).
Proof.
  intros Vx Vy Nx Ny.
  destruct x as [sx|sx| |sx mx ex]; try contradiction;
  destruct y as [sy|sy| |sy my ey]; try contradiction; simpl in Vx, Vy;
    try (apply bounded_inv in Vx; destruct Vx as (Vx1 & Vx2 & Vx3));
    try (apply bounded_inv in Vy; destruct Vy as (Vy1 & Vy2 & Vy3));
    unfold SFcompare, ord, P53, P52, TOP in *; f_equal; symmetry.
  all: try (destruct sx; try destruct sy; 
            first [ reflexivity | apply Z.compare_lt_iff; lia | apply Z.compare_gt_iff; lia ]).
  destruct sx, sy; try (first [ apply Z.compare_lt_iff; lia | apply Z.compare_gt_iff; lia ]).
  - destruct (Z.compare_spec ex ey).
    + subst. rewrite Pos.compare_cont_spec. unfold Pos.switch_Eq.
      destruct (Pos.compare_spec mx my); simpl;
      first [ apply Z.compare_eq_iff; lia | apply Z.compare_lt_iff; lia | apply Z.compare_gt_iff; lia ].
    + apply Z.compare_gt_iff; lia.
    + apply Z.compare_lt_iff; lia.
  - destruct (Z.compare_spec ex ey).
    + subst. rewrite Pos.compare_cont_spec. unfold Pos.switch_Eq.
      destruct (Pos.compare_spec mx my); simpl;
      first [ apply Z.compare_eq_iff; lia | apply Z.compare_lt_iff; lia | apply Z.compare_gt_iff; lia ].
    + apply Z.compare_lt_iff; lia.
    + apply Z.compare_gt_iff; lia.
Qed.

Lemma SFltb_zero_signed s r : signed s r -> SFltb r (S754_zero false) = s.
Proof. destruct r as [| | |s' m e]; simpl; try contradiction; intros ->; destruct s; reflexivity. Qed.

Lemma binary_normalize_sign D e :
  -1074 <= e ->
  SFltb (binary_normalize prec emax D e false) (S754_zero false) = (D <? 0).
Proof.
  intros He. destruct D as [|p|p]; simpl binary_normalize.
  - reflexivity.
  - rewrite (SFltb_zero_signed false) by (apply binary_round_signed; exact He). reflexivity.
  - rewrite (SFltb_zero_signed true) by (apply binary_round_signed; exact He). reflexivity.
Qed.

Lemma pow2_ge_2 k : 1 <= k -> 2 <= 2 ^ k.
Proof.
  intros H. change 2 with (2 ^ 1) at 1. apply Z.pow_le_mono_r; lia.
Qed.

Lemma SFsub_sign x y :
  valid_binary x = true -> valid_binary y = true -> not_nan x -> not_nan y ->
  SFltb (SF64sub x y) (S754_zero false) = (ord x <? ord y).
Proof.
  intros Vx Vy Nx Ny.
  destruct x as [sx|sx| |sx mx ex]; try contradiction;
  destruct y as [sy|sy| |sy my ey]; try contradiction; simpl in Vx, Vy;
    try (apply bounded_inv in Vx; destruct Vx as (Vx1 & Vx2 & Vx3));
    try (apply bounded_inv in Vy; destruct Vy as (Vy1 & Vy2 & Vy3)).
  all: try (unfold SF64sub, SFsub, ord, P53, P52, TOP in *;
            destruct sx; try destruct sy; simpl; symmetry;
            first [ reflexivity | apply Z.ltb_lt; lia | apply Z.ltb_ge; lia ]).
  unfold SF64sub, SFsub.
  rewrite binary_normalize_sign by lia.
  set (ez := Z.min ex ey).
  assert (Hx : Zpos (fst (shl_align mx ex ez)) = Zpos mx * 2 ^ (ex - ez))
    by (apply shl_align_fst; unfold ez; lia).
  assert (Hy : Zpos (fst (shl_align my ey ez)) = Zpos my * 2 ^ (ey - ez))
    by (apply shl_align_fst; unfold ez; lia).
  rewrite Hx, Hy. clear Hx Hy.
  assert (Ha : 0 < 2 ^ (ex - ez)) by (apply Z.pow_pos_nonneg; unfold ez; lia).
  assert (Hb : 0 < 2 ^ (ey - ez)) by (apply Z.pow_pos_nonneg; unfold ez; lia).
  assert (Ha' : ey < ex -> 2 <= 2 ^ (ex - ez)) by (intros; apply pow2_ge_2; unfold ez; lia).
  assert (Hb' : ex < ey -> 2 <= 2 ^ (ey - ez)) by (intros; apply pow2_ge_2; unfold ez; lia).
  assert (Ha0 : ex <= ey -> 2 ^ (ex - ez) = 1)
    by (intros; replace (ex - ez) with 0 by (unfold ez; lia); reflexivity).
  assert (Hb0 : ey <= ex -> 2 ^ (ey - ez) = 1)
    by (intros; replace (ey - ez) with 0 by (unfold ez; lia); reflexivity).
  set (a := 2 ^ (ex - ez)) in *. set (b := 2 ^ (ey - ez)) in *.
  clearbody a b. clear ez.
  unfold ord, cond_Zopp, P53, P52 in *.
  destruct (Z.lt_trichotomy ex ey) as [H|[H|H]].
  - rewrite Ha0 by lia. specialize (Hb' H). specialize (Vy3 ltac:(lia)).
    destruct sx, sy; apply eq_true_iff_eq; rewrite !Z.ltb_lt; nia.
  - rewrite Ha0, Hb0 by lia.
    destruct sx, sy; apply eq_true_iff_eq; rewrite !Z.ltb_lt; nia.
  - rewrite Hb0 by lia. specialize (Ha' H). specialize (Vx3 ltac:(lia)).
    destruct sx, sy; apply eq_true_iff_eq; rewrite !Z.ltb_lt; nia.
Qed.

(** *** The primitive comparisons and subtraction *)
Lemma is_nan_spec x :
  is_nan x = match Prim2SF x with S754_nan => true | _ => false end.
Proof.
  unfold is_nan. rewrite FloatAxioms.eqb_spec. pose proof (Prim2SF_valid x) as V.
  destruct (Prim2SF x) as [s|s| |s m e] eqn:E; try reflexivity.
  - destruct s; reflexivity.
  - unfold SFeqb. rewrite SFcompare_ord by (simpl; auto). now rewrite Z.compare_refl.
Qed.

Lemma not_nan_spec x : is_nan x = false -> not_nan (Prim2SF x).
Proof. rewrite is_nan_spec. destruct (Prim2SF x); simpl; auto; discriminate. Qed.

Lemma ltb_ord x y :
  is_nan x = false -> is_nan y = false -> (x <? y)%float = (ordf x <? ordf y).
Proof.
  intros Hx Hy. rewrite FloatAxioms.ltb_spec. unfold SFltb, ordf.
  rewrite SFcompare_ord by auto using Prim2SF_valid, not_nan_spec.
  unfold Z.ltb. destruct (ord (Prim2SF x) ?= ord (Prim2SF y)); reflexivity.
Qed.

Lemma leb_ord x y :
  is_nan x = false -> is_nan y = false -> (x <=? y)%float = (ordf x <=? ordf y).
Proof.
  intros Hx Hy. rewrite FloatAxioms.leb_spec. unfold SFleb, ordf.
  rewrite SFcompare_ord by auto using Prim2SF_valid, not_nan_spec.
  unfold Z.leb. destruct (ord (Prim2SF x) ?= ord (Prim2SF y)); reflexivity.
Qed.

Lemma eqb_ord x y :
  is_nan x = false -> is_nan y = false -> (x =? y)%float = (ordf x =? ordf y).
Proof.
  intros Hx Hy. rewrite FloatAxioms.eqb_spec. unfold SFeqb, ordf.
  rewrite SFcompare_ord by auto using Prim2SF_valid, not_nan_spec.
  destruct (Z.compare_spec (ord (Prim2SF x)) (ord (Prim2SF y))) as [E|E|E];
    symmetry; [apply Z.eqb_eq|apply Z.eqb_neq|apply Z.eqb_neq]; lia.
Qed.

Lemma ltb_sub_zero x y :
  is_nan x = false -> is_nan y = false -> ((x - y) <? 0)%float = (x <? y)%float.
Proof.
  intros Hx Hy. rewrite (ltb_ord x y) by assumption.
  rewrite FloatAxioms.ltb_spec, FloatAxioms.sub_spec.
  change (Prim2SF 0) with (S754_zero false).
  apply SFsub_sign; auto using Prim2SF_valid, not_nan_spec.
Qed.

(** *** Rounding a mantissa of 53 or 54 bits *)
Lemma Zdigits2_53 m : P52 <= m < P53 -> Zdigits2 m = 53.
Proof.
  intros H. destruct m as [|p|p]; unfold P52, P53 in *; try lia.
  simpl. apply digits2_unique. simpl. unfold Z.pow_pos; simpl. lia.
Qed.

Lemma Zdigits2_54 m : P53 <= m < 2 * P53 -> Zdigits2 m = 54.
Proof.
  intros H. destruct m as [|p|p]; unfold P52, P53 in *; try lia.
  simpl. apply digits2_unique. simpl. unfold Z.pow_pos; simpl. lia.
Qed.

Lemma shr_fexp_53 m e l :
  P52 <= m < P53 -> -1074 <= e ->
  shr_fexp prec emax m e l = (shr_record_of_loc m l, e).
Proof.
  intros Hm He. unfold shr_fexp. rewrite Zdigits2_53, fexp_eq by assumption.
  replace (Z.max (53 + e - 53) (-1074) - e) with 0 by lia. reflexivity.
Qed.

Lemma shr_fexp_54 m e l :
  P53 <= m < 2 * P53 -> -1074 <= e ->
  shr_fexp prec emax m e l = (shr_1 (shr_record_of_loc m l), e + 1).
Proof.
  intros Hm He. unfold shr_fexp. rewrite Zdigits2_54, fexp_eq by assumption.
  replace (Z.max (54 + e - 53) (-1074) - e) with 1 by lia. reflexivity.
Qed.

Lemma round_stage2 s m2 e :
  P52 <= m2 <= P53 -> -1074 <= e <= 970 ->
  lands s e
    (let '(mrs'', e'') := shr_fexp prec emax m2 e loc_Exact in
     match shr_m mrs'' with
     | Z0 => S754_zero s
     | Zpos m => if e'' <=? emax - prec then S754_finite s m e'' else S754_infinity s
     | Zneg _ => S754_nan
     end).
Proof.
  intros Hm He. destruct (Z.eq_dec m2 P53) as [->|Hne].
  - rewrite shr_fexp_54 by (unfold P53; lia). simpl shr_m.
    change (emax - prec) with 971.
    replace (e + 1 <=? 971) with true by (symmetry; apply Z.leb_le; lia).
    eexists _, _. split; [reflexivity|]. right. split; reflexivity.
  - rewrite shr_fexp_53 by lia. simpl shr_m.
    destruct m2 as [|p|p]; unfold P52 in *; try lia.
    change (emax - prec) with 971.
    replace (e <=? 971) with true by (symmetry; apply Z.leb_le; lia).
    eexists _, _. split; [reflexivity|]. now left.
Qed.

Lemma binary_round_aux_53 s m e l :
  P52 <= m < P53 -> -1074 <= e <= 970 ->
  lands s e (binary_round_aux prec emax s m e l).
Proof.
  intros Hm He. unfold binary_round_aux. rewrite shr_fexp_53 by lia.
  rewrite shr_m_of_loc, loc_of_shr_of_loc.
  apply round_stage2; [|assumption].
  pose proof (round_nearest_even_ge m l). lia.
Qed.

Lemma binary_round_aux_54 s m e l :
  P53 <= m < 2 * P53 -> -1074 <= e <= 969 ->
  lands s (e + 1) (binary_round_aux prec emax s m e l).
Proof.
  intros Hm He. unfold binary_round_aux. rewrite shr_fexp_54 by lia.
  set (mrs := shr_1 (shr_record_of_loc m l)).
  assert (Hs : shr_m mrs = m / 2)
    by (unfold mrs; rewrite shr_1_m; rewrite shr_m_of_loc; unfold P53 in *; lia).
  apply round_stage2; [|lia].
  pose proof (round_nearest_even_ge (shr_m mrs) (loc_of_shr_record mrs)).
  rewrite Hs in *. unfold P52, P53 in *.
  assert (4503599627370496 <= m / 2 < 9007199254740992).
  { split; [apply Z.div_le_lower_bound|apply Z.div_lt_upper_bound]; lia. }
  lia.
Qed.

Lemma new_location_0 m : new_location m 0 = loc_Exact.
Proof. unfold new_location. destruct (Z.even m); reflexivity. Qed.

(** The quotient of two normal numbers [x <= y] is at most one. *)
Lemma SFdiv_normal_le_one mx ex my ey :
  P52 <= Zpos mx < P53 -> P52 <= Zpos my < P53 ->
  -52 <= ex <= 0 -> -52 <= ey <= 0 ->
  ex < ey \/ (ex = ey /\ Zpos mx <= Zpos my) ->
  exists m e,
    SF64div (S754_finite false mx ex) (S754_finite false my ey) = S754_finite false m e
    /\ (e < -52 \/ (e = -52 /\ Zpos m = P52)).
Proof.
  intros Hx Hy Hex Hey Hle.
  unfold SF64div, SFdiv, SFdiv_core_binary.
  rewrite (Zdigits2_53 (Zpos mx)), (Zdigits2_53 (Zpos my)), fexp_eq by assumption.
  replace (Z.min (Z.max (53 + ex - (53 + ey) - 53) (-1074)) (ex - ey))
    with (ex - ey - 53) by lia.
  replace (ex - ey - (ex - ey - 53)) with 53 by lia.
  cbv iota. rewrite Z.shiftl_mul_pow2 by lia. rewrite P53_eq.
  pose proof (Z_div_mod (Zpos mx * P53) (Zpos my) ltac:(lia)) as Hdiv.
  destruct (Z.div_eucl (Zpos mx * P53) (Zpos my)) as [q r].
  destruct Hdiv as [Hq Hr]. simpl xorb.
  assert (Hq1 : P52 <= q) by (unfold P52, P53 in *; nia).
  assert (Hq2 : q < 2 * P53) by (unfold P52, P53 in *; nia).
  destruct (Z_lt_le_dec q P53) as [Hlt|Hge].
  - destruct (binary_round_aux_53 false q (ex - ey - 53) (new_location (Zpos my) r))
      as (m & e & E & Hl); [lia|lia|].
    exists m, e. split; [exact E|]. lia.
  - destruct Hle as [Hle|[Heq Hle]].
    + destruct (binary_round_aux_54 false q (ex - ey - 53) (new_location (Zpos my) r))
        as (m & e & E & Hl); [lia|lia|].
      exists m, e. split; [exact E|]. lia.
    + assert (q = P53) by (unfold P52, P53 in *; nia).
      assert (r = 0) by (unfold P52, P53 in *; nia).
      subst q r ex. rewrite new_location_0.
      replace (ey - ey - 53) with (-53) by lia.
      eexists _, _. split; [reflexivity|]. right. split; reflexivity.
Qed.

Lemma binary_round_aux_exact s m e :
  P52 <= Zpos m < P53 -> -1074 <= e <= 971 ->
  binary_round_aux prec emax s (Zpos m) e loc_Exact = S754_finite s m e.
Proof.
  intros Hm He. unfold binary_round_aux.
  rewrite shr_fexp_53 by lia. simpl shr_m. simpl round_nearest_even.
  rewrite shr_fexp_53 by lia. simpl shr_m.
  change (emax - prec) with 971.
  now replace (e <=? 971) with true by (symmetry; apply Z.leb_le; lia).
Qed.

(** An integer below 2^53 is a binary64 value: its mantissa is the integer
    shifted to 53 bits. *)
Lemma binary_round_int p :
  Zpos p < P53 ->
  exists m e,
    binary_round prec emax false p 0 = S754_finite false m e
    /\ P52 <= Zpos m < P53 /\ -52 <= e <= 0 /\ Zpos m = Zpos p * 2 ^ (- e).
Proof.
  intros Hp. unfold binary_round. rewrite fexp_eq.
  pose proof (digits2_bounds p) as [Hl Hu].
  set (d := Zpos (digits2_pos p)) in *.
  assert (Hd1 : 1 <= d) by (unfold d; lia).
  assert (Hd : d <= 53).
  { destruct (Z_le_gt_dec d 53); auto.
    assert (2 ^ 53 <= 2 ^ (d - 1)) by (apply Z.pow_le_mono_r; lia).
    rewrite P53_eq in H. lia. }
  replace (Z.max (d + 0 - 53) (-1074)) with (d - 53) by lia.
  pose proof (shl_align_fst p 0 (d - 53) ltac:(lia)) as Hf.
  pose proof (shl_align_snd p 0 (d - 53) ltac:(lia)) as Hs.
  destruct (shl_align p 0 (d - 53)) as [mz ez]. cbn [fst snd] in Hf, Hs. subst ez.
  replace (0 - (d - 53)) with (53 - d) in Hf by lia.
  assert (H52 : 2 ^ (d - 1) * 2 ^ (53 - d) = P52).
  { rewrite <- Z.pow_add_r by lia. replace (d - 1 + (53 - d)) with 52 by lia. reflexivity. }
  assert (H53 : 2 ^ d * 2 ^ (53 - d) = P53).
  { rewrite <- Z.pow_add_r by lia. replace (d + (53 - d)) with 53 by lia. reflexivity. }
  assert (Hb : P52 <= Zpos mz < P53).
  { rewrite Hf, <- H52, <- H53.
    assert (0 < 2 ^ (53 - d)) by (apply Z.pow_pos_nonneg; lia).
    split; [apply Z.mul_le_mono_nonneg_r|apply Z.mul_lt_mono_pos_r]; lia. }
  exists mz, (d - 53). rewrite binary_round_aux_exact by lia.
  repeat split; try lia. rewrite Hf. f_equal. f_equal. lia.
Qed.

Lemma of_count_zero : Prim2SF (of_count 0) = S754_zero false.
Proof. reflexivity. Qed.

Lemma of_count_normal n :
  (0 < n)%nat -> Z.of_nat n < P53 ->
  exists m e,
    Prim2SF (of_count n) = S754_finite false m e
    /\ P52 <= Zpos m < P53 /\ -52 <= e <= 0 /\ Zpos m = Z.of_nat n * 2 ^ (- e).
Proof.
  intros Hn Hb. unfold of_count. rewrite of_uint63_spec, Uint63.of_Z_spec.
  rewrite Z.mod_small by (unfold P53 in Hb; change wB with 9223372036854775808; lia).
  destruct (Z.of_nat n) as [|p|p] eqn:E; try lia.
  simpl binary_normalize. apply binary_round_int. exact Hb.
Qed.

(** The quotient of two counters [i <= t], [0 < t < 2^53], lies in [0, 1]. *)
Lemma div_counts_unit i t :
  (i <= t)%nat -> (0 < t)%nat -> Z.of_nat t < P53 ->
  let c := (of_count i / of_count t)%float in
  (0 <=? c)%float = true /\ (c <=? 1)%float = true.
Proof.
  intros Hit Ht Hb c.
  destruct (of_count_normal t Ht Hb) as (mt & et & Et & Hmt & Het & Hvt).
  unfold c. rewrite !FloatAxioms.leb_spec, FloatAxioms.div_spec, Et.
  change (Prim2SF 0) with (S754_zero false).
  change (Prim2SF 1) with (S754_finite false 4503599627370496 (-52)).
  destruct i as [|i].
  - rewrite of_count_zero.
    split; reflexivity.
  - destruct (of_count_normal (S i) ltac:(lia) ltac:(lia)) as (mi & ei & Ei & Hmi & Hei & Hvi).
    rewrite Ei.
    assert (Hle : ei < et \/ (ei = et /\ Zpos mi <= Zpos mt)).
    { destruct (Z.lt_trichotomy ei et) as [H|[H|H]]; [now left| right | exfalso].
      - subst et. split; [reflexivity|]. rewrite Hvi, Hvt.
        apply Z.mul_le_mono_nonneg_r; [apply Z.pow_nonneg|]; lia.
      - assert (Hp : - et = (- ei) + (ei - et)) by lia.
        rewrite Hp, Z.pow_add_r in Hvt by lia.
        assert (2 <= 2 ^ (ei - et)) by (apply pow2_ge_2; lia).
        assert (0 < 2 ^ (- ei)) by (apply Z.pow_pos_nonneg; lia).
        assert (Z.of_nat (S i) * 2 ^ (- ei) <= Z.of_nat t * 2 ^ (- ei))
          by (apply Z.mul_le_mono_nonneg_r; lia).
        unfold P52, P53 in *. nia. }
    destruct (SFdiv_normal_le_one mi ei mt et Hmi Hmt Hei Het Hle)
      as (m & e & E & Hme).
    rewrite E. unfold SFleb, SFcompare. split; [reflexivity|].
    destruct Hme as [Hlt|[-> Hm]].
    + apply Z.compare_lt_iff in Hlt. now rewrite Hlt.
    + unfold P52 in Hm. injection Hm as ->. rewrite Z.compare_refl. reflexivity.
Qed.

(** *** Infinity divided by anything is not a finite number *)
Lemma div_infinity_not_finite (p : float) : is_finite (infinity / p) = false.
Proof.
  unfold is_finite. rewrite is_nan_spec. unfold is_infinity.
  rewrite FloatAxioms.eqb_spec, abs_spec, FloatAxioms.div_spec.
  change (Prim2SF infinity) with (S754_infinity false).
  destruct (Prim2SF p) as [s|s| |s m e]; try destruct s; reflexivity.
Qed.

(** *** A quotient of finite numbers is a number *)
Lemma shr_fexp_nonneg m e l :
  0 <= m -> 0 <= shr_m (fst (shr_fexp prec emax m e l)).
Proof.
  intros Hm. unfold shr_fexp, shr.
  destruct (fexp prec emax (Zdigits2 m + e) - e) as [|n|n]; cbn [fst];
    rewrite ?iter_shr_m by (rewrite shr_m_of_loc; exact Hm);
    rewrite shr_m_of_loc; try exact Hm.
  apply Z.div_pos; [exact Hm|]. apply Z.pow_pos_nonneg; lia.
Qed.

Lemma binary_round_aux_not_nan s m e l :
  0 <= m -> not_nan (binary_round_aux prec emax s m e l).
Proof.
  intros Hm. unfold binary_round_aux.
  pose proof (shr_fexp_nonneg m e l Hm) as H1.
  destruct (shr_fexp prec emax m e l) as [mrs' e']. cbn [fst] in H1.
  pose proof (round_nearest_even_ge (shr_m mrs') (loc_of_shr_record mrs')) as Hr.
  set (m2 := round_nearest_even (shr_m mrs') (loc_of_shr_record mrs')) in *.
  assert (Hm2 : 0 <= m2) by lia.
  pose proof (shr_fexp_nonneg m2 e' loc_Exact Hm2) as H3.
  destruct (shr_fexp prec emax m2 e' loc_Exact) as [mrs'' e'']. cbn [fst] in H3.
  destruct (shr_m mrs'') as [|p|p]; try lia; [exact I|].
  destruct (e'' <=? emax - prec); exact I.
Qed.

Lemma SFdiv_finite_not_nan sx mx ex sy my ey :
  not_nan (SF64div (S754_finite sx mx ex) (S754_finite sy my ey)).
Proof.
  unfold SF64div, SFdiv, SFdiv_core_binary.
  set (e' := Z.min _ _). set (s := ex - ey - e').
  set (m' := match s with Z0 => Zpos mx | Zpos _ => Z.shiftl (Zpos mx) s | Zneg _ => 0 end).
  assert (Hm' : 0 <= m').
  { unfold m'. destruct s; try lia. apply Z.shiftl_nonneg. lia. }
  pose proof (Z_div_mod m' (Zpos my) ltac:(lia)) as Hdiv.
  destruct (Z.div_eucl m' (Zpos my)) as [q r]. destruct Hdiv as [Hq Hr].
  apply binary_round_aux_not_nan. nia.
Qed.

Lemma is_finite_spec x :
  is_finite x
  = match Prim2SF x with
    | S754_zero _ | S754_finite _ _ _ => true
    | _ => false
    end.
Proof.
  unfold is_finite. rewrite is_nan_spec. unfold is_infinity.
  rewrite FloatAxioms.eqb_spec, abs_spec.
  change (Prim2SF infinity) with (S754_infinity false).
  destruct (Prim2SF x) as [s|s| |s m e]; try destruct s; reflexivity.
Qed.

Lemma div_finite_not_nan (x y : float) :
  is_finite x = true -> is_finite y = true -> (y =? 0)%float = false ->
  is_nan (x / y) = false.
Proof.
  rewrite !is_finite_spec, is_nan_spec, FloatAxioms.eqb_spec, FloatAxioms.div_spec.
  change (Prim2SF 0) with (S754_zero false).
  destruct (Prim2SF x) as [sx|sx| |sx mx ex]; try discriminate;
    destruct (Prim2SF y) as [sy|sy| |sy my ey]; try discriminate; intros _ _ Hy.
  - reflexivity.
  - pose proof (SFdiv_finite_not_nan sx mx ex sy my ey) as H.
    destruct (SF64div (S754_finite sx mx ex) (S754_finite sy my ey)); try reflexivity.
    contradiction.
Qed.

Local Close Scope Z_scope.

(** ** The module map *)

Lemma lookup_mutate_same k f mm :
  lookup k (mutate k f mm) = option_map f (lookup k mm).
Proof.
  induction mm as [|[k' v] mm IH]; simpl; [reflexivity|].
  destruct (String.eqb k' k) eqn:E; simpl; rewrite E; [reflexivity|exact IH].
Qed.

Lemma lookup_mutate_other k k' f mm :
  k' <> k -> lookup k' (mutate k f mm) = lookup k' mm.
Proof.
  intros Hne. induction mm as [|[k0 v] mm IH]; simpl; [reflexivity|].
  destruct (String.eqb k0 k) eqn:E; simpl.
  - apply String.eqb_eq in E. subst k0.
    destruct (String.eqb k k') eqn:E'; [|reflexivity].
    apply String.eqb_eq in E'. congruence.
  - destruct (String.eqb k0 k'); [reflexivity|exact IH].
Qed.

Lemma lookup_mutate_field {B : Type} (g : Accumulator -> B) k k' f mm :
  (forall v, g (f v) = g v) ->
  option_map g (lookup k' (mutate k f mm)) = option_map g (lookup k' mm).
Proof.
  intros Hg. destruct (string_dec k' k) as [->|Hne].
  - rewrite lookup_mutate_same. destruct (lookup k mm); simpl; [now rewrite Hg|reflexivity].
  - now rewrite lookup_mutate_other.
Qed.

Lemma keys_mutate k f mm : map fst (mutate k f mm) = map fst mm.
Proof.
  induction mm as [|[k' v] mm IH]; simpl; [reflexivity|].
  destruct (String.eqb k' k); simpl; [reflexivity|now rewrite IH].
Qed.

Lemma mutate_mutate k f g mm :
  mutate k f (mutate k g mm) = mutate k (fun e => f (g e)) mm.
Proof.
  induction mm as [|[k' v] mm IH]; simpl; [reflexivity|].
  destruct (String.eqb k' k) eqn:E; simpl; rewrite E; [reflexivity|now rewrite IH].
Qed.

Lemma Forall_mutate (P : Accumulator -> Prop) k f mm :
  (forall v, P v -> P (f v)) ->
  Forall (fun kv => P (snd kv)) mm ->
  Forall (fun kv => P (snd kv)) (mutate k f mm).
Proof.
  intros Hf. induction 1 as [|[k' v] mm Hv Hmm IH]; simpl; [constructor|].
  destruct (String.eqb k' k); constructor; simpl in *; auto.
Qed.

Lemma Forall_assign (P : Accumulator -> Prop) k v mm :
  P v ->
  Forall (fun kv => P (snd kv)) mm ->
  Forall (fun kv => P (snd kv)) (assign k v mm).
Proof.
  intros Hv. induction 1 as [|[k' v'] mm Hv' Hmm IH]; simpl.
  - constructor; [exact Hv|constructor].
  - destruct (String.eqb k' k); constructor; simpl in *; auto.
Qed.

Lemma lookup_In k v mm : lookup k mm = Some v -> In (k, v) mm.
Proof.
  induction mm as [|[k' v'] mm IH]; simpl; [discriminate|].
  destruct (String.eqb k' k) eqn:E.
  - apply String.eqb_eq in E. intros [= ->]. left. now subst.
  - intros H. right. now apply IH.
Qed.

Lemma lookup_None k mm : lookup k mm = None <-> ~ In k (map fst mm).
Proof.
  induction mm as [|[k' v'] mm IH]; simpl; [tauto|].
  destruct (String.eqb k' k) eqn:E.
  - apply String.eqb_eq in E. split; [discriminate|]. intros H. exfalso. apply H. now left.
  - apply String.eqb_neq in E. rewrite IH. tauto.
Qed.

Lemma In_lookup k v mm :
  NoDup (map fst mm) -> In (k, v) mm -> lookup k mm = Some v.
Proof.
  induction mm as [|[k' v'] mm IH]; simpl; [tauto|].
  intros Hnd [H|H]; inversion Hnd as [|? ? Hnin Hnd']; subst.
  - injection H as -> ->. now rewrite String.eqb_refl.
  - destruct (String.eqb k' k) eqn:E.
    + apply String.eqb_eq in E. subst k'. exfalso. apply Hnin.
      change k with (fst (k, v)). now apply in_map.
    + now apply IH.
Qed.

Lemma keys_assign_new k v mm :
  ~ In k (map fst mm) -> assign k v mm = mm ++ [(k, v)].
Proof.
  induction mm as [|[k' v'] mm IH]; simpl; [reflexivity|].
  intros H. destruct (String.eqb k' k) eqn:E.
  - apply String.eqb_eq in E. tauto.
  - rewrite IH by tauto. reflexivity.
Qed.

Lemma In_keys_assign k v mm k' :
  In k' (map fst (assign k v mm)) <-> k' = k \/ In k' (map fst mm).
Proof.
  induction mm as [|[k0 v0] mm IH]; simpl.
  - intuition auto.
  - destruct (String.eqb k0 k) eqn:E; simpl.
    + apply String.eqb_eq in E. subst. intuition auto.
    + rewrite IH. intuition auto.
Qed.

(** ** The two passes *)

Ltac split_ifs :=
  repeat match goal with
         | |- context [if ?b then _ else _] => destruct b
         end.

(** The first pass leaves the call tallies alone. *)
Lemma collectMethod_calls m mth :
  callsOut_total (collectMethod m mth) = callsOut_total m
  /\ callsOut_internal (collectMethod m mth) = callsOut_internal m
  /\ callsOut_external (collectMethod m mth) = callsOut_external m
  /\ incomingInternal (collectMethod m mth) = incomingInternal m
  /\ incomingExternal (collectMethod m mth) = incomingExternal m.
Proof. unfold collectMethod. split_ifs; simpl; auto. Qed.

Lemma collectFunction_calls m fn :
  callsOut_total (collectFunction m fn) = callsOut_total m
  /\ callsOut_internal (collectFunction m fn) = callsOut_internal m
  /\ callsOut_external (collectFunction m fn) = callsOut_external m
  /\ incomingInternal (collectFunction m fn) = incomingInternal m
  /\ incomingExternal (collectFunction m fn) = incomingExternal m.
Proof. unfold collectFunction. split_ifs; simpl; auto. Qed.

Lemma fold_calls {X : Type} (step : Accumulator -> X -> Accumulator) :
  (forall m x,
      callsOut_total (step m x) = callsOut_total m
      /\ callsOut_internal (step m x) = callsOut_internal m
      /\ callsOut_external (step m x) = callsOut_external m
      /\ incomingInternal (step m x) = incomingInternal m
      /\ incomingExternal (step m x) = incomingExternal m) ->
  forall xs m,
    callsOut_total (fold_left step xs m) = callsOut_total m
    /\ callsOut_internal (fold_left step xs m) = callsOut_internal m
    /\ callsOut_external (fold_left step xs m) = callsOut_external m
    /\ incomingInternal (fold_left step xs m) = incomingInternal m
    /\ incomingExternal (fold_left step xs m) = incomingExternal m.
Proof.
  intros Hstep xs. induction xs as [|x xs IH]; intros m; simpl; [auto|].
  destruct (IH (step m x)) as (-> & -> & -> & -> & ->). apply Hstep.
Qed.

Lemma collectClass_calls m cls :
  callsOut_total (collectClass m cls) = callsOut_total m
  /\ callsOut_internal (collectClass m cls) = callsOut_internal m
  /\ callsOut_external (collectClass m cls) = callsOut_external m
  /\ incomingInternal (collectClass m cls) = incomingInternal m
  /\ incomingExternal (collectClass m cls) = incomingExternal m.
Proof.
  unfold collectClass. simpl. apply (fold_calls collectMethod collectMethod_calls).
Qed.

Lemma collectSourceFile_calls sf m :
  callsOut_total (collectSourceFile sf m) = callsOut_total m
  /\ callsOut_internal (collectSourceFile sf m) = callsOut_internal m
  /\ callsOut_external (collectSourceFile sf m) = callsOut_external m
  /\ incomingInternal (collectSourceFile sf m) = incomingInternal m
  /\ incomingExternal (collectSourceFile sf m) = incomingExternal m.
Proof.
  unfold collectSourceFile. simpl.
  destruct (fold_calls collectFunction collectFunction_calls (getFunctions sf)
              (fold_left collectClass (getClasses sf)
                 (set_externalImports
                    (length (filter (fun spec => negb (startsWith spec "." || startsWith spec "/"))
                               (getImportDeclarations sf)))
                    (set_exportedCount (length (getExportedDeclarations_keys sf)) m))))
    as (-> & -> & -> & -> & ->).
  destruct (fold_calls collectClass collectClass_calls (getClasses sf)
              (set_externalImports
                 (length (filter (fun spec => negb (startsWith spec "." || startsWith spec "/"))
                            (getImportDeclarations sf)))
                 (set_exportedCount (length (getExportedDeclarations_keys sf)) m)))
    as (-> & -> & -> & -> & ->).
  simpl. auto.
Qed.

(** The heuristic counter that the first pass leaves behind. *)
Lemma collectMethods_heuristic ms m :
  outgoingCallHeuristic (fold_left collectMethod ms m)
  = outgoingCallHeuristic m
    + length (filter (test OUTBOUND) (map (fun mth => orEmpty (method_getBodyText mth)) ms)).
Proof.
  revert m. induction ms as [|mth ms IH]; intros m; simpl; [lia|].
  rewrite IH. unfold collectMethod.
  destruct (test OUTBOUND (orEmpty (method_getBodyText mth))); split_ifs; simpl; lia.
Qed.

Lemma collectClasses_heuristic cs m :
  outgoingCallHeuristic (fold_left collectClass cs m)
  = outgoingCallHeuristic m
    + length (filter (test OUTBOUND)
                (map (fun mth => orEmpty (method_getBodyText mth)) (flat_map getMethods cs))).
Proof.
  revert m. induction cs as [|cls cs IH]; intros m; simpl; [lia|].
  rewrite IH. unfold collectClass. simpl. rewrite collectMethods_heuristic.
  rewrite map_app, filter_app, length_app. lia.
Qed.

Lemma collectFunctions_heuristic fs m :
  outgoingCallHeuristic (fold_left collectFunction fs m)
  = outgoingCallHeuristic m
    + length (filter (test OUTBOUND) (map (fun fn => orEmpty (function_getBodyText fn)) fs)).
Proof.
  revert m. induction fs as [|fn fs IH]; intros m; simpl; [lia|].
  rewrite IH. unfold collectFunction.
  destruct (test OUTBOUND (orEmpty (function_getBodyText fn))); split_ifs; simpl; lia.
Qed.

Lemma collectSourceFile_heuristic sf :
  outgoingCallHeuristic (collectSourceFile sf emptyAccumulator)
  = length (filter (test OUTBOUND) (bodies sf))
    + length (match_g OUTBOUND (getFullText sf)).
Proof.
  unfold collectSourceFile, bodies. simpl.
  rewrite collectFunctions_heuristic, collectClasses_heuristic. simpl.
  rewrite filter_app, length_app. lia.
Qed.

(** The keys of the map are fixed once the entries are initialized. *)
Lemma keys_firstPass files mm : map fst (firstPass files mm) = map fst mm.
Proof.
  unfold firstPass. revert mm. induction files as [|sf files IH]; intros mm; simpl;
    [reflexivity|]. now rewrite IH, keys_mutate.
Qed.

Lemma keys_tallyCall callerFile mm call :
  map fst (tallyCall callerFile mm call) = map fst mm.
Proof.
  unfold tallyCall.
  destruct (resolveCallTargetFile call) as [target| |]; rewrite ?keys_mutate; try reflexivity.
  destruct (String.eqb target callerFile); rewrite ?keys_mutate; try reflexivity.
  destruct (lookup target _); now rewrite ?keys_mutate.
Qed.

Lemma keys_tallyCalls callerFile calls mm :
  map fst (fold_left (tallyCall callerFile) calls mm) = map fst mm.
Proof.
  revert mm. induction calls as [|c calls IH]; intros mm; simpl; [reflexivity|].
  now rewrite IH, keys_tallyCall.
Qed.

Lemma keys_secondPass files mm : map fst (secondPass files mm) = map fst mm.
Proof.
  unfold secondPass. revert mm. induction files as [|sf files IH]; intros mm; simpl;
    [reflexivity|]. now rewrite IH, keys_tallyCalls.
Qed.

Lemma initModules_from files acc :
  NoDup (map fst acc ++ map (fun sf => path_relative (getFilePath sf)) files) ->
  fold_left (fun modulesMap sf =>
               assign (path_relative (getFilePath sf)) emptyAccumulator modulesMap)
    files acc
  = acc ++ map (fun sf => (path_relative (getFilePath sf), emptyAccumulator)) files.
Proof.
  revert acc. induction files as [|sf files IH]; intros acc Hnd; simpl.
  - now rewrite app_nil_r.
  - rewrite keys_assign_new.
    + rewrite IH.
      * now rewrite <- app_assoc.
      * rewrite map_app. simpl. rewrite <- app_assoc. exact Hnd.
    + intros Hin. apply NoDup_remove_2 in Hnd. apply Hnd.
      apply in_or_app. now left.
Qed.

Lemma initModules_NoDup files :
  NoDup (map (fun sf => path_relative (getFilePath sf)) files) ->
  initModules files
  = map (fun sf => (path_relative (getFilePath sf), emptyAccumulator)) files.
Proof. intros Hnd. unfold initModules. now rewrite initModules_from. Qed.

Lemma In_keys_initModules_from files acc k :
  In k (map fst (fold_left (fun modulesMap sf =>
                              assign (path_relative (getFilePath sf)) emptyAccumulator modulesMap)
                   files acc))
  <-> In k (map fst acc) \/ In k (map (fun sf => path_relative (getFilePath sf)) files).
Proof.
  revert acc. induction files as [|sf files IH]; intros acc; simpl; [tauto|].
  rewrite IH, In_keys_assign. intuition auto.
Qed.

Lemma In_keys_initModules files k :
  In k (map fst (initModules files))
  <-> In k (map (fun sf => path_relative (getFilePath sf)) files).
Proof. unfold initModules. rewrite In_keys_initModules_from. simpl. tauto. Qed.

(** A property of every accumulator that the steps of the engine keep. *)
Lemma Forall_initModules (P : Accumulator -> Prop) files :
  P emptyAccumulator -> Forall (fun kv => P (snd kv)) (initModules files).
Proof.
  intros H0. unfold initModules.
  assert (Hacc : Forall (fun kv : string * Accumulator => P (snd kv)) []) by constructor.
  revert Hacc. generalize (@nil (string * Accumulator)).
  induction files as [|sf files IH]; intros acc Hacc; simpl; [exact Hacc|].
  apply IH. now apply Forall_assign.
Qed.

Lemma Forall_firstPass (P : Accumulator -> Prop) files mm :
  (forall sf v, P v -> P (collectSourceFile sf v)) ->
  Forall (fun kv => P (snd kv)) mm ->
  Forall (fun kv => P (snd kv)) (firstPass files mm).
Proof.
  intros Hc. unfold firstPass. revert mm.
  induction files as [|sf files IH]; intros mm Hmm; simpl; [exact Hmm|].
  apply IH. apply Forall_mutate; auto.
Qed.

Lemma Forall_secondPass (P : Accumulator -> Prop) files mm :
  (forall callerFile call mm,
      Forall (fun kv => P (snd kv)) mm ->
      Forall (fun kv => P (snd kv)) (tallyCall callerFile mm call)) ->
  Forall (fun kv => P (snd kv)) mm ->
  Forall (fun kv => P (snd kv)) (secondPass files mm).
Proof.
  intros Hc. unfold secondPass. revert mm.
  induction files as [|sf files IH]; intros mm Hmm; simpl; [exact Hmm|].
  apply IH. generalize dependent mm.
  induction (getCallExpressions sf) as [|c calls IHc]; intros mm Hmm; simpl; [exact Hmm|].
  apply IHc. now apply Hc.
Qed.

Lemma Forall_tallied (P : Accumulator -> Prop) cfg added :
  P emptyAccumulator ->
  (forall sf v, P v -> P (collectSourceFile sf v)) ->
  (forall callerFile call mm,
      Forall (fun kv => P (snd kv)) mm ->
      Forall (fun kv => P (snd kv)) (tallyCall callerFile mm call)) ->
  Forall (fun kv => P (snd kv)) (tallied cfg added).
Proof.
  intros H0 H1 H2. unfold tallied.
  apply Forall_secondPass; [exact H2|].
  apply Forall_firstPass; [exact H1|].
  now apply Forall_initModules.
Qed.

(** ** The sort *)

Lemma insertSorted_perm {T : Type} (cmp : T -> T -> float) x l :
  Permutation (insertSorted cmp x l) (x :: l).
Proof.
  induction l as [|y l IH]; simpl; [reflexivity|].
  destruct (SortCompare cmp y x <? 0)%float; [|reflexivity].
  rewrite IH. apply perm_swap.
Qed.

Lemma Array_sort_perm {T : Type} (cmp : T -> T -> float) l :
  Permutation (Array_sort cmp l) l.
Proof.
  induction l as [|x l IH]; simpl; [constructor|].
  rewrite insertSorted_perm. now constructor.
Qed.

Lemma In_Array_sort {T : Type} (cmp : T -> T -> float) l x :
  In x (Array_sort cmp l) <-> In x l.
Proof.
  split; apply Permutation_in; [|symmetry]; apply Array_sort_perm.
Qed.

Lemma Forall_Array_sort {T : Type} (cmp : T -> T -> float) (P : T -> Prop) l :
  Forall P l -> Forall P (Array_sort cmp l).
Proof.
  rewrite !Forall_forall. intros H x Hx. apply H. now apply In_Array_sort in Hx.
Qed.

Lemma insertSorted_HdRel {T : Type} (cmp : T -> T -> float) (le : T -> T -> Prop) a x l :
  le a x -> HdRel le a l -> HdRel le a (insertSorted cmp x l).
Proof.
  intros Hax Hal. destruct l as [|y l]; simpl; [now constructor|].
  inversion Hal; subst.
  destruct (SortCompare cmp y x <? 0)%float; now constructor.
Qed.

(** Insertion keeps a list ordered, for elements on which the comparator
    decides an order [le]. *)
Lemma insertSorted_Sorted {T : Type} (cmp : T -> T -> float)
  (ok : T -> Prop) (le : T -> T -> Prop) :
  (forall x y, ok x -> ok y -> (SortCompare cmp y x <? 0)%float = true -> le y x) ->
  (forall x y, ok x -> ok y -> (SortCompare cmp y x <? 0)%float = false -> le x y) ->
  forall x l, ok x -> Forall ok l -> Sorted le l -> Sorted le (insertSorted cmp x l).
Proof.
  intros Hlt Hge x l Hx Hl Hs. induction l as [|y l IH]; simpl.
  - repeat constructor.
  - inversion Hl; subst. inversion Hs; subst.
    destruct (SortCompare cmp y x <? 0)%float eqn:E.
    + constructor; [now apply IH|]. apply insertSorted_HdRel; auto.
    + constructor; [exact Hs|]. constructor. auto.
Qed.

Lemma Array_sort_Sorted {T : Type} (cmp : T -> T -> float)
  (ok : T -> Prop) (le : T -> T -> Prop) :
  (forall x y, ok x -> ok y -> (SortCompare cmp y x <? 0)%float = true -> le y x) ->
  (forall x y, ok x -> ok y -> (SortCompare cmp y x <? 0)%float = false -> le x y) ->
  forall l, Forall ok l -> Sorted le (Array_sort cmp l).
Proof.
  intros Hlt Hge l Hl. induction l as [|x l IH]; simpl; [constructor|].
  inversion Hl; subst.
  apply (insertSorted_Sorted cmp ok le); auto. now apply Forall_Array_sort.
Qed.

(** Insertion never moves an element past one that the selection [p] keeps
    together with it: the sort is stable. *)
Lemma insertSorted_filter {T : Type} (cmp : T -> T -> float)
  (ok : T -> Prop) (p : T -> bool) :
  (forall x y, ok x -> ok y -> (SortCompare cmp y x <? 0)%float = true ->
               p x = true -> p y = true -> False) ->
  forall x l, ok x -> Forall ok l ->
    filter p (insertSorted cmp x l) = filter p (x :: l).
Proof.
  intros Hp x l Hx Hl. induction l as [|y l IH]; simpl; [reflexivity|].
  inversion Hl; subst.
  destruct (SortCompare cmp y x <? 0)%float eqn:E; [|reflexivity].
  simpl. rewrite IH by assumption. simpl.
  destruct (p x) eqn:Px, (p y) eqn:Py; try reflexivity.
  exfalso. eapply Hp; eauto.
Qed.

Lemma Array_sort_filter {T : Type} (cmp : T -> T -> float)
  (ok : T -> Prop) (p : T -> bool) :
  (forall x y, ok x -> ok y -> (SortCompare cmp y x <? 0)%float = true ->
               p x = true -> p y = true -> False) ->
  forall l, Forall ok l -> filter p (Array_sort cmp l) = filter p l.
Proof.
  intros Hp l Hl. induction l as [|x l IH]; simpl; [reflexivity|].
  inversion Hl; subst.
  rewrite (insertSorted_filter cmp ok p) by (auto using Forall_Array_sort).
  simpl. now rewrite IH.
Qed.

(** The comparator of [analyze] on numbers that are not NaN. *)
Lemma ltb_nan_l x y : is_nan x = true -> (x <? y)%float = false.
Proof.
  rewrite is_nan_spec, FloatAxioms.ltb_spec.
  destruct (Prim2SF x); try discriminate. reflexivity.
Qed.

Lemma eqb_true_not_nan x y :
  (x =? y)%float = true -> is_nan x = false /\ is_nan y = false.
Proof.
  rewrite FloatAxioms.eqb_spec, !is_nan_spec. unfold SFeqb.
  destruct (Prim2SF x), (Prim2SF y); simpl; try discriminate; auto.
Qed.

Lemma SortCompare_compareFn a b :
  is_nan (sphericity a) = false -> is_nan (sphericity b) = false ->
  (SortCompare compareFn a b <? 0)%float = (sphericity a <? sphericity b)%float.
Proof.
  intros Ha Hb. unfold SortCompare, compareFn. fold (sphericity a) (sphericity b).
  rewrite <- (ltb_sub_zero (sphericity a) (sphericity b)) by assumption.
  destruct (is_nan (sphericity a - sphericity b)) eqn:E; [|reflexivity].
  rewrite (ltb_nan_l _ 0%float E). reflexivity.
Qed.

Lemma ltb_true_leb x y :
  is_nan x = false -> is_nan y = false ->
  (x <? y)%float = true -> (x <=? y)%float = true.
Proof.
  intros Hx Hy. rewrite ltb_ord, leb_ord by assumption.
  rewrite Z.ltb_lt, Z.leb_le. lia.
Qed.

Lemma ltb_false_leb x y :
  is_nan x = false -> is_nan y = false ->
  (y <? x)%float = false -> (x <=? y)%float = true.
Proof.
  intros Hx Hy. rewrite ltb_ord, leb_ord by assumption.
  rewrite Z.ltb_ge, Z.leb_le. lia.
Qed.

Lemma ltb_eqb_apart x y v :
  (y <? x)%float = true -> (x =? v)%float = true -> (y =? v)%float = true -> False.
Proof.
  intros Hlt Hx Hy.
  destruct (eqb_true_not_nan _ _ Hx) as [Nx Nv].
  destruct (eqb_true_not_nan _ _ Hy) as [Ny _].
  rewrite ltb_ord in Hlt by assumption. rewrite eqb_ord in Hx, Hy by assumption.
  apply Z.ltb_lt in Hlt. apply Z.eqb_eq in Hx, Hy. lia.
Qed.

(** A list that is ordered by a key is determined by its elements and by
    the order of the elements that share a key. *)
Lemma sorted_stable_unique {T : Type} (k : T -> Z) (l1 : list T) :
  forall l2,
    Permutation l1 l2 ->
    Sorted (fun a b => (k a <= k b)%Z) l1 ->
    Sorted (fun a b => (k a <= k b)%Z) l2 ->
    (forall a, In a l1 ->
               filter (fun m => (k m =? k a)%Z) l1 = filter (fun m => (k m =? k a)%Z) l2) ->
    l1 = l2.
Proof.
  assert (Htrans : Relations_1.Transitive (fun a b : T => (k a <= k b)%Z))
    by (intros a b c; lia).
  induction l1 as [|x l1 IH]; intros l2 Hp S1 S2 Hf.
  - apply Permutation_nil in Hp. now subst.
  - destruct l2 as [|y l2]; [apply Permutation_sym, Permutation_nil in Hp; discriminate|].
    pose proof (Sorted_StronglySorted Htrans S1) as SS1.
    pose proof (Sorted_StronglySorted Htrans S2) as SS2.
    inversion SS1 as [|? ? _ Hx]; subst. inversion SS2 as [|? ? _ Hy]; subst.
    rewrite Forall_forall in Hx, Hy.
    assert (Hyx : (k y <= k x)%Z).
    { destruct (Permutation_in x Hp (or_introl eq_refl)) as [->|Hin]; [lia|auto]. }
    assert (Hxy : (k x <= k y)%Z).
    { destruct (Permutation_in y (Permutation_sym Hp) (or_introl eq_refl)) as [->|Hin];
        [lia|auto]. }
    pose proof (Hf x (or_introl eq_refl)) as Hfx. simpl in Hfx.
    rewrite Z.eqb_refl in Hfx.
    replace (k y =? k x)%Z with true in Hfx by (symmetry; apply Z.eqb_eq; lia).
    injection Hfx as <- Hfx.
    f_equal. apply IH.
    + now apply Permutation_cons_inv in Hp.
    + now inversion S1.
    + now inversion S2.
    + intros a Ha. pose proof (Hf a (or_intror Ha)) as Hfa. simpl in Hfa.
      destruct (k x =? k a)%Z; [now injection Hfa|exact Hfa].
Qed.

Lemma Sorted_on {T : Type} (ok : T -> Prop) (R R' : T -> T -> Prop) l :
  (forall a b, ok a -> ok b -> R a b -> R' a b) ->
  Forall ok l -> Sorted R l -> Sorted R' l.
Proof.
  intros HR Hok Hs. induction Hs as [|a l Hs IH Hd]; [constructor|].
  inversion Hok as [|? ? Ha Hl]; subst. constructor; [auto|].
  destruct Hd as [|b l' Hab]; constructor.
  inversion Hl; subst. auto.
Qed.

(** What [Array.prototype.sort] returns is determined: on records whose S
    is a number, every stable ordering by S of the records is the list that
    [Array_sort] computes. *)
Lemma Array_sort_determined (l l' : list ModuleMetrics.t) :
  Forall (fun m => is_nan (sphericity m) = false) l ->
  Permutation l' l ->
  Sorted (fun a b => (sphericity a <=? sphericity b)%float = true) l' ->
  (forall a, In a l' ->
             filter (fun m => (sphericity m =? sphericity a)%float) l'
             = filter (fun m => (sphericity m =? sphericity a)%float) l) ->
  l' = Array_sort compareFn l.
Proof.
  intros Hok Hp Hs Hf.
  assert (Hok' : Forall (fun m => is_nan (sphericity m) = false) l').
  { rewrite Forall_forall in *. intros m Hm. apply Hok. exact (Permutation_in m Hp Hm). }
  assert (Hoks : Forall (fun m => is_nan (sphericity m) = false) (Array_sort compareFn l))
    by now apply Forall_Array_sort.
  apply (sorted_stable_unique (fun m => ordf (sphericity m))).
  - rewrite Hp. symmetry. apply Array_sort_perm.
  - apply (Sorted_on (fun m => is_nan (sphericity m) = false)
             (fun a b => (sphericity a <=? sphericity b)%float = true)); auto.
    intros a b Ha Hb H. rewrite leb_ord in H by assumption. now apply Z.leb_le.
  - apply (Array_sort_Sorted compareFn (fun m => is_nan (sphericity m) = false)); auto.
    + intros x y Hx Hy H. rewrite SortCompare_compareFn, ltb_ord in H by assumption.
      apply Z.ltb_lt in H. lia.
    + intros x y Hx Hy H. rewrite SortCompare_compareFn, ltb_ord in H by assumption.
      apply Z.ltb_ge in H. lia.
  - intros a Ha.
    assert (Hoka : is_nan (sphericity a) = false)
      by (rewrite Forall_forall in Hok'; auto).
    assert (Hext : forall l0, Forall (fun m => is_nan (sphericity m) = false) l0 ->
              filter (fun m => (ordf (sphericity m) =? ordf (sphericity a))%Z) l0
              = filter (fun m => (sphericity m =? sphericity a)%float) l0).
    { intros l0 H0. apply filter_ext_in. intros m Hm.
      rewrite Forall_forall in H0. now rewrite eqb_ord by auto. }
    rewrite !Hext by assumption. rewrite (Hf a Ha). symmetry.
    apply (Array_sort_filter compareFn (fun m => is_nan (sphericity m) = false)); auto.
    intros x y Hx Hy H Px Py. rewrite SortCompare_compareFn in H by assumption.
    exact (ltb_eqb_apart _ _ _ H Px Py).
Qed.

(** ** The outbound-call pattern *)

Lemma existsb_orb {X : Type} (f g : X -> bool) l :
  existsb (fun x => f x || g x) l = existsb f l || existsb g l.
Proof.
  induction l as [|x l IH]; simpl; [reflexivity|].
  rewrite IH. destruct (f x), (g x), (existsb f l), (existsb g l); reflexivity.
Qed.

Lemma existsb_pointwise {X : Type} (f g : X -> bool) l :
  (forall x, f x = g x) -> existsb f l = existsb g l.
Proof.
  intros H. induction l as [|x l IH]; simpl; [reflexivity|]. now rewrite H, IH.
Qed.

Lemma matchHere_existsb re s :
  match matchHere re s with Some _ => true | None => false end
  = existsb (fun alt => String.prefix alt s) re.
Proof.
  induction re as [|alt re IH]; simpl; [reflexivity|].
  destruct (String.prefix alt s); [reflexivity|exact IH].
Qed.

(** [re.test(s)] holds when one of the alternatives occurs in [s]. *)
Lemma test_includes re s :
  test re s = existsb (fun alt => includes s alt) re.
Proof.
  induction s as [|c s IH].
  - change (test re "") with (match matchHere re "" with Some _ => true | None => false end).
    rewrite matchHere_existsb. apply existsb_pointwise. intros alt. simpl.
    now rewrite orb_false_r.
  - change (test re (String c s))
      with (match matchHere re (String c s) with Some _ => true | None => test re s end).
    change (fun alt => includes (String c s) alt)
      with (fun alt => String.prefix alt (String c s) || includes s alt).
    rewrite IH.
    rewrite (existsb_orb (fun alt => String.prefix alt (String c s)) (fun alt => includes s alt)).
    rewrite <- matchHere_existsb.
    destruct (matchHere re (String c s)); reflexivity.
Qed.

Lemma prefix_split p s :
  String.prefix p s = true -> exists rest, s = (p ++ rest)%string.
Proof.
  revert s. induction p as [|a p IH]; intros s.
  - intros _. now exists s.
  - destruct s as [|b s]; simpl; [discriminate|].
    destruct (ascii_dec a b) as [->|]; [|discriminate].
    intros H. destruct (IH s H) as [rest ->]. now exists rest.
Qed.

Lemma prefix_empty s : String.prefix "" s = true.
Proof. destruct s; reflexivity. Qed.

Lemma occurrences_step p c s :
  occurrences p (String c s)
  = (if String.prefix p (String c s) then 1 else 0) + occurrences p s.
Proof. reflexivity. Qed.

Lemma match_g_from_step c s :
  match_g_from OUTBOUND 0 (String c s)
  = match matchHere OUTBOUND (String c s) with
    | Some alt => alt :: match_g_from OUTBOUND (String.length alt - 1) s
    | None => match_g_from OUTBOUND 0 s
    end.
Proof. reflexivity. Qed.

(** The matches of the global search are the starts of the four patterns:
    no pattern starts inside an occurrence of a pattern. *)
Lemma match_g_occurrences s :
  length (match_g OUTBOUND s)
  = list_sum (map (fun pattern => occurrences pattern s) OUTBOUND).
Proof.
  unfold match_g.
  remember (String.length s) as n eqn:Hn.
  assert (Hle : String.length s <= n) by lia. clear Hn.
  revert s Hle. induction n as [|n IH]; intros s Hle.
  - destruct s; [reflexivity|simpl in Hle; lia].
  - destruct s as [|c s]; [reflexivity|].
    destruct (String.prefix "fetch(" (String c s)) eqn:E1.
    { destruct (prefix_split _ _ E1) as [rest E]. rewrite E in *. clear E E1.
      simpl in Hle. simpl. rewrite !prefix_empty. simpl. rewrite IH by lia. simpl. lia. }
    destruct (String.prefix "axios." (String c s)) eqn:E2.
    { destruct (prefix_split _ _ E2) as [rest E]. rewrite E in *. clear E E1 E2.
      simpl in Hle. simpl. rewrite !prefix_empty. simpl. rewrite IH by lia. simpl. lia. }
    destruct (String.prefix "http.request" (String c s)) eqn:E3.
    { destruct (prefix_split _ _ E3) as [rest E]. rewrite E in *. clear E E1 E2 E3.
      simpl in Hle. simpl. rewrite !prefix_empty. simpl. rewrite IH by lia. simpl. lia. }
    destruct (String.prefix "XMLHttpRequest" (String c s)) eqn:E4.
    { destruct (prefix_split _ _ E4) as [rest E]. rewrite E in *. clear E E1 E2 E3 E4.
      simpl in Hle. simpl. rewrite !prefix_empty. simpl. rewrite IH by lia. simpl. lia. }
    rewrite match_g_from_step. unfold OUTBOUND at 1. unfold matchHere.
    rewrite E1, E2, E3, E4. unfold OUTBOUND at 2. unfold map, list_sum, fold_right.
    rewrite !occurrences_step, E1, E2, E3, E4.
    simpl in Hle. rewrite IH by lia. unfold OUTBOUND, map, list_sum, fold_right. lia.
Qed.

(** ** The engine as a whole *)

Lemma spread_configured raw k :
  spread DEFAULT_WEIGHTS (orNoWeights (Config.weights (loadConfig raw))) k
  = configured_weight raw k.
Proof.
  unfold spread, orNoWeights, configured_weight, loadConfig, total.
  destruct raw as [cfg|]; simpl; [|reflexivity].
  destruct (Config.weights cfg) as [overrides|]; reflexivity.
Qed.

(** [Object.entries] lists every property once, and lists the properties
    in insertion order when no key is an array index. *)
Lemma insertIndex_perm i e l : Permutation (insertIndex i e l) ((i, e) :: l).
Proof.
  induction l as [|[j e'] l IH]; simpl; [reflexivity|].
  destruct (j <? i)%N; [|reflexivity].
  rewrite IH. apply perm_swap.
Qed.

Lemma insertIndex_Sorted i e l :
  Sorted (fun a b => (fst a <= fst b)%N) l ->
  Sorted (fun a b => (fst a <= fst b)%N) (insertIndex i e l).
Proof.
  induction l as [|[j e'] l IH]; simpl; intros H.
  - repeat constructor.
  - apply Sorted_inv in H. destruct H as [Hs Hd].
    destruct (N.ltb_spec j i) as [Hlt|Hge].
    + constructor; [auto|]. destruct l as [|[k e''] l]; simpl.
      * constructor. simpl. lia.
      * destruct (k <? i)%N; constructor; simpl; [apply HdRel_inv in Hd; exact Hd|lia].
    + constructor; [constructor; assumption|]. constructor. simpl. lia.
Qed.

(** The array indices come in ascending order. *)
Lemma indexEntries_Sorted mm :
  Sorted (fun a b => (fst a <= fst b)%N) (indexEntries mm).
Proof.
  induction mm as [|e mm IH]; simpl; [constructor|].
  destruct (arrayIndex (fst e)); [now apply insertIndex_Sorted|exact IH].
Qed.

Lemma Object_entries_perm mm : Permutation (Object_entries mm) mm.
Proof.
  unfold Object_entries. induction mm as [|e mm IH]; simpl; [reflexivity|].
  destruct (arrayIndex (fst e)) as [i|].
  - rewrite (Permutation_map snd (insertIndex_perm i e _)). simpl. now constructor.
  - rewrite <- Permutation_middle. now constructor.
Qed.

Lemma In_Object_entries mm e : In e (Object_entries mm) <-> In e mm.
Proof. split; apply Permutation_in; [|symmetry]; apply Object_entries_perm. Qed.


Lemma results_composed raw added :
  Analysis.results (analyze raw added) = Array_sort compareFn (composed raw added).
Proof. reflexivity. Qed.

Lemma In_results raw added m :
  In m (Analysis.results (analyze raw added)) <-> In m (composed raw added).
Proof. rewrite results_composed. apply In_Array_sort. Qed.

Lemma In_composed raw added m :
  In m (composed raw added) ->
  exists file data,
    In (file, data) (tallied (loadConfig raw) added)
    /\ m = composeMetrics
             (spread DEFAULT_WEIGHTS (orNoWeights (Config.weights (loadConfig raw))))
             (nullish (Config.alpha (loadConfig raw)) alpha_1_8) (file, data).
Proof.
  unfold composed. rewrite in_map_iff.
  intros ([file data] & <- & Hin). apply (proj1 (In_Object_entries _ _)) in Hin.
  exists file, data. split; [exact Hin|reflexivity].
Qed.

Lemma Forall_results (P : ModuleMetrics.t -> Prop) raw added :
  (forall file data,
      In (file, data) (tallied (loadConfig raw) added) ->
      P (composeMetrics
           (spread DEFAULT_WEIGHTS (orNoWeights (Config.weights (loadConfig raw))))
           (nullish (Config.alpha (loadConfig raw)) alpha_1_8) (file, data))) ->
  Forall P (Analysis.results (analyze raw added)).
Proof.
  intros H. apply Forall_forall. intros m Hm.
  apply In_results, In_composed in Hm. destruct Hm as (file & data & Hin & ->). auto.
Qed.

Lemma keys_tallied cfg added :
  map fst (tallied cfg added) = map fst (initModules (removeExcluded cfg added)).
Proof. unfold tallied. now rewrite keys_secondPass, keys_firstPass. Qed.

Lemma keys_tallied_NoDup cfg added :
  NoDup (map (fun sf => path_relative (getFilePath sf)) (removeExcluded cfg added)) ->
  map fst (tallied cfg added)
  = map (fun sf => path_relative (getFilePath sf)) (removeExcluded cfg added).
Proof.
  intros Hnd. rewrite keys_tallied, initModules_NoDup by assumption.
  rewrite map_map. reflexivity.
Qed.



(** A module that an exclude pattern removed is not tracked. *)
Lemma excluded_not_tracked cfg added rel :
  excluded cfg rel -> ~ In rel (map fst (tallied cfg added)).
Proof.
  intros (patterns & Hex & Hm). rewrite keys_tallied, In_keys_initModules.
  unfold removeExcluded. rewrite Hex.
  destruct patterns as [|p ps]; [discriminate|].
  rewrite in_map_iff. intros (sf & <- & Hin).
  apply filter_In in Hin. destruct Hin as [_ Hf].
  rewrite Hm in Hf. discriminate.
Qed.

(** Every step of the resolver pass keeps the tallies a partition. *)
Lemma tallyCall_partition callerFile call mm :
  Forall (fun kv => callsOut_internal (snd kv) + callsOut_external (snd kv)
                    = callsOut_total (snd kv)) mm ->
  Forall (fun kv => callsOut_internal (snd kv) + callsOut_external (snd kv)
                    = callsOut_total (snd kv)) (tallyCall callerFile mm call).
Proof.
  intros H. unfold tallyCall.
  destruct (resolveCallTargetFile call) as [target| |].
  - destruct (String.eqb target callerFile).
    + rewrite mutate_mutate.
      apply (Forall_mutate (fun v => callsOut_internal v + callsOut_external v = callsOut_total v));
        [|exact H]. intros v Hv. simpl. lia.
    + rewrite mutate_mutate.
      assert (H' : Forall (fun kv => callsOut_internal (snd kv) + callsOut_external (snd kv)
                                     = callsOut_total (snd kv))
                     (mutate callerFile
                        (fun e => set_callsOut_external
                                    (S (callsOut_external (set_callsOut_total (S (callsOut_total e)) e)))
                                    (set_callsOut_total (S (callsOut_total e)) e)) mm)).
      { apply (Forall_mutate (fun v => callsOut_internal v + callsOut_external v = callsOut_total v));
          [|exact H]. intros v Hv. simpl. lia. }
      destruct (lookup target _); [|exact H'].
      apply (Forall_mutate (fun v => callsOut_internal v + callsOut_external v = callsOut_total v));
        [|exact H']. intros v Hv. simpl. lia.
  - rewrite mutate_mutate.
    apply (Forall_mutate (fun v => callsOut_internal v + callsOut_external v = callsOut_total v));
      [|exact H]. intros v Hv. simpl. lia.
  - rewrite mutate_mutate.
    apply (Forall_mutate (fun v => callsOut_internal v + callsOut_external v = callsOut_total v));
      [|exact H]. intros v Hv. simpl. lia.
Qed.

Lemma tallied_partition cfg added :
  Forall (fun kv => callsOut_internal (snd kv) + callsOut_external (snd kv)
                    = callsOut_total (snd kv)) (tallied cfg added).
Proof.
  apply (Forall_tallied
           (fun v => callsOut_internal v + callsOut_external v = callsOut_total v)).
  - reflexivity.
  - intros sf v Hv. destruct (collectSourceFile_calls sf v) as (-> & -> & -> & _). exact Hv.
  - intros. now apply tallyCall_partition.
Qed.

(** No step writes [incomingExternal]. *)
Lemma tallyCall_incomingExternal callerFile call mm :
  Forall (fun kv => incomingExternal (snd kv) = 0) mm ->
  Forall (fun kv => incomingExternal (snd kv) = 0) (tallyCall callerFile mm call).
Proof.
  intros H. unfold tallyCall.
  destruct (resolveCallTargetFile call) as [target| |];
    [destruct (String.eqb target callerFile);
     [|destruct (lookup target _)]| |];
    repeat (apply (Forall_mutate (fun v => incomingExternal v = 0));
            [intros v Hv; exact Hv|]);
    exact H.
Qed.

Lemma tallied_incomingExternal cfg added :
  Forall (fun kv => incomingExternal (snd kv) = 0) (tallied cfg added).
Proof.
  apply (Forall_tallied (fun v => incomingExternal v = 0)).
  - reflexivity.
  - intros sf v Hv. destruct (collectSourceFile_calls sf v) as (_ & _ & _ & _ & ->). exact Hv.
  - intros. now apply tallyCall_incomingExternal.
Qed.

(** The first pass, on a corpus whose relative paths are distinct. *)
Lemma firstPass_lookup_other files mm k :
  ~ In k (map (fun sf => path_relative (getFilePath sf)) files) ->
  lookup k (firstPass files mm) = lookup k mm.
Proof.
  unfold firstPass. revert mm. induction files as [|sf files IH]; intros mm Hk; simpl;
    [reflexivity|].
  simpl in Hk. rewrite IH by tauto. apply lookup_mutate_other. intros ->. tauto.
Qed.

Lemma firstPass_lookup files mm sf :
  NoDup (map (fun sf => path_relative (getFilePath sf)) files) ->
  (forall sf', In sf' files ->
               lookup (path_relative (getFilePath sf')) mm = Some emptyAccumulator) ->
  In sf files ->
  lookup (path_relative (getFilePath sf)) (firstPass files mm)
  = Some (collectSourceFile sf emptyAccumulator).
Proof.
  revert mm. induction files as [|f files IH]; intros mm Hnd Hmm Hin; [destruct Hin|].
  inversion Hnd as [|? ? Hnin Hnd']; subst.
  change (firstPass (f :: files) mm)
    with (firstPass files (mutate (path_relative (getFilePath f)) (collectSourceFile f) mm)).
  destruct Hin as [->|Hin].
  - rewrite firstPass_lookup_other by assumption.
    rewrite lookup_mutate_same, Hmm by now left. reflexivity.
  - apply IH; try assumption. intros sf' Hsf'.
    rewrite lookup_mutate_other.
    + apply Hmm. now right.
    + intros E. apply Hnin. rewrite <- E.
      now apply (in_map (fun sf => path_relative (getFilePath sf))).
Qed.

Lemma initModules_lookup files sf :
  NoDup (map (fun sf => path_relative (getFilePath sf)) files) ->
  In sf files ->
  lookup (path_relative (getFilePath sf)) (initModules files) = Some emptyAccumulator.
Proof.
  intros Hnd Hin. apply In_lookup.
  - rewrite initModules_NoDup, map_map by assumption. exact Hnd.
  - rewrite initModules_NoDup by assumption.
    now apply (in_map (fun sf => (path_relative (getFilePath sf), emptyAccumulator))).
Qed.

(** The second pass leaves the heuristic counter alone. *)
Lemma tallyCall_heuristic callerFile call mm k :
  option_map outgoingCallHeuristic (lookup k (tallyCall callerFile mm call))
  = option_map outgoingCallHeuristic (lookup k mm).
Proof.
  unfold tallyCall.
  destruct (resolveCallTargetFile call) as [target| |];
    [destruct (String.eqb target callerFile);
     [|destruct (lookup target _)]| |];
    repeat (rewrite lookup_mutate_field by reflexivity); reflexivity.
Qed.

Lemma secondPass_heuristic files mm k :
  option_map outgoingCallHeuristic (lookup k (secondPass files mm))
  = option_map outgoingCallHeuristic (lookup k mm).
Proof.
  unfold secondPass. revert mm. induction files as [|sf files IH]; intros mm; simpl;
    [reflexivity|].
  rewrite IH. generalize mm.
  induction (getCallExpressions sf) as [|c calls IHc]; intros mm0; simpl; [reflexivity|].
  now rewrite IHc, tallyCall_heuristic.
Qed.

(** What one step of the resolver pass does to the entry of the caller. *)
Lemma tallyCall_caller callerFile mm call e :
  lookup callerFile mm = Some e ->
  lookup callerFile (tallyCall callerFile mm call)
  = Some match classify callerFile call with
         | SelfInternal =>
             set_callsOut_internal (S (callsOut_internal e))
               (set_callsOut_total (S (callsOut_total e)) e)
         | CrossModule _ | TrueExternal | Unresolved =>
             set_callsOut_external (S (callsOut_external e))
               (set_callsOut_total (S (callsOut_total e)) e)
         end.
Proof.
  intros He. unfold tallyCall, classify.
  destruct (resolveCallTargetFile call) as [target| |].
  - destruct (String.eqb target callerFile) eqn:E.
    + rewrite !lookup_mutate_same, He. simpl. f_equal.
      destruct e; simpl. now rewrite Nat.add_0_r.
    + apply String.eqb_neq in E.
      destruct (lookup target _);
        rewrite ?(lookup_mutate_other target callerFile) by congruence;
        now rewrite !lookup_mutate_same, He.
  - now rewrite !lookup_mutate_same, He.
  - now rewrite !lookup_mutate_same, He.
Qed.

(** The modules that are neither the caller nor the target of the call. *)
Lemma tallyCall_frame callerFile mm call k :
  k <> callerFile ->
  (forall target, classify callerFile call = CrossModule target -> k <> target) ->
  lookup k (tallyCall callerFile mm call) = lookup k mm.
Proof.
  intros Hk Ht. unfold tallyCall, classify in *.
  destruct (resolveCallTargetFile call) as [target| |].
  - destruct (String.eqb target callerFile).
    + now rewrite !lookup_mutate_other by exact Hk.
    + specialize (Ht target eq_refl).
      destruct (lookup target _); now rewrite !lookup_mutate_other by assumption.
  - now rewrite !lookup_mutate_other by exact Hk.
  - now rewrite !lookup_mutate_other by exact Hk.
Qed.

(** The target of a cross-module call. *)
Lemma tallyCall_target callerFile mm call target :
  classify callerFile call = CrossModule target ->
  lookup target (tallyCall callerFile mm call)
  = option_map (fun a => set_incomingInternal (incomingInternal a + 1) a)
      (lookup target mm).
Proof.
  unfold tallyCall, classify.
  destruct (resolveCallTargetFile call) as [target'| |]; try discriminate.
  destruct (String.eqb target' callerFile) eqn:E; [discriminate|].
  intros [= ->]. apply String.eqb_neq in E.
  assert (Ht : lookup target
                 (mutate callerFile
                    (fun e0 => set_callsOut_external (S (callsOut_external e0)) e0)
                    (mutate callerFile
                       (fun e0 => set_callsOut_total (S (callsOut_total e0)) e0) mm))
               = lookup target mm)
    by now rewrite !lookup_mutate_other by exact E.
  rewrite Ht. destruct (lookup target mm) as [a|] eqn:Ea.
  - rewrite lookup_mutate_same, Ht. reflexivity.
  - exact Ht.
Qed.

(** No step of the resolver pass changes an incoming counter, but for the
    [incomingInternal] of a tracked target. *)
Lemma tallyCall_incoming_untracked callerFile mm call k :
  (forall target, classify callerFile call = CrossModule target ->
                  lookup target mm = None) ->
  option_map incomingInternal (lookup k (tallyCall callerFile mm call))
  = option_map incomingInternal (lookup k mm)
  /\ option_map incomingExternal (lookup k (tallyCall callerFile mm call))
     = option_map incomingExternal (lookup k mm).
Proof.
  intros Hnone. unfold tallyCall, classify in *.
  destruct (resolveCallTargetFile call) as [target| |].
  - destruct (String.eqb target callerFile) eqn:E.
    + split.
      * rewrite lookup_mutate_field by (intros v; simpl; apply Nat.add_0_r).
        now rewrite lookup_mutate_field by reflexivity.
      * now rewrite !lookup_mutate_field by reflexivity.
    + apply String.eqb_neq in E. specialize (Hnone target eq_refl).
      rewrite !(lookup_mutate_other callerFile target), Hnone by exact E.
      split; now rewrite !lookup_mutate_field by reflexivity.
  - split; now rewrite !lookup_mutate_field by reflexivity.
  - split; now rewrite !lookup_mutate_field by reflexivity.
Qed.

Lemma firstDeclarationTarget_undefined decls :
  firstDeclarationTarget decls = TargetUndefined
  <-> (forall d, In d decls -> getSourceFile d = None).
Proof.
  induction decls as [|d decls IH]; simpl.
  - split; [intros _ d []|reflexivity].
  - destruct (getSourceFile d) as [declPath|] eqn:E.
    + split.
      * destruct (isNodeModuleFile declPath); discriminate.
      * intros H. specialize (H d (or_introl eq_refl)). congruence.
    + rewrite IH. split.
      * intros H d' [<-|Hd']; auto.
      * intros H d' Hd'. apply H. now right.
Qed.

Lemma AforS_not_zero rawA : (AforS rawA =? 0)%float = false.
Proof.
  unfold AforS. destruct (rawA =? 0)%float eqn:E; [reflexivity|exact E].
Qed.

(** * The claims *)


(** C2, as the code has it. For every module, S = V / pow(A', alpha),
    where A' is A when A is not zero and [Number.EPSILON] = 2^-52 when A is
    zero; the base A' of the power is never zero, and S is a number (not
    NaN) whenever V and the power are finite and the power is not zero.
    ([Number.EPSILON] is the gap between 1 and the next number, not the
    smallest positive number, and nothing bounds the quotient: S can be
    infinite.) *)
Theorem C2_sphericity (raw : option Config.t) (added : list SourceFile) :
  Forall (fun m =>
            ModuleMetrics.s m
            = Some (ModuleMetrics.V m
                    / Math_pow (AforS (ModuleMetrics.A m))
                        (Analysis.alpha (analyze raw added)))%float
            /\ ((ModuleMetrics.A m =? 0)%float = false ->
                AforS (ModuleMetrics.A m) = ModuleMetrics.A m)
            /\ ((ModuleMetrics.A m =? 0)%float = true ->
                AforS (ModuleMetrics.A m) = Number_EPSILON)
            /\ (AforS (ModuleMetrics.A m) =? 0)%float = false
            /\ (is_finite (ModuleMetrics.V m) = true ->
                is_finite (Math_pow (AforS (ModuleMetrics.A m))
                             (Analysis.alpha (analyze raw added))) = true ->
                (Math_pow (AforS (ModuleMetrics.A m))
                   (Analysis.alpha (analyze raw added)) =? 0)%float = false ->
                is_nan (sphericity m) = false))
         (Analysis.results (analyze raw added))
  /\ Prim2SF Number_EPSILON = S754_finite false 4503599627370496 (-104)
  /\ (0 <? Number_EPSILON)%float = true.
Proof.
  split; [|split; reflexivity].
  apply Forall_results. intros file data _.
  unfold composeMetrics, sphericity.
  cbn [ModuleMetrics.s ModuleMetrics.V ModuleMetrics.A nullish Analysis.alpha analyze].
  set (rawA := (_ + _ + _ + _ + _)%float).
  split; [reflexivity|]. unfold AforS at 1 2.
  split; [intros ->; reflexivity|]. split; [intros ->; reflexivity|].
  split; [apply AforS_not_zero|].
  apply div_finite_not_nan.
Qed.

(** C3. The cohesion of every module of the result set lies in [0, 1]; it
    is 1 when the module makes no call, and the quotient of the internal
    calls by all calls otherwise. (The counter of all calls is in the range
    in which a JavaScript number counts exactly.) *)
Theorem C3_cohesion (raw : option Config.t) (added : list SourceFile)
  (m : ModuleMetrics.t) :
  In m (Analysis.results (analyze raw added)) ->
  exact_count (callsOut_total (ModuleMetrics.extras m)) ->
  exists c,
    ModuleMetrics.cohesion m = Some c
    /\ (0 <=? c)%float = true /\ (c <=? 1)%float = true
    /\ (callsOut_total (ModuleMetrics.extras m) = 0 -> c = 1%float)
    /\ (callsOut_total (ModuleMetrics.extras m) <> 0 ->
        c = (of_count (callsOut_internal (ModuleMetrics.extras m))
             / of_count (callsOut_total (ModuleMetrics.extras m)))%float).
Proof.
  intros Hm Hexact. apply In_results, In_composed in Hm.
  destruct Hm as (file & data & Hin & ->).
  pose proof (tallied_partition (loadConfig raw) added) as Hp.
  rewrite Forall_forall in Hp. specialize (Hp _ Hin). simpl in Hp.
  unfold composeMetrics in *.
  cbn [ModuleMetrics.cohesion ModuleMetrics.extras] in *.
  eexists. split; [reflexivity|].
  destruct (Nat.eqb_spec (callsOut_total data) 0) as [E|E].
  - repeat split; try reflexivity. intros H. contradiction.
  - unfold exact_count in Hexact.
    destruct (div_counts_unit (callsOut_internal data) (callsOut_total data))
      as [H0 H1]; try lia.
    { rewrite <- P53_eq. exact Hexact. }
    repeat split; try assumption. intros H. contradiction.
Qed.


(** C5. Processing a call adds one to [callsOut_total] of its caller, and
    one to [callsOut_external] of its caller exactly when the call is
    cross-module, true-external or unresolved. A cross-module call whose
    target is tracked adds one to [incomingInternal] of the target; one
    whose target an exclude pattern removed finds the target untracked and
    changes no incoming counter of any module. ([mm] is a state of the
    resolver pass: its keys are the tracked modules, the caller among
    them.) *)
Theorem C5_call_tally (cfg : Config.t) (added : list SourceFile) (mm : ModulesMap)
  (callerFile : string) (call : CallExpression) (e : Accumulator) :
  map fst mm = map fst (tallied cfg added) ->
  lookup callerFile mm = Some e ->
  (exists e',
      lookup callerFile (tallyCall callerFile mm call) = Some e'
      /\ callsOut_total e' = S (callsOut_total e)
      /\ callsOut_external e'
         = callsOut_external e
           + match classify callerFile call with
             | SelfInternal => 0
             | CrossModule _ | TrueExternal | Unresolved => 1
             end)
  /\ (forall target,
         classify callerFile call = CrossModule target ->
         (forall a,
             lookup target mm = Some a ->
             exists a',
               lookup target (tallyCall callerFile mm call) = Some a'
               /\ incomingInternal a' = S (incomingInternal a))
         /\ (excluded cfg target -> lookup target mm = None)
         /\ (lookup target mm = None ->
             forall k,
               option_map incomingInternal (lookup k (tallyCall callerFile mm call))
               = option_map incomingInternal (lookup k mm)
               /\ option_map incomingExternal (lookup k (tallyCall callerFile mm call))
                  = option_map incomingExternal (lookup k mm))).
Proof.
  intros Hkeys He. split.
  - eexists. split; [apply tallyCall_caller; exact He|].
    destruct (classify callerFile call); simpl; split; auto; lia.
  - intros target Hclass. split; [|split].
    + intros a Ha. rewrite (tallyCall_target _ _ _ _ Hclass), Ha. simpl.
      eexists. split; [reflexivity|]. simpl. lia.
    + intros Hex. apply lookup_None. rewrite Hkeys.
      now apply excluded_not_tracked.
    + intros Hnone k. apply tallyCall_incoming_untracked.
      intros target' Hclass'. congruence.
Qed.

(** C6. A call that resolves to the module of its caller adds one to
    [callsOut_internal] and to [callsOut_total] of the caller and changes
    nothing else: no other field, no other module, and no
    [incomingInternal] of any module, the caller included. *)
Theorem C6_self_call (mm : ModulesMap) (callerFile : string)
  (call : CallExpression) (e : Accumulator) :
  lookup callerFile mm = Some e ->
  resolveCallTargetFile call = TargetFile callerFile ->
  lookup callerFile (tallyCall callerFile mm call)
  = Some (set_callsOut_internal (S (callsOut_internal e))
            (set_callsOut_total (S (callsOut_total e)) e))
  /\ (forall k, k <> callerFile ->
        lookup k (tallyCall callerFile mm call) = lookup k mm)
  /\ (forall k,
        option_map incomingInternal (lookup k (tallyCall callerFile mm call))
        = option_map incomingInternal (lookup k mm))
  /\ map fst (tallyCall callerFile mm call) = map fst mm.
Proof.
  intros He Hself.
  assert (Hclass : classify callerFile call = SelfInternal)
    by (unfold classify; now rewrite Hself, String.eqb_refl).
  split; [|split; [|split]].
  - rewrite (tallyCall_caller _ _ _ _ He), Hclass. reflexivity.
  - intros k Hk. apply tallyCall_frame; [exact Hk|].
    intros target Ht. congruence.
  - intros k. apply tallyCall_incoming_untracked.
    intros target Ht. congruence.
  - apply keys_tallyCall.
Qed.

(** C7, as the code has it. For a call whose callee is a member access
    [a.b(...)] on a left-most expression [a], and whose callee has no
    symbol of its own, the resolver falls back to the symbol of [a]. The
    call is unresolved exactly when [a] has no symbol either, or when the
    symbol found has no declaration with a source file. *)
Theorem C7_member_access_fallback (object : Expression) :
  leftMost (PropertyAccessExpression None object) = object ->
  let call := {| getExpression := PropertyAccessExpression None object |} in
  resolveCallTargetFile call
  = symbolTarget (getSymbol (leftMost (getExpression call)))
  /\ (resolveCallTargetFile call = TargetUndefined
      <-> getSymbol (leftMost (getExpression call)) = None
          \/ exists sym,
               getSymbol (leftMost (getExpression call)) = Some sym
               /\ forall d, In d (getDeclarations sym) -> getSourceFile d = None).
Proof.
  intros Hleft call. unfold call, resolveCallTargetFile, symbolTarget.
  cbn [getExpression getSymbol]. rewrite Hleft. split; [reflexivity|].
  destruct (getSymbol object) as [sym|].
  - rewrite firstDeclarationTarget_undefined. split.
    + intros H. right. now exists sym.
    + intros [H|(sym' & [= <-] & H)]; [discriminate|exact H].
  - split; auto.
Qed.

(** C8. For every module with a distinct relative path, the final
    [outgoingCallHeuristic] is the number of method and function bodies
    that contain one of the four patterns, plus the number of occurrences
    of the four patterns in the whole text of the module: a construct in a
    scanned body is counted once for its body and once more for each of its
    occurrences in the text. *)
Theorem C8_outgoing_heuristic (raw : option Config.t) (added : list SourceFile)
  (sf : SourceFile) (m : ModuleMetrics.t) :
  NoDup (discovered raw added) ->
  In sf (removeExcluded (loadConfig raw) added) ->
  In m (Analysis.results (analyze raw added)) ->
  ModuleMetrics.id m = path_relative (getFilePath sf) ->
  outgoingCallHeuristic (ModuleMetrics.extras m) = spec_outgoingCallHeuristic sf.
Proof.
  intros Hnd Hsf Hm Hid. unfold discovered in Hnd.
  apply In_results, In_composed in Hm. destruct Hm as (file & data & Hin & ->).
  cbn [composeMetrics ModuleMetrics.id ModuleMetrics.extras] in *. subst file.
  apply In_lookup in Hin; [|now rewrite keys_tallied_NoDup].
  pose proof (secondPass_heuristic
                (removeExcluded (loadConfig raw) added)
                (firstPass (removeExcluded (loadConfig raw) added)
                   (initModules (removeExcluded (loadConfig raw) added)))
                (path_relative (getFilePath sf))) as H2.
  fold (tallied (loadConfig raw) added) in H2. rewrite Hin in H2.
  rewrite firstPass_lookup in H2; auto using initModules_lookup.
  cbn [option_map] in H2.
  assert (H3 : outgoingCallHeuristic data
               = outgoingCallHeuristic (collectSourceFile sf emptyAccumulator))
    by congruence.
  rewrite H3, collectSourceFile_heuristic. unfold spec_outgoingCallHeuristic.
  rewrite match_g_occurrences. f_equal. f_equal.
  apply filter_ext. intros body. apply test_includes.
Qed.

(** C9. After the resolver pass the outgoing calls of every module are
    partitioned: internal + external = total. Each processed call adds one
    to the total of its caller and one to exactly one of its internal and
    external counters, and leaves the three counters of the other modules
    as they are. *)
Theorem C9_calls_partition (raw : option Config.t) (added : list SourceFile) :
  Forall (fun m =>
            callsOut_internal (ModuleMetrics.extras m)
            + callsOut_external (ModuleMetrics.extras m)
            = callsOut_total (ModuleMetrics.extras m))
         (Analysis.results (analyze raw added))
  /\ (forall mm callerFile call e,
         lookup callerFile mm = Some e ->
         (exists e',
             lookup callerFile (tallyCall callerFile mm call) = Some e'
             /\ callsOut_total e' = S (callsOut_total e)
             /\ ((callsOut_internal e' = S (callsOut_internal e)
                  /\ callsOut_external e' = callsOut_external e)
                 \/ (callsOut_internal e' = callsOut_internal e
                     /\ callsOut_external e' = S (callsOut_external e))))
         /\ (forall k, k <> callerFile ->
               option_map callsOut_total (lookup k (tallyCall callerFile mm call))
               = option_map callsOut_total (lookup k mm)
               /\ option_map callsOut_internal (lookup k (tallyCall callerFile mm call))
                  = option_map callsOut_internal (lookup k mm)
               /\ option_map callsOut_external (lookup k (tallyCall callerFile mm call))
                  = option_map callsOut_external (lookup k mm))).
Proof.
  split.
  - apply Forall_results. intros file data Hin.
    pose proof (tallied_partition (loadConfig raw) added) as H.
    rewrite Forall_forall in H. exact (H _ Hin).
  - intros mm callerFile call e He. split.
    + eexists. split; [apply tallyCall_caller; exact He|].
      destruct (classify callerFile call); simpl; auto.
    + intros k Hk. unfold tallyCall.
      destruct (resolveCallTargetFile call) as [target| |];
        [destruct (String.eqb target callerFile);
         [|destruct (lookup target _)]| |];
        repeat split;
        repeat first [ rewrite lookup_mutate_field by reflexivity
                     | rewrite lookup_mutate_other by exact Hk ];
        reflexivity.
Qed.

(** C10. The [incomingExternal] counter of every module of the result set
    is 0. *)
Theorem C10_incomingExternal_zero (raw : option Config.t) (added : list SourceFile) :
  Forall (fun m => incomingExternal (ModuleMetrics.extras m) = 0)
         (Analysis.results (analyze raw added)).
Proof.
  apply Forall_results. intros file data Hin.
  pose proof (tallied_incomingExternal (loadConfig raw) added) as H.
  rewrite Forall_forall in H. exact (H _ Hin).
Qed.

(** * Further properties of the code *)

(** ** Strings *)

Lemma includes_unfold s sub :
  includes s sub
  = (String.prefix sub s
     || match s with
        | EmptyString => false
        | String _ s' => includes s' sub
        end).
Proof. destruct s; reflexivity. Qed.

Lemma prefix_append p rest : String.prefix p (p ++ rest)%string = true.
Proof.
  induction p as [|a p IH]; simpl; [apply prefix_empty|].
  destruct (ascii_dec a a); [exact IH|congruence].
Qed.

Lemma append_assoc (a b c : string) : ((a ++ b) ++ c = a ++ b ++ c)%string.
Proof. induction a as [|x a IH]; simpl; [reflexivity|now rewrite IH]. Qed.

(** [s.includes(sub)] holds exactly when [sub] is a part of [s]. *)
Lemma includes_spec s sub :
  includes s sub = true <-> exists a b, s = (a ++ sub ++ b)%string.
Proof.
  split.
  - induction s as [|c s IH]; rewrite includes_unfold, orb_true_iff.
    + intros [H|H]; [|discriminate].
      destruct (prefix_split _ _ H) as [rest ->]. now exists EmptyString, rest.
    + intros [H|H].
      * destruct (prefix_split _ _ H) as [rest ->]. now exists EmptyString, rest.
      * destruct (IH H) as (a & b & ->). now exists (String c a), b.
  - intros (a & b & ->). induction a as [|c a IH]; rewrite includes_unfold.
    + simpl. now rewrite prefix_append.
    + simpl. rewrite IH. apply orb_true_r.
Qed.

(** ** [resolveCallTargetFile] and [isNodeModuleFile] *)

Lemma firstDeclarationTarget_first pre d post declPath :
  (forall d', In d' pre -> getSourceFile d' = None) ->
  getSourceFile d = Some declPath ->
  firstDeclarationTarget (pre ++ d :: post)
  = if isNodeModuleFile declPath then TargetExternal
    else TargetFile (path_relative declPath).
Proof.
  intros Hpre Hd. induction pre as [|d' pre IH]; simpl.
  - now rewrite Hd.
  - rewrite (Hpre d') by now left. apply IH. intros d'' H. apply Hpre. now right.
Qed.

(** X1. A callee that has a symbol of its own is resolved by that symbol:
    the fallback to the object of a member access is not consulted. A
    callee without a symbol that is not a member access is unresolved. *)
Theorem X1_resolve_by_own_symbol (call : CallExpression) :
  (forall sym,
      getSymbol (getExpression call) = Some sym ->
      resolveCallTargetFile call = symbolTarget (Some sym))
  /\ (getSymbol (getExpression call) = None ->
      isPropertyAccessExpression (getExpression call) = false ->
      resolveCallTargetFile call = TargetUndefined).
Proof.
  unfold resolveCallTargetFile, symbolTarget. split.
  - intros sym ->. reflexivity.
  - destruct (getExpression call) as [sym object|sym|sym]; simpl;
      intros -> Hpa; [discriminate|reflexivity|reflexivity].
Qed.

(** X2. Of the declarations of the symbol that a call resolves by, the
    first that has a source file decides, whatever follows it: the call is
    external when that file is a file of a package, and goes to the
    relative path of that file otherwise. *)
Theorem X2_first_declaration_decides (call : CallExpression) (sym : Symbol)
  (pre post : list Declaration) (d : Declaration) (declPath : string) :
  getSymbol (getExpression call) = Some sym ->
  getDeclarations sym = pre ++ d :: post ->
  (forall d', In d' pre -> getSourceFile d' = None) ->
  getSourceFile d = Some declPath ->
  resolveCallTargetFile call
  = if isNodeModuleFile declPath then TargetExternal
    else TargetFile (path_relative declPath).
Proof.
  intros Hsym Hdecls Hpre Hd. unfold resolveCallTargetFile.
  rewrite Hsym, Hdecls. now apply firstDeclarationTarget_first.
Qed.

(** X3. [isNodeModuleFile] holds of a path exactly when the path has
    [node_modules] or [/@types/] somewhere in it; the third test of the
    code, for [node_modules] between backslashes, adds nothing. *)
Theorem X3_isNodeModuleFile (fp : string) :
  isNodeModuleFile fp = true
  <-> exists a b,
        fp = (a ++ "node_modules" ++ b)%string \/ fp = (a ++ "/@types/" ++ b)%string.
Proof.
  unfold isNodeModuleFile. rewrite !orb_true_iff, !includes_spec. split.
  - intros [[(a & b & ->)|(a & b & ->)]|(a & b & ->)].
    + exists a, b. now left.
    + exists a, b. now right.
    + exists (a ++ "\")%string, ("\" ++ b)%string. left.
      now rewrite append_assoc.
  - intros (a & b & [->| ->]); [left; left|left; right]; now exists a, b.
Qed.


(** ** The modules of the result *)

Lemma NoDup_keys_assign k v mm :
  NoDup (map fst mm) -> NoDup (map fst (assign k v mm)).
Proof.
  induction mm as [|[k' v'] mm IH]; simpl; intros Hnd.
  - constructor; [intros []|constructor].
  - inversion Hnd as [|? ? Hnin Hnd']; subst.
    destruct (String.eqb k' k) eqn:E; simpl.
    + now constructor.
    + constructor; [|auto]. rewrite In_keys_assign. intros [->|H]; [|tauto].
      now rewrite String.eqb_refl in E.
Qed.

(** The keys of [modulesMap] are distinct, whatever the corpus. *)
Lemma NoDup_keys_initModules files : NoDup (map fst (initModules files)).
Proof.
  unfold initModules.
  assert (H : NoDup (map fst (@nil (string * Accumulator)))) by constructor.
  revert H. generalize (@nil (string * Accumulator)).
  induction files as [|sf files IH]; intros acc Hacc; simpl; [exact Hacc|].
  apply IH. now apply NoDup_keys_assign.
Qed.

Lemma NoDup_keys_tallied cfg added : NoDup (map fst (tallied cfg added)).
Proof. rewrite keys_tallied. apply NoDup_keys_initModules. Qed.

Lemma In_removeExcluded cfg added sf :
  In sf (removeExcluded cfg added)
  <-> In sf added /\ ~ excluded cfg (path_relative (getFilePath sf)).
Proof.
  unfold removeExcluded, excluded.
  destruct (Config.exclude cfg) as [[|p ps]|].
  - split; [intros H; split; [exact H|]|tauto].
    intros (patterns & [= <-] & Hm). discriminate.
  - rewrite filter_In. split; intros [Hin H]; (split; [exact Hin|]).
    + intros (patterns & [= <-] & Hm). rewrite Hm in H. discriminate.
    + destruct (existsb _ (p :: ps)) eqn:E; [|reflexivity].
      exfalso. apply H. now exists (p :: ps).
  - split; [intros H; split; [exact H|]|tauto].
    intros (patterns & [=] & _).
Qed.

(** The record of the result that belongs to a file of the project. *)
Lemma result_of_file raw added m :
  In m (Analysis.results (analyze raw added)) ->
  lookup (ModuleMetrics.id m) (tallied (loadConfig raw) added)
  = Some (ModuleMetrics.extras m).
Proof.
  intros Hm. apply In_results, In_composed in Hm. destruct Hm as (file & data & Hin & ->).
  cbn [composeMetrics ModuleMetrics.id ModuleMetrics.extras].
  apply In_lookup; [apply NoDup_keys_tallied|exact Hin].
Qed.



(** ** The counters of the first pass *)

Lemma collectMethod_counts m mth :
  exportedCount (collectMethod m mth) = exportedCount m
  /\ externalImports (collectMethod m mth) = externalImports m
  /\ publicMethodCount (collectMethod m mth)
     = publicMethodCount m + (if declaredPublic mth then 1 else 0)
  /\ privateMethodCount (collectMethod m mth)
     = privateMethodCount m + (if declaredPublic mth then 0 else 1)
  /\ internalTypeCount (collectMethod m mth) = internalTypeCount m.
Proof.
  unfold collectMethod, declaredPublic.
  destruct (hasPublicKeyword mth || _); split_ifs; simpl; repeat split; lia.
Qed.

Lemma collectMethods_counts ms m :
  exportedCount (fold_left collectMethod ms m) = exportedCount m
  /\ externalImports (fold_left collectMethod ms m) = externalImports m
  /\ publicMethodCount (fold_left collectMethod ms m)
     = publicMethodCount m + length (filter declaredPublic ms)
  /\ privateMethodCount (fold_left collectMethod ms m)
     = privateMethodCount m + length (filter (fun mth => negb (declaredPublic mth)) ms)
  /\ internalTypeCount (fold_left collectMethod ms m) = internalTypeCount m.
Proof.
  revert m. induction ms as [|mth ms IH]; intros m; simpl; [repeat split; lia|].
  destruct (IH (collectMethod m mth)) as (-> & -> & -> & -> & ->).
  destruct (collectMethod_counts m mth) as (-> & -> & -> & -> & ->).
  destruct (declaredPublic mth); simpl; repeat split; lia.
Qed.

Lemma collectClasses_counts cs m :
  exportedCount (fold_left collectClass cs m) = exportedCount m
  /\ externalImports (fold_left collectClass cs m) = externalImports m
  /\ publicMethodCount (fold_left collectClass cs m)
     = publicMethodCount m + length (filter declaredPublic (flat_map getMethods cs))
  /\ privateMethodCount (fold_left collectClass cs m)
     = privateMethodCount m
       + length (filter (fun mth => negb (declaredPublic mth)) (flat_map getMethods cs))
  /\ internalTypeCount (fold_left collectClass cs m)
     = internalTypeCount m
       + list_sum (map (fun cls => getProperties_length cls + getConstructors_length cls) cs).
Proof.
  revert m. induction cs as [|cls cs IH]; intros m; simpl; [repeat split; lia|].
  destruct (IH (collectClass m cls)) as (-> & -> & -> & -> & ->).
  unfold collectClass. simpl.
  destruct (collectMethods_counts (getMethods cls) m) as (-> & -> & -> & -> & ->).
  rewrite !filter_app, !length_app. repeat split; lia.
Qed.

Lemma collectFunction_counts m fn :
  exportedCount (collectFunction m fn) = exportedCount m
  /\ externalImports (collectFunction m fn) = externalImports m
  /\ publicMethodCount (collectFunction m fn)
     = publicMethodCount m + (if isExported fn then 1 else 0)
  /\ privateMethodCount (collectFunction m fn)
     = privateMethodCount m + (if isExported fn then 0 else 1)
  /\ internalTypeCount (collectFunction m fn) = internalTypeCount m.
Proof.
  unfold collectFunction. destruct (isExported fn); split_ifs; simpl; repeat split; lia.
Qed.

Lemma collectFunctions_counts fs m :
  exportedCount (fold_left collectFunction fs m) = exportedCount m
  /\ externalImports (fold_left collectFunction fs m) = externalImports m
  /\ publicMethodCount (fold_left collectFunction fs m)
     = publicMethodCount m + length (filter isExported fs)
  /\ privateMethodCount (fold_left collectFunction fs m)
     = privateMethodCount m + length (filter (fun fn => negb (isExported fn)) fs)
  /\ internalTypeCount (fold_left collectFunction fs m) = internalTypeCount m.
Proof.
  revert m. induction fs as [|fn fs IH]; intros m; simpl; [repeat split; lia|].
  destruct (IH (collectFunction m fn)) as (-> & -> & -> & -> & ->).
  destruct (collectFunction_counts m fn) as (-> & -> & -> & -> & ->).
  destruct (isExported fn); simpl; repeat split; lia.
Qed.

(** What the first pass leaves in the accumulator of a file. *)
Lemma collectSourceFile_counts sf :
  let m := collectSourceFile sf emptyAccumulator in
  exportedCount m = length (getExportedDeclarations_keys sf)
  /\ externalImports m = length (filter externalSpecifier (getImportDeclarations sf))
  /\ publicMethodCount m
     = length (filter declaredPublic (methods sf)) + length (filter isExported (getFunctions sf))
  /\ privateMethodCount m
     = length (filter (fun mth => negb (declaredPublic mth)) (methods sf))
       + length (filter (fun fn => negb (isExported fn)) (getFunctions sf))
  /\ internalTypeCount m
     = list_sum (map (fun cls => getProperties_length cls + getConstructors_length cls)
                   (getClasses sf)).
Proof.
  unfold collectSourceFile, methods. simpl.
  match goal with
  | |- context [fold_left collectFunction ?fs ?m0] =>
      destruct (collectFunctions_counts fs m0) as (-> & -> & -> & -> & ->)
  end.
  match goal with
  | |- context [fold_left collectClass ?cs ?m0] =>
      destruct (collectClasses_counts cs m0) as (-> & -> & -> & -> & ->)
  end.
  simpl. repeat split; reflexivity.
Qed.

(** A step of the resolver pass writes the call counters only. *)
Lemma tallyCall_keeps {B : Type} (g : Accumulator -> B) callerFile call mm k :
  (forall n v, g (set_callsOut_total n v) = g v) ->
  (forall n v, g (set_callsOut_internal n v) = g v) ->
  (forall n v, g (set_callsOut_external n v) = g v) ->
  (forall n v, g (set_incomingInternal n v) = g v) ->
  option_map g (lookup k (tallyCall callerFile mm call)) = option_map g (lookup k mm).
Proof.
  intros H1 H2 H3 H4. unfold tallyCall.
  destruct (resolveCallTargetFile call) as [target| |];
    [destruct (String.eqb target callerFile);
     [|destruct (lookup target _)]| |];
    repeat (rewrite lookup_mutate_field by (intros; now rewrite ?H1, ?H2, ?H3, ?H4));
    reflexivity.
Qed.

Lemma secondPass_keeps {B : Type} (g : Accumulator -> B) files mm k :
  (forall n v, g (set_callsOut_total n v) = g v) ->
  (forall n v, g (set_callsOut_internal n v) = g v) ->
  (forall n v, g (set_callsOut_external n v) = g v) ->
  (forall n v, g (set_incomingInternal n v) = g v) ->
  option_map g (lookup k (secondPass files mm)) = option_map g (lookup k mm).
Proof.
  intros H1 H2 H3 H4. unfold secondPass. revert mm.
  induction files as [|sf files IH]; intros mm; simpl; [reflexivity|].
  rewrite IH. generalize mm.
  induction (getCallExpressions sf) as [|c calls IHc]; intros mm0; simpl; [reflexivity|].
  now rewrite IHc, tallyCall_keeps.
Qed.

(** The counters of the first pass in the record of a file. *)
Lemma result_first_pass {B : Type} (g : Accumulator -> B) raw added sf m :
  (forall n v, g (set_callsOut_total n v) = g v) ->
  (forall n v, g (set_callsOut_internal n v) = g v) ->
  (forall n v, g (set_callsOut_external n v) = g v) ->
  (forall n v, g (set_incomingInternal n v) = g v) ->
  NoDup (discovered raw added) ->
  In sf (removeExcluded (loadConfig raw) added) ->
  In m (Analysis.results (analyze raw added)) ->
  ModuleMetrics.id m = path_relative (getFilePath sf) ->
  g (ModuleMetrics.extras m) = g (collectSourceFile sf emptyAccumulator).
Proof.
  intros H1 H2 H3 H4 Hnd Hsf Hm Hid. unfold discovered in Hnd.
  pose proof (result_of_file raw added m Hm) as Hl. rewrite Hid in Hl.
  pose proof (secondPass_keeps g
                (removeExcluded (loadConfig raw) added)
                (firstPass (removeExcluded (loadConfig raw) added)
                   (initModules (removeExcluded (loadConfig raw) added)))
                (path_relative (getFilePath sf)) H1 H2 H3 H4) as H.
  fold (tallied (loadConfig raw) added) in H. rewrite Hl in H.
  rewrite firstPass_lookup in H; auto using initModules_lookup.
  cbn [option_map] in H. congruence.
Qed.

(** X5. The surface counters of a module are read off its file: the
    exported names, the imports whose specifier starts neither with a dot
    nor with a slash, and as public the methods that carry [public] or
    neither [private] nor [protected], together with the exported
    functions. *)
Theorem X5_surface_counters (raw : option Config.t) (added : list SourceFile)
  (sf : SourceFile) (m : ModuleMetrics.t) :
  NoDup (discovered raw added) ->
  In sf (removeExcluded (loadConfig raw) added) ->
  In m (Analysis.results (analyze raw added)) ->
  ModuleMetrics.id m = path_relative (getFilePath sf) ->
  exportedCount (ModuleMetrics.extras m) = length (getExportedDeclarations_keys sf)
  /\ externalImports (ModuleMetrics.extras m)
     = length (filter externalSpecifier (getImportDeclarations sf))
  /\ publicMethodCount (ModuleMetrics.extras m)
     = length (filter declaredPublic (methods sf))
       + length (filter isExported (getFunctions sf)).
Proof.
  intros Hnd Hsf Hm Hid.
  destruct (collectSourceFile_counts sf) as (E1 & E2 & E3 & _).
  rewrite <- E1, <- E2, <- E3.
  repeat split;
    [ apply (result_first_pass exportedCount raw added sf m)
    | apply (result_first_pass externalImports raw added sf m)
    | apply (result_first_pass publicMethodCount raw added sf m) ];
    auto.
Qed.

(** X6. Every method and every top-level function of a module is counted
    once, as public or as private: a [protected] method counts as private,
    and so does a function that is not exported. The internal type count is
    the number of properties and constructors of the classes. *)
Theorem X6_volume_counters (raw : option Config.t) (added : list SourceFile)
  (sf : SourceFile) (m : ModuleMetrics.t) :
  NoDup (discovered raw added) ->
  In sf (removeExcluded (loadConfig raw) added) ->
  In m (Analysis.results (analyze raw added)) ->
  ModuleMetrics.id m = path_relative (getFilePath sf) ->
  privateMethodCount (ModuleMetrics.extras m)
  = length (filter (fun mth => negb (declaredPublic mth)) (methods sf))
    + length (filter (fun fn => negb (isExported fn)) (getFunctions sf))
  /\ publicMethodCount (ModuleMetrics.extras m) + privateMethodCount (ModuleMetrics.extras m)
     = length (methods sf) + length (getFunctions sf)
  /\ internalTypeCount (ModuleMetrics.extras m)
     = list_sum (map (fun cls => getProperties_length cls + getConstructors_length cls)
                   (getClasses sf)).
Proof.
  intros Hnd Hsf Hm Hid.
  destruct (collectSourceFile_counts sf) as (_ & _ & E3 & E4 & E5).
  assert (Hpub : publicMethodCount (ModuleMetrics.extras m)
                 = publicMethodCount (collectSourceFile sf emptyAccumulator))
    by (apply (result_first_pass publicMethodCount raw added sf m); auto).
  assert (Hpriv : privateMethodCount (ModuleMetrics.extras m)
                  = privateMethodCount (collectSourceFile sf emptyAccumulator))
    by (apply (result_first_pass privateMethodCount raw added sf m); auto).
  assert (Hty : internalTypeCount (ModuleMetrics.extras m)
                = internalTypeCount (collectSourceFile sf emptyAccumulator))
    by (apply (result_first_pass internalTypeCount raw added sf m); auto).
  rewrite Hpub, Hpriv, Hty, E3, E4, E5.
  repeat split.
  pose proof (filter_length declaredPublic (methods sf)).
  pose proof (filter_length isExported (getFunctions sf)).
  lia.
Qed.


(** ** The counters of the resolver pass *)

Lemma classify_cross callerFile call target :
  classify callerFile call = CrossModule target -> target <> callerFile.
Proof.
  unfold classify. destruct (resolveCallTargetFile call) as [t| |]; try discriminate.
  destruct (String.eqb t callerFile) eqn:E; [discriminate|].
  intros [= <-]. now apply String.eqb_neq.
Qed.

(** One step of the resolver pass, seen from the entry of any module [k]. *)
Lemma tallyCall_counts callerFile mm call k e :
  lookup k mm = Some e ->
  exists e',
    lookup k (tallyCall callerFile mm call) = Some e'
    /\ callsOut_total e'
       = callsOut_total e + (if String.eqb callerFile k then 1 else 0)
    /\ callsOut_internal e'
       = callsOut_internal e
         + (if String.eqb callerFile k && isSelfInternal (classify callerFile call)
            then 1 else 0)
    /\ callsOut_external e'
       = callsOut_external e
         + (if String.eqb callerFile k && negb (isSelfInternal (classify callerFile call))
            then 1 else 0)
    /\ incomingInternal e'
       = incomingInternal e + (if goesInto k (classify callerFile call) then 1 else 0).
Proof.
  intros He. destruct (String.eqb callerFile k) eqn:Ek.
  - apply String.eqb_eq in Ek. subst k.
    rewrite (tallyCall_caller _ _ _ _ He). eexists. split; [reflexivity|].
    destruct (classify callerFile call) as [|target| |] eqn:Ec; simpl;
      rewrite ?Nat.add_0_r; repeat split; try lia.
    apply classify_cross, String.eqb_neq in Ec. rewrite Ec. lia.
  - apply String.eqb_neq in Ek. simpl.
    destruct (goesInto k (classify callerFile call)) eqn:Eg.
    + destruct (classify callerFile call) as [|target| |] eqn:Ec; try discriminate.
      simpl in Eg. apply String.eqb_eq in Eg. subst target.
      rewrite (tallyCall_target _ _ _ _ Ec), He. simpl.
      eexists. split; [reflexivity|]. simpl. repeat split; lia.
    + rewrite tallyCall_frame.
      * exists e. repeat split; auto; lia.
      * congruence.
      * intros target Ec ->. rewrite Ec in Eg. simpl in Eg.
        now rewrite String.eqb_refl in Eg.
Qed.

(** The calls of one file. *)
Lemma tallyCalls_counts callerFile calls : forall mm k e,
  lookup k mm = Some e ->
  exists e',
    lookup k (fold_left (tallyCall callerFile) calls mm) = Some e'
    /\ callsOut_total e'
       = callsOut_total e + (if String.eqb callerFile k then length calls else 0)
    /\ callsOut_internal e'
       = callsOut_internal e
         + (if String.eqb callerFile k
            then length (filter (fun call => isSelfInternal (classify k call)) calls)
            else 0)
    /\ callsOut_external e'
       = callsOut_external e
         + (if String.eqb callerFile k
            then length (filter (fun call => negb (isSelfInternal (classify k call))) calls)
            else 0)
    /\ incomingInternal e'
       = incomingInternal e
         + length (filter (fun call => goesInto k (classify callerFile call)) calls).
Proof.
  induction calls as [|call calls IH]; intros mm k e He; simpl.
  - exists e. split; [exact He|]. destruct (String.eqb callerFile k); repeat split; lia.
  - destruct (tallyCall_counts callerFile mm call k e He) as (e1 & H1 & T1 & I1 & X1 & N1).
    destruct (IH _ k e1 H1) as (e' & H' & T' & I' & X' & N').
    exists e'. split; [exact H'|]. rewrite T', I', X', N', T1, I1, X1, N1.
    destruct (String.eqb callerFile k) eqn:Ek.
    + apply String.eqb_eq in Ek. subst k. simpl.
      destruct (isSelfInternal (classify callerFile call)),
               (goesInto callerFile (classify callerFile call)); simpl; repeat split; lia.
    + simpl. destruct (goesInto k (classify callerFile call)); simpl; repeat split; lia.
Qed.

(** The whole resolver pass. *)
Lemma secondPass_counts files : forall mm k e,
  lookup k mm = Some e ->
  exists e',
    lookup k (secondPass files mm) = Some e'
    /\ callsOut_total e' = callsOut_total e + length (callsOf k files)
    /\ callsOut_internal e'
       = callsOut_internal e
         + length (filter (fun call => isSelfInternal (classify k call)) (callsOf k files))
    /\ callsOut_external e'
       = callsOut_external e
         + length (filter (fun call => negb (isSelfInternal (classify k call)))
                     (callsOf k files))
    /\ incomingInternal e' = incomingInternal e + callsInto k files.
Proof.
  unfold secondPass, callsOf, callsInto.
  induction files as [|sf files IH]; intros mm k e He; simpl.
  - exists e. repeat split; auto; lia.
  - destruct (tallyCalls_counts (path_relative (getFilePath sf)) (getCallExpressions sf)
                mm k e He) as (e1 & H1 & T1 & I1 & X1 & N1).
    destruct (IH _ k e1 H1) as (e' & H' & T' & I' & X' & N').
    exists e'. split; [exact H'|]. rewrite T', I', X', N', T1, I1, X1, N1.
    destruct (String.eqb (path_relative (getFilePath sf)) k); simpl;
      rewrite ?filter_app, ?length_app; repeat split; lia.
Qed.

(** Before the resolver pass every call counter is zero. *)
Lemma firstPass_zero cfg added k :
  In k (map fst (tallied cfg added)) ->
  exists e,
    lookup k (firstPass (removeExcluded cfg added) (initModules (removeExcluded cfg added)))
    = Some e
    /\ callsOut_total e = 0 /\ callsOut_internal e = 0 /\ callsOut_external e = 0
    /\ incomingInternal e = 0.
Proof.
  intros Hk. rewrite keys_tallied in Hk.
  set (mm := firstPass (removeExcluded cfg added) (initModules (removeExcluded cfg added))).
  assert (Hz : Forall (fun kv => callsOut_total (snd kv) = 0
                                 /\ callsOut_internal (snd kv) = 0
                                 /\ callsOut_external (snd kv) = 0
                                 /\ incomingInternal (snd kv) = 0) mm).
  { apply (Forall_firstPass
             (fun v => callsOut_total v = 0 /\ callsOut_internal v = 0
                       /\ callsOut_external v = 0 /\ incomingInternal v = 0)).
    - intros sf v Hv. destruct (collectSourceFile_calls sf v) as (-> & -> & -> & -> & _).
      exact Hv.
    - apply (Forall_initModules
               (fun v => callsOut_total v = 0 /\ callsOut_internal v = 0
                         /\ callsOut_external v = 0 /\ incomingInternal v = 0)).
      repeat split. }
  destruct (lookup k mm) as [e|] eqn:El.
  - exists e. split; [reflexivity|].
    apply lookup_In in El. rewrite Forall_forall in Hz. exact (Hz _ El).
  - exfalso. apply lookup_None in El. apply El. unfold mm. now rewrite keys_firstPass.
Qed.

(** The call counters in a record of the result. *)
Lemma result_counts raw added m :
  In m (Analysis.results (analyze raw added)) ->
  let files := removeExcluded (loadConfig raw) added in
  let k := ModuleMetrics.id m in
  let e := ModuleMetrics.extras m in
  callsOut_total e = length (callsOf k files)
  /\ callsOut_internal e
     = length (filter (fun call => isSelfInternal (classify k call)) (callsOf k files))
  /\ callsOut_external e
     = length (filter (fun call => negb (isSelfInternal (classify k call))) (callsOf k files))
  /\ incomingInternal e = callsInto k files.
Proof.
  intros Hm. cbv zeta. pose proof (result_of_file raw added m Hm) as Hl.
  assert (Hk : In (ModuleMetrics.id m) (map fst (tallied (loadConfig raw) added))).
  { apply lookup_In in Hl.
    change (ModuleMetrics.id m) with (fst (ModuleMetrics.id m, ModuleMetrics.extras m)).
    now apply in_map. }
  destruct (firstPass_zero _ _ _ Hk) as (e0 & H0 & T0 & I0 & X0 & N0).
  destruct (secondPass_counts (removeExcluded (loadConfig raw) added) _ _ e0 H0)
    as (e' & H' & T' & I' & X' & N').
  unfold tallied in Hl. rewrite H' in Hl. injection Hl as <-.
  rewrite T', I', X', N', T0, I0, X0, N0. repeat split.
Qed.

(** X7. At the end of the resolver pass the three outgoing counters of a
    module count the call expressions of its file: [callsOut_total] all of
    them, [callsOut_internal] those that resolve to the module itself, and
    [callsOut_external] all the others. *)
Theorem X7_outgoing_counters (raw : option Config.t) (added : list SourceFile) :
  Forall (fun m =>
            let calls := callsOf (ModuleMetrics.id m) (removeExcluded (loadConfig raw) added) in
            callsOut_total (ModuleMetrics.extras m) = length calls
            /\ callsOut_internal (ModuleMetrics.extras m)
               = length (filter (fun call =>
                                   isSelfInternal (classify (ModuleMetrics.id m) call)) calls)
            /\ callsOut_external (ModuleMetrics.extras m)
               = length (filter (fun call =>
                                   negb (isSelfInternal (classify (ModuleMetrics.id m) call)))
                           calls))
         (Analysis.results (analyze raw added)).
Proof.
  apply Forall_forall. intros m Hm.
  destruct (result_counts raw added m Hm) as (T & I & X & _). auto.
Qed.

(** X8. [incomingInternal] of a module is the number of call expressions,
    in the files of all the other modules of the project, that resolve to
    the file of the module. *)
Theorem X8_incoming_counter (raw : option Config.t) (added : list SourceFile) :
  Forall (fun m =>
            incomingInternal (ModuleMetrics.extras m)
            = callsInto (ModuleMetrics.id m) (removeExcluded (loadConfig raw) added))
         (Analysis.results (analyze raw added)).
Proof.
  apply Forall_forall. intros m Hm.
  destruct (result_counts raw added m Hm) as (_ & _ & _ & N). exact N.
Qed.


(** ** The balance of incoming and outgoing calls *)

Lemma sum_mutate (g : Accumulator -> nat) k f mm e d :
  lookup k mm = Some e ->
  (forall v, g (f v) = g v + d) ->
  list_sum (map (fun kv => g (snd kv)) (mutate k f mm))
  = list_sum (map (fun kv => g (snd kv)) mm) + d.
Proof.
  intros He Hf. revert He. induction mm as [|[k' v] mm IH]; simpl; [discriminate|].
  destruct (String.eqb k' k); simpl.
  - intros _. rewrite Hf. lia.
  - intros He. rewrite IH by exact He. lia.
Qed.

Lemma list_sum_zero (g : Accumulator -> nat) (mm : ModulesMap) :
  Forall (fun kv => g (snd kv) = 0) mm -> list_sum (map (fun kv => g (snd kv)) mm) = 0.
Proof. induction 1 as [|kv l Hkv _ IH]; simpl; [reflexivity|]. now rewrite Hkv. Qed.

Lemma list_sum_perm l l' : Permutation l l' -> list_sum l = list_sum l'.
Proof. induction 1; simpl; lia. Qed.

(** A step of the resolver pass adds to the incoming calls of all modules
    no more than it adds to their external calls. *)
Lemma tallyCall_balance callerFile mm call e :
  lookup callerFile mm = Some e ->
  list_sum (map (fun kv => incomingInternal (snd kv)) (tallyCall callerFile mm call))
  + list_sum (map (fun kv => callsOut_external (snd kv)) mm)
  <= list_sum (map (fun kv => incomingInternal (snd kv)) mm)
     + list_sum (map (fun kv => callsOut_external (snd kv)) (tallyCall callerFile mm call)).
Proof.
  intros He. unfold tallyCall.
  destruct (resolveCallTargetFile call) as [target| |].
  - destruct (String.eqb target callerFile) eqn:E.
    + rewrite mutate_mutate.
      rewrite (sum_mutate incomingInternal _ _ _ e 0 He) by (intros v; simpl; lia).
      rewrite (sum_mutate callsOut_external _ _ _ e 0 He) by (intros v; simpl; lia).
      lia.
    + rewrite mutate_mutate.
      set (mm2 := mutate callerFile _ mm).
      assert (Hin : list_sum (map (fun kv => incomingInternal (snd kv)) mm2)
                    = list_sum (map (fun kv => incomingInternal (snd kv)) mm) + 0)
        by (apply (sum_mutate incomingInternal _ _ _ e 0 He); intros v; simpl; lia).
      assert (Hex : list_sum (map (fun kv => callsOut_external (snd kv)) mm2)
                    = list_sum (map (fun kv => callsOut_external (snd kv)) mm) + 1)
        by (apply (sum_mutate callsOut_external _ _ _ e 1 He); intros v; simpl; lia).
      destruct (lookup target mm2) as [a|] eqn:Ea; [|lia].
      rewrite (sum_mutate incomingInternal _ _ _ a 1 Ea) by (intros v; simpl; lia).
      rewrite (sum_mutate callsOut_external _ _ _ a 0 Ea) by (intros v; simpl; lia).
      lia.
  - rewrite mutate_mutate.
    rewrite (sum_mutate incomingInternal _ _ _ e 0 He) by (intros v; simpl; lia).
    rewrite (sum_mutate callsOut_external _ _ _ e 1 He) by (intros v; simpl; lia).
    lia.
  - rewrite mutate_mutate.
    rewrite (sum_mutate incomingInternal _ _ _ e 0 He) by (intros v; simpl; lia).
    rewrite (sum_mutate callsOut_external _ _ _ e 1 He) by (intros v; simpl; lia).
    lia.
Qed.

Lemma tracked_lookup k mm : In k (map fst mm) -> exists e, lookup k mm = Some e.
Proof.
  intros Hk. destruct (lookup k mm) as [e|] eqn:E; [now exists e|].
  apply lookup_None in E. contradiction.
Qed.

Lemma secondPass_balance files : forall mm,
  (forall sf, In sf files -> In (path_relative (getFilePath sf)) (map fst mm)) ->
  list_sum (map (fun kv => incomingInternal (snd kv)) (secondPass files mm))
  + list_sum (map (fun kv => callsOut_external (snd kv)) mm)
  <= list_sum (map (fun kv => incomingInternal (snd kv)) mm)
     + list_sum (map (fun kv => callsOut_external (snd kv)) (secondPass files mm)).
Proof.
  unfold secondPass. induction files as [|sf files IH]; intros mm Hk; simpl; [lia|].
  set (callerFile := path_relative (getFilePath sf)).
  assert (Hcalls : forall calls mm0,
             In callerFile (map fst mm0) ->
             list_sum (map (fun kv => incomingInternal (snd kv))
                         (fold_left (tallyCall callerFile) calls mm0))
             + list_sum (map (fun kv => callsOut_external (snd kv)) mm0)
             <= list_sum (map (fun kv => incomingInternal (snd kv)) mm0)
                + list_sum (map (fun kv => callsOut_external (snd kv))
                              (fold_left (tallyCall callerFile) calls mm0))).
  { induction calls as [|call calls IHc]; intros mm0 H0; simpl; [lia|].
    destruct (tracked_lookup _ _ H0) as [e He].
    pose proof (tallyCall_balance callerFile mm0 call e He).
    assert (H1 : In callerFile (map fst (tallyCall callerFile mm0 call)))
      by now rewrite keys_tallyCall.
    specialize (IHc _ H1). lia. }
  pose proof (Hcalls (getCallExpressions sf) mm (Hk sf (or_introl eq_refl))) as H1.
  assert (H2 : forall sf', In sf' files ->
             In (path_relative (getFilePath sf'))
                (map fst (fold_left (tallyCall callerFile) (getCallExpressions sf) mm))).
  { intros sf' Hsf'. rewrite keys_tallyCalls. apply Hk. now right. }
  specialize (IH _ H2). lia.
Qed.

(** X9. Over all modules of the result, the incoming calls do not exceed
    the external outgoing calls: every call counted as incoming for a
    module is counted as external for the module that makes it. *)
Theorem X9_incoming_within_external (raw : option Config.t) (added : list SourceFile) :
  list_sum (map (fun m => incomingInternal (ModuleMetrics.extras m))
              (Analysis.results (analyze raw added)))
  <= list_sum (map (fun m => callsOut_external (ModuleMetrics.extras m))
                 (Analysis.results (analyze raw added))).
Proof.
  assert (Hsum : forall g : Accumulator -> nat,
             list_sum (map (fun m => g (ModuleMetrics.extras m))
                         (Analysis.results (analyze raw added)))
             = list_sum (map (fun kv => g (snd kv)) (tallied (loadConfig raw) added))).
  { intros g. rewrite results_composed.
    rewrite (list_sum_perm _ _ (Permutation_map _ (Array_sort_perm compareFn _))).
    unfold composed. rewrite map_map.
    rewrite (list_sum_perm _ _ (Permutation_map _ (Object_entries_perm _))). f_equal.
    apply map_ext. now intros [file data]. }
  rewrite !Hsum. unfold tallied.
  set (files := removeExcluded (loadConfig raw) added).
  pose proof (secondPass_balance files (firstPass files (initModules files))) as H.
  assert (Hk : forall sf, In sf files ->
             In (path_relative (getFilePath sf))
                (map fst (firstPass files (initModules files)))).
  { intros sf Hsf. rewrite keys_firstPass, In_keys_initModules.
    now apply (in_map (fun sf => path_relative (getFilePath sf))). }
  specialize (H Hk).
  assert (Hz : list_sum (map (fun kv => incomingInternal (snd kv))
                           (firstPass files (initModules files))) = 0).
  { assert (Hall : Forall (fun kv => incomingInternal (snd kv) = 0)
                     (firstPass files (initModules files))).
    { apply (Forall_firstPass (fun v => incomingInternal v = 0)).
      - intros sf v Hv. destruct (collectSourceFile_calls sf v) as (_ & _ & _ & -> & _).
        exact Hv.
      - now apply (Forall_initModules (fun v => incomingInternal v = 0)). }
    now apply list_sum_zero. }
  lia.
Qed.





(** ** The two ends of the cohesion *)

Local Open Scope Z_scope.

Lemma round_stage2_below s m2 e :
  P52 <= m2 < P53 -> -1074 <= e <= 971 ->
  exists m,
    (let '(mrs'', e'') := shr_fexp prec emax m2 e loc_Exact in
     match shr_m mrs'' with
     | Z0 => S754_zero s
     | Zpos m => if e'' <=? emax - prec then S754_finite s m e'' else S754_infinity s
     | Zneg _ => S754_nan
     end) = S754_finite s m e.
Proof.
  intros Hm He. rewrite shr_fexp_53 by lia. simpl shr_m.
  destruct m2 as [|p|p]; unfold P52 in *; try lia.
  change (emax - prec) with 971.
  replace (e <=? 971) with true by (symmetry; apply Z.leb_le; lia).
  now exists p.
Qed.

(** A mantissa of 53 bits that is not the last but one rounds without a
    carry. *)
Lemma binary_round_aux_53_below s m e l :
  P52 <= m <= P53 - 2 -> -1074 <= e <= 971 ->
  exists m', binary_round_aux prec emax s m e l = S754_finite s m' e.
Proof.
  intros Hm He. unfold binary_round_aux. rewrite shr_fexp_53 by lia.
  rewrite shr_m_of_loc, loc_of_shr_of_loc.
  apply round_stage2_below; [|assumption].
  pose proof (round_nearest_even_ge m l). lia.
Qed.

Lemma binary_round_aux_54_below s m e l :
  P53 <= m <= 2 * P53 - 3 -> -1074 <= e <= 970 ->
  exists m', binary_round_aux prec emax s m e l = S754_finite s m' (e + 1).
Proof.
  intros Hm He. unfold binary_round_aux. rewrite shr_fexp_54 by lia.
  set (mrs := shr_1 (shr_record_of_loc m l)).
  assert (Hs : shr_m mrs = m / 2)
    by (unfold mrs; rewrite shr_1_m; rewrite shr_m_of_loc; unfold P53 in *; lia).
  apply round_stage2_below; [|lia].
  pose proof (round_nearest_even_ge (shr_m mrs) (loc_of_shr_record mrs)).
  rewrite Hs in *. unfold P52, P53 in *.
  assert (4503599627370496 <= m / 2 <= 9007199254740990).
  { split; [apply Z.div_le_lower_bound; lia|].
    assert (m / 2 < 9007199254740991) by (apply Z.div_lt_upper_bound; lia). lia. }
  lia.
Qed.

(** The quotient of two counters [0 < i < t] is below 1: it does not round
    up to 1. *)
Lemma SFdiv_normal_lt_one mx ex my ey i t :
  P52 <= Zpos mx < P53 -> P52 <= Zpos my < P53 ->
  -52 <= ex <= 0 -> -52 <= ey <= 0 ->
  Zpos mx = i * 2 ^ (- ex) -> Zpos my = t * 2 ^ (- ey) -> 0 < i < t ->
  exists m e,
    SF64div (S754_finite false mx ex) (S754_finite false my ey) = S754_finite false m e
    /\ e < -52.
Proof.
  intros Hx Hy Hex Hey Hvx Hvy Hit.
  assert (Hu : 0 < 2 ^ (- ey)) by (apply Z.pow_pos_nonneg; lia).
  assert (Hle : ex <= ey).
  { destruct (Z_le_gt_dec ex ey) as [H|H]; [exact H|exfalso].
    assert (Hp : - ey = (- ex) + (ex - ey)) by lia.
    rewrite Hp, Z.pow_add_r in Hvy by lia.
    assert (Hb2 : 2 <= 2 ^ (ex - ey)) by (apply pow2_ge_2; lia).
    assert (Ha : 0 < 2 ^ (- ex)) by (apply Z.pow_pos_nonneg; lia).
    set (a := 2 ^ (- ex)) in *. set (b := 2 ^ (ex - ey)) in *.
    assert (i * a < t * a) by (apply Z.mul_lt_mono_pos_r; lia).
    assert (t * a * 2 <= t * a * b) by (apply Z.mul_le_mono_nonneg_l; nia).
    unfold P52, P53 in *. nia. }
  assert (Heq : ex = ey -> Zpos mx < Zpos my).
  { intros ->. rewrite Hvx, Hvy. apply Z.mul_lt_mono_pos_r; lia. }
  assert (Hnext : ex = ey - 1 -> Zpos mx <= 2 * Zpos my - 2).
  { intros ->. replace (- (ey - 1)) with (1 + (- ey)) in Hvx by lia.
    rewrite Z.pow_add_r in Hvx by lia. change (2 ^ 1) with 2 in Hvx. nia. }
  clear Hvx Hvy Hit Hu i t.
  unfold SF64div, SFdiv, SFdiv_core_binary.
  rewrite (Zdigits2_53 (Zpos mx)), (Zdigits2_53 (Zpos my)), fexp_eq by assumption.
  replace (Z.min (Z.max (53 + ex - (53 + ey) - 53) (-1074)) (ex - ey))
    with (ex - ey - 53) by lia.
  replace (ex - ey - (ex - ey - 53)) with 53 by lia.
  cbv iota. rewrite Z.shiftl_mul_pow2 by lia. rewrite P53_eq.
  pose proof (Z_div_mod (Zpos mx * P53) (Zpos my) ltac:(lia)) as Hdiv.
  destruct (Z.div_eucl (Zpos mx * P53) (Zpos my)) as [q r].
  destruct Hdiv as [Hq Hr]. simpl xorb.
  assert (Hq1 : P52 <= q) by (unfold P52, P53 in *; nia).
  assert (Hq2 : q < 2 * P53) by (unfold P52, P53 in *; nia).
  destruct (Z_lt_le_dec q P53) as [Hlt|Hge].
  - destruct (Z.eq_dec ex ey) as [E|E].
    + specialize (Heq E).
      assert (q <= P53 - 2) by (unfold P52, P53 in *; nia).
      destruct (binary_round_aux_53_below false q (ex - ey - 53)
                  (new_location (Zpos my) r)) as (m & Em); [lia|lia|].
      exists m, (ex - ey - 53). split; [exact Em|lia].
    + destruct (binary_round_aux_53 false q (ex - ey - 53) (new_location (Zpos my) r))
        as (m & e & Em & Hl); [lia|lia|].
      exists m, e. split; [exact Em|lia].
  - destruct (Z.eq_dec ex (ey - 1)) as [E|E].
    + specialize (Hnext E).
      assert (q <= 2 * P53 - 3) by (unfold P52, P53 in *; nia).
      destruct (binary_round_aux_54_below false q (ex - ey - 53)
                  (new_location (Zpos my) r)) as (m & Em); [lia|lia|].
      exists m, (ex - ey - 53 + 1). split; [exact Em|lia].
    + assert (ex <> ey).
      { intros E'. specialize (Heq E'). unfold P52, P53 in *. nia. }
      destruct (binary_round_aux_54 false q (ex - ey - 53) (new_location (Zpos my) r))
        as (m & e & Em & Hl); [lia|lia|].
      exists m, e. split; [exact Em|lia].
Qed.

(** A counter divided by itself is 1. *)
Lemma SFdiv_normal_self mx ex :
  P52 <= Zpos mx < P53 -> -52 <= ex <= 0 ->
  SF64div (S754_finite false mx ex) (S754_finite false mx ex)
  = S754_finite false 4503599627370496 (-52).
Proof.
  intros Hx Hex.
  unfold SF64div, SFdiv, SFdiv_core_binary.
  rewrite (Zdigits2_53 (Zpos mx)), fexp_eq by assumption.
  replace (Z.min (Z.max (53 + ex - (53 + ex) - 53) (-1074)) (ex - ex))
    with (-53) by lia.
  replace (ex - ex - -53) with 53 by lia.
  cbv iota. rewrite Z.shiftl_mul_pow2 by lia. rewrite P53_eq.
  pose proof (Z_div_mod (Zpos mx * P53) (Zpos mx) ltac:(lia)) as Hdiv.
  destruct (Z.div_eucl (Zpos mx * P53) (Zpos mx)) as [q r].
  destruct Hdiv as [Hq Hr]. simpl xorb.
  assert (q = P53) by (unfold P52, P53 in *; nia).
  assert (r = 0) by (unfold P52, P53 in *; nia).
  subst q r. rewrite new_location_0. reflexivity.
Qed.

(** The quotient of two counters [i <= t], [0 < t < 2^53], is 1 only when
    [i = t], and 0 only when [i = 0]. *)
Lemma div_counts_ends i t :
  (i <= t)%nat -> (0 < t)%nat -> Z.of_nat t < P53 ->
  let c := (of_count i / of_count t)%float in
  (c = 1%float <-> i = t) /\ (c = 0%float <-> i = 0%nat).
Proof.
  intros Hit Ht Hb c.
  destruct (of_count_normal t Ht Hb) as (mt & et & Et & Hmt & Het & Hvt).
  assert (Hc : Prim2SF c = SF64div (Prim2SF (of_count i)) (S754_finite false mt et))
    by (unfold c; now rewrite FloatAxioms.div_spec, Et).
  destruct i as [|i].
  - rewrite of_count_zero in Hc. simpl in Hc.
    split; split.
    + intros E. rewrite E in Hc. discriminate.
    + intros <-. lia.
    + reflexivity.
    + intros _. apply Prim2SF_inj. exact Hc.
  - destruct (of_count_normal (S i) ltac:(lia) ltac:(lia)) as (mi & ei & Ei & Hmi & Hei & Hvi).
    rewrite Ei in Hc.
    split; split.
    + intros E. destruct (Nat.eq_dec (S i) t) as [e0|Hne]; [exact e0|exfalso].
      destruct (SFdiv_normal_lt_one mi ei mt et (Z.of_nat (S i)) (Z.of_nat t))
        as (m & e & Em & He); try assumption; [lia|].
      rewrite Em, E in Hc. change (Prim2SF 1) with (S754_finite false 4503599627370496 (-52)) in Hc.
      injection Hc as _ Hc. lia.
    + intros <-. rewrite Ei in Et. injection Et as <- <-.
      rewrite SFdiv_normal_self in Hc by assumption.
      apply Prim2SF_inj. exact Hc.
    + intros E. exfalso.
      assert (Hle : ei < et \/ (ei = et /\ Zpos mi <= Zpos mt)).
      { destruct (Z.lt_trichotomy ei et) as [H|[H|H]]; [now left| right | exfalso].
        - subst et. split; [reflexivity|]. rewrite Hvi, Hvt.
          apply Z.mul_le_mono_nonneg_r; [apply Z.pow_nonneg|]; lia.
        - assert (Hp : - et = (- ei) + (ei - et)) by lia.
          rewrite Hp, Z.pow_add_r in Hvt by lia.
          assert (2 <= 2 ^ (ei - et)) by (apply pow2_ge_2; lia).
          assert (0 < 2 ^ (- ei)) by (apply Z.pow_pos_nonneg; lia).
          assert (Z.of_nat (S i) * 2 ^ (- ei) <= Z.of_nat t * 2 ^ (- ei))
            by (apply Z.mul_le_mono_nonneg_r; lia).
          unfold P52, P53 in *. nia. }
      destruct (SFdiv_normal_le_one mi ei mt et Hmi Hmt Hei Het Hle) as (m & e & Em & _).
      rewrite Em, E in Hc. discriminate.
    + discriminate.
Qed.

Local Close Scope Z_scope.

(** X11. The cohesion of a module is 1 exactly when none of its calls is
    external, and 0 exactly when it makes calls and none of them is
    internal: the quotient of the two counters does not round to an end of
    the range that it has not reached. (The counter of all calls is in the
    range in which a JavaScript number counts exactly.) *)
Theorem X11_cohesion_ends (raw : option Config.t) (added : list SourceFile)
  (m : ModuleMetrics.t) :
  In m (Analysis.results (analyze raw added)) ->
  exact_count (callsOut_total (ModuleMetrics.extras m)) ->
  (ModuleMetrics.cohesion m = Some 1%float
   <-> callsOut_external (ModuleMetrics.extras m) = 0)
  /\ (ModuleMetrics.cohesion m = Some 0%float
      <-> callsOut_internal (ModuleMetrics.extras m) = 0
          /\ callsOut_total (ModuleMetrics.extras m) <> 0).
Proof.
  intros Hm Hexact. apply In_results, In_composed in Hm.
  destruct Hm as (file & data & Hin & ->).
  pose proof (tallied_partition (loadConfig raw) added) as Hp.
  rewrite Forall_forall in Hp. specialize (Hp _ Hin). simpl in Hp.
  unfold composeMetrics in *.
  cbn [ModuleMetrics.cohesion ModuleMetrics.extras] in *.
  destruct (Nat.eqb_spec (callsOut_total data) 0) as [E|E].
  - split; split.
    + intros _. lia.
    + reflexivity.
    + intros H. exfalso.
      assert (H' : 1%float = 0%float) by congruence.
      apply (f_equal Prim2SF) in H'. discriminate.
    + intros [_ H]. contradiction.
  - unfold exact_count in Hexact.
    destruct (div_counts_ends (callsOut_internal data) (callsOut_total data))
      as [H1 H0]; try lia.
    { rewrite <- P53_eq. exact Hexact. }
    split; split.
    + intros [= H]. apply H1 in H. lia.
    + intros H. f_equal. apply H1. lia.
    + intros [= H]. apply H0 in H. auto.
    + intros [H _]. f_equal. now apply H0.
Qed.


(** ** Sums and products of counters *)

Local Open Scope Z_scope.

Lemma shr_1_even mrs q :
  0 <= q -> shr_m mrs = q * 2 -> shr_r mrs = false -> shr_s mrs = false ->
  shr_1 mrs = Build_shr_record q false false.
Proof.
  destruct mrs as [m r s]. simpl. intros Hq -> -> ->.
  destruct q as [|q|q]; [reflexivity| |lia].
  replace (Zpos q * 2) with (Zpos q~0) by lia. reflexivity.
Qed.

(** Shifting out bits that are all zero loses nothing. *)
Lemma iter_shr_exact n : forall mrs q,
  0 <= q -> shr_m mrs = q * 2 ^ Zpos n -> shr_r mrs = false -> shr_s mrs = false ->
  iter_pos shr_1 n mrs = Build_shr_record q false false.
Proof.
  induction n as [n IH|n IH|]; intros mrs q Hq Hm Hr Hs; simpl iter_pos;
    try (assert (Hp : 0 < 2 ^ Zpos n) by (apply Z.pow_pos_nonneg; lia)).
  - assert (H1 : shr_1 mrs = Build_shr_record (q * 2 ^ Zpos n * 2 ^ Zpos n) false false).
    { apply shr_1_even; [nia| |exact Hr|exact Hs]. rewrite Hm, pow2_xI. ring. }
    rewrite H1.
    assert (H2 : iter_pos shr_1 n (Build_shr_record (q * 2 ^ Zpos n * 2 ^ Zpos n) false false)
                 = Build_shr_record (q * 2 ^ Zpos n) false false).
    { apply (IH _ (q * 2 ^ Zpos n)); [nia|reflexivity|reflexivity|reflexivity]. }
    rewrite H2. apply (IH _ q); [exact Hq|reflexivity|reflexivity|reflexivity].
  - assert (H2 : iter_pos shr_1 n mrs = Build_shr_record (q * 2 ^ Zpos n) false false).
    { apply (IH _ (q * 2 ^ Zpos n)); [nia| |exact Hr|exact Hs].
      rewrite Hm, pow2_xO. ring. }
    rewrite H2. apply (IH _ q); [exact Hq|reflexivity|reflexivity|reflexivity].
  - apply shr_1_even; [exact Hq| |exact Hr|exact Hs]. rewrite Hm. reflexivity.
Qed.

Lemma round_stage2_exact s p e :
  P52 <= Zpos p < P53 -> -1074 <= e <= 971 ->
  (let '(mrs'', e'') := shr_fexp prec emax (Zpos p) e loc_Exact in
   match shr_m mrs'' with
   | Z0 => S754_zero s
   | Zpos m => if e'' <=? emax - prec then S754_finite s m e'' else S754_infinity s
   | Zneg _ => S754_nan
   end) = S754_finite s p e.
Proof.
  intros Hm He. rewrite shr_fexp_53 by lia. simpl shr_m.
  change (emax - prec) with 971.
  now replace (e <=? 971) with true by (symmetry; apply Z.leb_le; lia).
Qed.

(** Rounding a mantissa [M] at an exponent [e <= 0] when [M * 2^e] is an
    integer below 2^53: the result is that integer, exactly. *)
Lemma binary_round_aux_scaled s M e n :
  0 < n < P53 -> -1074 <= e <= 0 -> Zpos M = n * 2 ^ (- e) -> P52 <= Zpos M ->
  exists m' e',
    binary_round_aux prec emax s (Zpos M) e loc_Exact = S754_finite s m' e'
    /\ P52 <= Zpos m' < P53 /\ -52 <= e' <= 0 /\ Zpos m' = n * 2 ^ (- e').
Proof.
  intros Hn He HM H52.
  pose proof (digits2_bounds M) as [Hl Hu].
  set (D := Zpos (digits2_pos M)) in *.
  assert (Hpe : 0 < 2 ^ (- e)) by (apply Z.pow_pos_nonneg; lia).
  assert (HD : 53 <= D).
  { destruct (Z_le_gt_dec 53 D) as [H|H]; [exact H|exfalso].
    assert (2 ^ D <= 2 ^ 52) by (apply Z.pow_le_mono_r; lia).
    rewrite P52_eq in H0. lia. }
  assert (HDe : D <= 53 - e).
  { destruct (Z_le_gt_dec D (53 - e)) as [H|H]; [exact H|exfalso].
    assert (2 ^ (53 - e) <= 2 ^ (D - 1)) by (apply Z.pow_le_mono_r; lia).
    replace (53 - e) with (53 + (- e)) in H0 by lia.
    rewrite Z.pow_add_r, P53_eq in H0 by lia. nia. }
  destruct (D - 53) as [|k|k] eqn:Ek; try lia.
  - assert (HM53 : Zpos M < P53).
    { rewrite <- P53_eq. replace 53 with D by lia. exact Hu. }
    rewrite binary_round_aux_exact by lia.
    exists M, e. repeat split; try lia.
    destruct (Z_le_gt_dec (-52) e) as [H|H]; [exact H|exfalso].
    assert (2 ^ 53 <= 2 ^ (- e)) by (apply Z.pow_le_mono_r; lia).
    rewrite P53_eq in H0. nia.
  - assert (Hk : Zpos k <= - e) by lia.
    assert (Hpk : 0 < 2 ^ Zpos k) by (apply Z.pow_pos_nonneg; lia).
    assert (Hpq : 0 < 2 ^ (- e - Zpos k)) by (apply Z.pow_pos_nonneg; lia).
    assert (Hsplit : 2 ^ (- e) = 2 ^ (- e - Zpos k) * 2 ^ Zpos k).
    { rewrite <- Z.pow_add_r by lia. f_equal. lia. }
    remember (n * 2 ^ (- e - Zpos k)) as q eqn:Hqdef.
    assert (Hq : Zpos M = q * 2 ^ Zpos k) by (rewrite Hqdef, HM, Hsplit; ring).
    assert (Hq0 : 0 < q) by nia.
    assert (Hshr : shr_fexp prec emax (Zpos M) e loc_Exact
                   = (Build_shr_record q false false, e + Zpos k)).
    { unfold shr_fexp. simpl Zdigits2. fold D. rewrite fexp_eq.
      replace (Z.max (D + e - 53) (-1074) - e) with (Zpos k) by lia.
      simpl shr. f_equal.
      apply iter_shr_exact; [lia|exact Hq|reflexivity|reflexivity]. }
    assert (Hqb : P52 <= q < P53).
    { assert (H1 : 2 ^ (D - 1) = P52 * 2 ^ Zpos k).
      { rewrite <- P52_eq, <- Z.pow_add_r by lia. f_equal. lia. }
      assert (H2 : 2 ^ D = P53 * 2 ^ Zpos k).
      { rewrite <- P53_eq, <- Z.pow_add_r by lia. f_equal. lia. }
      rewrite H1, H2, Hq in *. split; nia. }
    unfold binary_round_aux. rewrite Hshr.
    cbn [shr_m loc_of_shr_record round_nearest_even].
    destruct q as [|qp|qp]; try lia.
    rewrite (round_stage2_exact s qp (e + Zpos k)) by lia.
    exists qp, (e + Zpos k). repeat split; try lia.
    + destruct (Z_le_gt_dec (-52) (e + Zpos k)) as [H|H]; [exact H|exfalso].
      assert (2 ^ 53 <= 2 ^ (- e - Zpos k)) by (apply Z.pow_le_mono_r; lia).
      rewrite P53_eq in H0. nia.
    + rewrite Hqdef. f_equal. f_equal. lia.
Qed.

(** The binary64 form of a positive integer below 2^53 is unique. *)
Lemma normal_unique n m1 e1 m2 e2 :
  P52 <= m1 < P53 -> P52 <= m2 < P53 -> e1 <= 0 -> e2 <= 0 ->
  m1 = n * 2 ^ (- e1) -> m2 = n * 2 ^ (- e2) ->
  m1 = m2 /\ e1 = e2.
Proof.
  assert (Hlt : forall a ea b eb,
             P52 <= a < P53 -> P52 <= b < P53 -> ea <= 0 -> eb <= 0 ->
             a = n * 2 ^ (- ea) -> b = n * 2 ^ (- eb) -> ea < eb -> False).
  { intros a ea b eb Ha Hb Hea Heb Ea Eb Hlt.
    assert (Hp : - ea = (- eb) + (eb - ea)) by lia.
    rewrite Hp, Z.pow_add_r in Ea by lia.
    assert (2 <= 2 ^ (eb - ea)) by (apply pow2_ge_2; lia).
    assert (0 < 2 ^ (- eb)) by (apply Z.pow_pos_nonneg; lia).
    unfold P52, P53 in *. nia. }
  intros H1 H2 He1 He2 E1 E2.
  destruct (Z.lt_trichotomy e1 e2) as [H|[H|H]].
  - exfalso. eapply (Hlt m1 e1 m2 e2); eauto.
  - subst e2. split; [congruence|reflexivity].
  - exfalso. eapply (Hlt m2 e2 m1 e1); eauto.
Qed.

(** A number is the counter [n] when it has the value [n]. *)
Lemma of_count_unique (n : nat) (x : float) m e :
  (0 < n)%nat -> Z.of_nat n < P53 ->
  Prim2SF x = S754_finite false m e ->
  P52 <= Zpos m < P53 -> -52 <= e <= 0 -> Zpos m = Z.of_nat n * 2 ^ (- e) ->
  x = of_count n.
Proof.
  intros Hn Hb Hx Hm He Hv.
  destruct (of_count_normal n Hn Hb) as (m' & e' & E' & Hm' & He' & Hv').
  destruct (normal_unique (Z.of_nat n) (Zpos m) e (Zpos m') e') as [E1 E2]; try lia.
  apply Prim2SF_inj. rewrite Hx, E'. injection E1 as ->. now subst e'.
Qed.

(** The product of two counters is the counter of the product, as long as
    all three are below 2^53. *)
Lemma of_count_mul (a b : nat) :
  Z.of_nat a < P53 -> Z.of_nat b < P53 -> Z.of_nat (a * b) < P53 ->
  (of_count a * of_count b)%float = of_count (a * b).
Proof.
  intros Ha1 Hb1 Hb. destruct a as [|a]; [|destruct b as [|b]].
  - apply Prim2SF_inj. rewrite FloatAxioms.mul_spec, of_count_zero. simpl Nat.mul.
    rewrite of_count_zero. destruct b as [|b]; [now rewrite of_count_zero|].
    destruct (of_count_normal (S b) ltac:(lia) Hb1) as (mb & eb & -> & _). reflexivity.
  - rewrite Nat.mul_0_r. apply Prim2SF_inj. rewrite FloatAxioms.mul_spec, of_count_zero.
    destruct (of_count_normal (S a) ltac:(lia) Ha1) as (ma & ea & -> & _). reflexivity.
  - destruct (of_count_normal (S a) ltac:(lia) Ha1) as (ma & ea & Ea & Hma & Hea & Hva).
    destruct (of_count_normal (S b) ltac:(lia) Hb1) as (mb & eb & Eb & Hmb & Heb & Hvb).
    destruct (binary_round_aux_scaled false (ma * mb) (ea + eb) (Z.of_nat (S a * S b)))
      as (m' & e' & E' & Hm' & He' & Hv').
    + lia.
    + lia.
    + rewrite Pos2Z.inj_mul, Hva, Hvb, Nat2Z.inj_mul.
      replace (- (ea + eb)) with (- ea + - eb) by lia.
      rewrite Z.pow_add_r by lia. ring.
    + rewrite Pos2Z.inj_mul. unfold P52, P53 in *. nia.
    + apply (of_count_unique _ _ m' e'); try assumption; [lia|].
      rewrite FloatAxioms.mul_spec, Ea, Eb. exact E'.
Qed.

(** The sum of two counters is the counter of the sum, as long as that is
    below 2^53. *)
Lemma of_count_add (a b : nat) :
  Z.of_nat (a + b) < P53 -> (of_count a + of_count b)%float = of_count (a + b).
Proof.
  intros Hb. destruct a as [|a]; [|destruct b as [|b]].
  - simpl Nat.add. apply Prim2SF_inj. rewrite FloatAxioms.add_spec, of_count_zero.
    destruct b as [|b]; [now rewrite of_count_zero|].
    destruct (of_count_normal (S b) ltac:(lia) ltac:(lia)) as (mb & eb & -> & _). reflexivity.
  - rewrite Nat.add_0_r. apply Prim2SF_inj. rewrite FloatAxioms.add_spec, of_count_zero.
    destruct (of_count_normal (S a) ltac:(lia) ltac:(lia)) as (ma & ea & -> & _). reflexivity.
  - destruct (of_count_normal (S a) ltac:(lia) ltac:(lia)) as (ma & ea & Ea & Hma & Hea & Hva).
    destruct (of_count_normal (S b) ltac:(lia) ltac:(lia)) as (mb & eb & Eb & Hmb & Heb & Hvb).
    set (ez := Z.min ea eb).
    pose proof (shl_align_fst ma ea ez ltac:(unfold ez; lia)) as Hxa.
    pose proof (shl_align_fst mb eb ez ltac:(unfold ez; lia)) as Hxb.
    assert (Hsum : Prim2SF (of_count (S a) + of_count (S b))
                   = binary_round prec emax false
                       (fst (shl_align ma ea ez) + fst (shl_align mb eb ez)) ez).
    { rewrite FloatAxioms.add_spec, Ea, Eb. reflexivity. }
    remember (fst (shl_align ma ea ez)) as xa eqn:Exa.
    remember (fst (shl_align mb eb ez)) as xb eqn:Exb.
    clear Exa Exb.
    assert (Hpa : 0 < 2 ^ (ea - ez)) by (apply Z.pow_pos_nonneg; unfold ez; lia).
    assert (Hpb : 0 < 2 ^ (eb - ez)) by (apply Z.pow_pos_nonneg; unfold ez; lia).
    assert (Hez : -52 <= ez <= 0) by (unfold ez; lia).
    assert (Hva' : Zpos xa = Z.of_nat (S a) * 2 ^ (- ez)).
    { rewrite Hxa, Hva, <- Z.mul_assoc, <- Z.pow_add_r by lia. f_equal. f_equal. lia. }
    assert (Hvb' : Zpos xb = Z.of_nat (S b) * 2 ^ (- ez)).
    { rewrite Hxb, Hvb, <- Z.mul_assoc, <- Z.pow_add_r by lia. f_equal. f_equal. lia. }
    assert (Hp52 : P52 <= Zpos (xa + xb)) by (rewrite Pos2Z.inj_add; nia).
    assert (Hal : shl_align (xa + xb) ez
                    (fexp prec emax (Zpos (digits2_pos (xa + xb)) + ez))
                  = ((xa + xb)%positive, ez)).
    { pose proof (digits2_bounds (xa + xb)) as [Hl Hu].
      set (D := Zpos (digits2_pos (xa + xb))) in *.
      assert (HD : 53 <= D).
      { destruct (Z_le_gt_dec 53 D) as [H|H]; [exact H|exfalso].
        assert (2 ^ D <= 2 ^ 52) by (apply Z.pow_le_mono_r; lia).
        rewrite P52_eq in H0. lia. }
      unfold shl_align. rewrite fexp_eq.
      destruct (Z.max (D + ez - 53) (-1074) - ez) eqn:E; try reflexivity. lia. }
    unfold binary_round in Hsum. rewrite Hal in Hsum.
    destruct (binary_round_aux_scaled false (xa + xb) ez (Z.of_nat (S a + S b)))
      as (m' & e' & E' & Hm' & He' & Hv').
    + lia.
    + lia.
    + rewrite Pos2Z.inj_add, Hva', Hvb', Nat2Z.inj_add. ring.
    + exact Hp52.
    + apply (of_count_unique _ _ m' e'); try assumption; [lia|].
      rewrite Hsum. exact E'.
Qed.

(** V and A of a record, by the weights in force. *)
Lemma result_V_A raw added m :
  In m (Analysis.results (analyze raw added)) ->
  ModuleMetrics.V m = spec_V (configured_weight raw) (ModuleMetrics.extras m)
  /\ ModuleMetrics.A m = spec_A (configured_weight raw) (ModuleMetrics.extras m).
Proof.
  intros Hm. apply In_results, In_composed in Hm. destruct Hm as (file & data & _ & ->).
  unfold composeMetrics, spec_V, spec_A.
  cbn [ModuleMetrics.V ModuleMetrics.A ModuleMetrics.extras].
  rewrite !spread_configured. split; reflexivity.
Qed.

Lemma default_V_exact d :
  Z.of_nat (default_V d) < P53 -> spec_V DEFAULT_WEIGHTS d = of_count (default_V d).
Proof.
  unfold default_V, spec_V, DEFAULT_WEIGHTS, P53. intros H.
  change 1%float with (of_count 1). change 2%float with (of_count 2).
  rewrite (of_count_add (callsOut_internal d)) by (unfold P53; lia).
  rewrite !of_count_mul by (unfold P53; lia).
  rewrite !of_count_add by (unfold P53; lia).
  f_equal. lia.
Qed.

Lemma default_A_exact d :
  Z.of_nat (default_A d) < P53 -> spec_A DEFAULT_WEIGHTS d = of_count (default_A d).
Proof.
  unfold default_A, spec_A, DEFAULT_WEIGHTS, P53. intros H.
  change 2%float with (of_count 2). change 3%float with (of_count 3).
  rewrite !of_count_mul by (unfold P53; lia).
  rewrite !of_count_add by (unfold P53; lia).
  f_equal. lia.
Qed.

Local Close Scope Z_scope.

(** X12. Under the default weights V and A are whole numbers, with no
    rounding: V is the number of private members and of internal and
    incoming calls plus twice the internal type count, and A is three times
    the exports plus twice the public members, the external imports, the
    heuristic count and the external calls. (Each as long as it is below
    2^53.) *)
Theorem X12_default_weights_exact (raw : option Config.t) (added : list SourceFile)
  (m : ModuleMetrics.t) :
  (forall k, configured_weight raw k = DEFAULT_WEIGHTS k) ->
  In m (Analysis.results (analyze raw added)) ->
  (exact_count (default_V (ModuleMetrics.extras m)) ->
   ModuleMetrics.V m = of_count (default_V (ModuleMetrics.extras m)))
  /\ (exact_count (default_A (ModuleMetrics.extras m)) ->
      ModuleMetrics.A m = of_count (default_A (ModuleMetrics.extras m))).
Proof.
  intros Hw Hm. destruct (result_V_A raw added m Hm) as [HV HA].
  assert (HwV : spec_V (configured_weight raw) (ModuleMetrics.extras m)
                = spec_V DEFAULT_WEIGHTS (ModuleMetrics.extras m))
    by (unfold spec_V; now rewrite !Hw).
  assert (HwA : spec_A (configured_weight raw) (ModuleMetrics.extras m)
                = spec_A DEFAULT_WEIGHTS (ModuleMetrics.extras m))
    by (unfold spec_A; now rewrite !Hw).
  unfold exact_count. rewrite P53_eq. split; intros Hb.
  - rewrite HV, HwV. now apply default_V_exact.
  - rewrite HA, HwA. now apply default_A_exact.
Qed.


(** ** The sign of V and A *)

Local Open Scope Z_scope.

(** Rounding a mantissa of at least 53 bits: the exponent grows by the
    bits shifted out, and by one more on a carry. *)
Lemma binary_round_aux_lands s p e l :
  53 <= Zpos (digits2_pos p) -> -1074 <= e -> e + Zpos (digits2_pos p) - 53 <= 970 ->
  lands s (e + Zpos (digits2_pos p) - 53) (binary_round_aux prec emax s (Zpos p) e l).
Proof.
  intros HD He Hmax.
  pose proof (digits2_bounds p) as [Hl Hu].
  set (D := Zpos (digits2_pos p)) in *.
  assert (Hshr : exists mrs,
             shr_fexp prec emax (Zpos p) e l = (mrs, e + D - 53)
             /\ P52 <= shr_m mrs < P53).
  { unfold shr_fexp. simpl Zdigits2. fold D. rewrite fexp_eq.
    replace (Z.max (D + e - 53) (-1074) - e) with (D - 53) by lia.
    destruct (D - 53) as [|k|k] eqn:Ek; try lia; simpl shr.
    - eexists. split; [f_equal; lia|]. rewrite shr_m_of_loc.
      replace D with 53 in * by lia. rewrite <- P52_eq, <- P53_eq. exact (conj Hl Hu).
    - eexists. split; [f_equal; lia|].
      rewrite iter_shr_m by (rewrite shr_m_of_loc; lia). rewrite shr_m_of_loc.
      assert (Hpk : 0 < 2 ^ Zpos k) by (apply Z.pow_pos_nonneg; lia).
      assert (H1 : 2 ^ (D - 1) = P52 * 2 ^ Zpos k).
      { rewrite <- P52_eq, <- Z.pow_add_r by lia. f_equal. lia. }
      assert (H2 : 2 ^ D = P53 * 2 ^ Zpos k).
      { rewrite <- P53_eq, <- Z.pow_add_r by lia. f_equal. lia. }
      rewrite H1 in Hl. rewrite H2 in Hu. split.
      + apply Z.div_le_lower_bound; lia.
      + apply Z.div_lt_upper_bound; lia. }
  destruct Hshr as (mrs & Hshr & Hb).
  unfold binary_round_aux. rewrite Hshr.
  apply round_stage2; [|lia].
  pose proof (round_nearest_even_ge (shr_m mrs) (loc_of_shr_record mrs)). lia.
Qed.

(** A positive mantissa of at least 53 bits, at an exponent far from the
    top, rounds to a positive finite number. *)
Lemma binary_round_positive p e :
  P52 <= Zpos p -> -1074 <= e -> e + Zpos (digits2_pos p) - 53 <= 970 ->
  exists m e', binary_round prec emax false p e = S754_finite false m e'.
Proof.
  intros Hp He Hmax.
  pose proof (digits2_bounds p) as [Hl Hu].
  assert (HD : 53 <= Zpos (digits2_pos p)).
  { destruct (Z_le_gt_dec 53 (Zpos (digits2_pos p))) as [H|H]; [exact H|exfalso].
    assert (2 ^ Zpos (digits2_pos p) <= 2 ^ 52) by (apply Z.pow_le_mono_r; lia).
    rewrite P52_eq in H0. lia. }
  unfold binary_round.
  assert (Hal : shl_align p e (fexp prec emax (Zpos (digits2_pos p) + e)) = (p, e)).
  { unfold shl_align. rewrite fexp_eq.
    destruct (Z.max (Zpos (digits2_pos p) + e - 53) (-1074) - e) eqn:E; try reflexivity.
    lia. }
  rewrite Hal.
  destruct (binary_round_aux_lands false p e loc_Exact HD He Hmax) as (m & e' & E & _).
  now exists m, e'.
Qed.

(** A counter is zero or a positive number of at most 64 bits. *)
Lemma of_count_form n :
  Prim2SF (of_count n) = S754_zero false
  \/ exists m e,
       Prim2SF (of_count n) = S754_finite false m e
       /\ P52 <= Zpos m < P53 /\ -52 <= e <= 11.
Proof.
  pose proof (Prim2SF_valid (of_count n)) as Hv.
  unfold of_count in *. rewrite of_uint63_spec in *.
  pose proof (Uint63.to_Z_bounded (Uint63.of_Z (Z.of_nat n))) as Hb.
  change wB with 9223372036854775808 in Hb.
  destruct (φ (Uint63.of_Z (Z.of_nat n)))%uint63 as [|p|p]; [now left|right|lia].
  simpl binary_normalize in *.
  destruct (Z_lt_le_dec (Zpos p) P53) as [Hlt|Hge].
  - destruct (binary_round_int p Hlt) as (m & e & E & Hm & He & _).
    exists m, e. repeat split; try assumption; lia.
  - pose proof (digits2_bounds p) as [Hl Hu].
    assert (HD : 54 <= Zpos (digits2_pos p) <= 63).
    { split.
      - destruct (Z_le_gt_dec 54 (Zpos (digits2_pos p))) as [H|H]; [exact H|exfalso].
        assert (2 ^ Zpos (digits2_pos p) <= 2 ^ 53) by (apply Z.pow_le_mono_r; lia).
        rewrite P53_eq in H0. lia.
      - destruct (Z_le_gt_dec (Zpos (digits2_pos p)) 63) as [H|H]; [exact H|exfalso].
        assert (2 ^ 63 <= 2 ^ (Zpos (digits2_pos p) - 1)) by (apply Z.pow_le_mono_r; lia).
        change (2 ^ 63) with 9223372036854775808 in H0. lia. }
    unfold binary_round in *.
    assert (Hal : shl_align p 0 (fexp prec emax (Zpos (digits2_pos p) + 0)) = (p, 0)).
    { unfold shl_align. rewrite fexp_eq.
      destruct (Z.max (Zpos (digits2_pos p) + 0 - 53) (-1074) - 0) eqn:E; try reflexivity.
      lia. }
    rewrite Hal in *.
    destruct (binary_round_aux_lands false p 0 loc_Exact) as (m & e & E & Hl'); try lia.
    rewrite E in *. simpl in Hv. apply bounded_inv in Hv. destruct Hv as (V1 & V2 & V3).
    exists m, e. split; [reflexivity|]. split; [split; [apply V3|]|]; lia.
Qed.

(** The sum of two counters is finite. *)
Lemma add_counts_form a b :
  match SF64add (Prim2SF (of_count a)) (Prim2SF (of_count b)) with
  | S754_zero _ | S754_finite false _ _ => True
  | _ => False
  end.
Proof.
  destruct (of_count_form a) as [Ea|(ma & ea & Ea & Hma & Hea)];
    destruct (of_count_form b) as [Eb|(mb & eb & Eb & Hmb & Heb)];
    rewrite Ea, Eb; try exact I.
  unfold SF64add, SFadd. cbn [cond_Zopp].
  set (ez := Z.min ea eb).
  pose proof (shl_align_fst ma ea ez ltac:(unfold ez; lia)) as Hxa.
  pose proof (shl_align_fst mb eb ez ltac:(unfold ez; lia)) as Hxb.
  remember (fst (shl_align ma ea ez)) as xa eqn:Exa.
  remember (fst (shl_align mb eb ez)) as xb eqn:Exb.
  clear Exa Exb.
  change (Zpos xa + Zpos xb) with (Zpos (xa + xb)).
  cbn [binary_normalize].
  assert (Hpa : 1 <= 2 ^ (ea - ez) <= 2 ^ 63).
  { split; [|apply Z.pow_le_mono_r; unfold ez; lia].
    assert (0 < 2 ^ (ea - ez)) by (apply Z.pow_pos_nonneg; unfold ez; lia). lia. }
  assert (Hpb : 1 <= 2 ^ (eb - ez) <= 2 ^ 63).
  { split; [|apply Z.pow_le_mono_r; unfold ez; lia].
    assert (0 < 2 ^ (eb - ez)) by (apply Z.pow_pos_nonneg; unfold ez; lia). lia. }
  change (2 ^ 63) with 9223372036854775808 in Hpa, Hpb.
  pose proof (digits2_bounds (xa + xb)) as [Hl Hu].
  assert (HD : Zpos (digits2_pos (xa + xb)) <= 117).
  { destruct (Z_le_gt_dec (Zpos (digits2_pos (xa + xb))) 117) as [H|H]; [exact H|exfalso].
    assert (2 ^ 117 <= 2 ^ (Zpos (digits2_pos (xa + xb)) - 1))
      by (apply Z.pow_le_mono_r; lia).
    change (2 ^ 117) with 166153499473114484112975882535043072 in H0.
    rewrite Pos2Z.inj_add in Hl. unfold P52, P53 in *. nia. }
  destruct (binary_round_positive (xa + xb) ez) as (m & e' & ->).
  - rewrite Pos2Z.inj_add. unfold P52, P53 in *. nia.
  - unfold ez. lia.
  - unfold ez. lia.
  - exact I.
Qed.

(** The product of two numbers that are finite and not negative is not
    negative: a number or [+Infinity]. *)
Lemma SFmul_nonneg x y :
  match x with S754_zero _ | S754_finite false _ _ => True | _ => False end ->
  match y with S754_zero _ | S754_finite false _ _ => True | _ => False end ->
  match SF64mul x y with
  | S754_zero _ | S754_finite false _ _ | S754_infinity false => True
  | _ => False
  end.
Proof.
  intros Hx Hy.
  destruct x as [sx|sx| |[|] mx ex]; try contradiction;
    destruct y as [sy|sy| |[|] my ey]; try contradiction; try exact I.
  unfold SF64mul, SFmul. cbn [xorb].
  pose proof (binary_round_aux_not_nan false (Zpos (mx * my)) (ex + ey) loc_Exact
                ltac:(lia)) as Hn.
  unfold binary_round_aux in *.
  destruct (shr_fexp prec emax (Zpos (mx * my)) (ex + ey) loc_Exact) as [mrs' e'].
  destruct (shr_fexp prec emax _ e' loc_Exact) as [mrs'' e''].
  destruct (shr_m mrs''); try exact I; [|contradiction].
  destruct (e'' <=? emax - prec)%Z; exact I.
Qed.

(** So is the sum of two numbers that are not negative. *)
Lemma SFadd_nonneg x y :
  valid_binary x = true -> valid_binary y = true ->
  match x with
  | S754_zero _ | S754_finite false _ _ | S754_infinity false => True
  | _ => False
  end ->
  match y with
  | S754_zero _ | S754_finite false _ _ | S754_infinity false => True
  | _ => False
  end ->
  match SF64add x y with
  | S754_zero _ | S754_finite false _ _ | S754_infinity false => True
  | _ => False
  end.
Proof.
  intros Vx Vy Hx Hy.
  destruct x as [sx|[|]| |[|] mx ex]; try contradiction;
    destruct y as [sy|[|]| |[|] my ey]; try contradiction; try exact I.
  - destruct sx, sy; exact I.
  - simpl in Vx, Vy. apply bounded_inv in Vx, Vy.
    pose proof (binary_round_signed false
                  (fst (shl_align mx ex (Z.min ex ey)) + fst (shl_align my ey (Z.min ex ey)))
                  (Z.min ex ey) ltac:(lia)) as Hs.
    unfold SF64add, SFadd. cbn [cond_Zopp].
    change (Zpos (fst (shl_align mx ex (Z.min ex ey)))
            + Zpos (fst (shl_align my ey (Z.min ex ey))))
      with (Zpos (fst (shl_align mx ex (Z.min ex ey))
                  + fst (shl_align my ey (Z.min ex ey)))).
    cbn [binary_normalize].
    destruct (binary_round prec emax false _ (Z.min ex ey)) as [s|s| |s m e];
      simpl in Hs; try contradiction; subst; exact I.
Qed.

Local Close Scope Z_scope.

Lemma nonneg_spec x :
  (0 <=? x)%float = true
  <-> match Prim2SF x with
      | S754_zero _ | S754_finite false _ _ | S754_infinity false => True
      | _ => False
      end.
Proof.
  rewrite FloatAxioms.leb_spec. change (Prim2SF 0) with (S754_zero false).
  destruct (Prim2SF x) as [s|s| |s m e]; try destruct s; simpl;
    split; auto; discriminate.
Qed.

Lemma finite_nonneg_spec x :
  finite_nonneg x
  <-> match Prim2SF x with
      | S754_zero _ | S754_finite false _ _ => True
      | _ => False
      end.
Proof.
  unfold finite_nonneg. rewrite nonneg_spec, is_finite_spec.
  destruct (Prim2SF x) as [s|s| |s m e]; try destruct s; simpl;
    split; auto; try tauto; intros [H _]; discriminate.
Qed.

Lemma finite_nonneg_of_count n : finite_nonneg (of_count n).
Proof.
  apply finite_nonneg_spec.
  destruct (of_count_form n) as [->|(m & e & -> & _)]; exact I.
Qed.

Lemma finite_nonneg_add_counts a b : finite_nonneg (of_count a + of_count b)%float.
Proof.
  apply finite_nonneg_spec. rewrite FloatAxioms.add_spec. apply add_counts_form.
Qed.

Lemma mul_nonneg x y :
  finite_nonneg x -> finite_nonneg y -> (0 <=? x * y)%float = true.
Proof.
  rewrite !finite_nonneg_spec, nonneg_spec, FloatAxioms.mul_spec. apply SFmul_nonneg.
Qed.

Lemma add_nonneg x y :
  (0 <=? x)%float = true -> (0 <=? y)%float = true -> (0 <=? x + y)%float = true.
Proof.
  rewrite !nonneg_spec, FloatAxioms.add_spec. apply SFadd_nonneg; apply Prim2SF_valid.
Qed.

(** X13. When every weight in force is a finite number that is not
    negative, V and A of every module are not negative either: neither is
    NaN, whatever the counters are. *)
Theorem X13_V_A_not_negative (raw : option Config.t) (added : list SourceFile) :
  (forall k, finite_nonneg (configured_weight raw k)) ->
  Forall (fun m =>
            (0 <=? ModuleMetrics.V m)%float = true
            /\ (0 <=? ModuleMetrics.A m)%float = true)
         (Analysis.results (analyze raw added)).
Proof.
  intros Hw. apply Forall_forall. intros m Hm.
  destruct (result_V_A raw added m Hm) as [-> ->].
  unfold spec_V, spec_A. split.
  - repeat apply add_nonneg; apply mul_nonneg;
      auto using finite_nonneg_of_count, finite_nonneg_add_counts.
  - repeat apply add_nonneg; apply mul_nonneg;
      auto using finite_nonneg_of_count, finite_nonneg_add_counts.
Qed.

(** ** The sign of S under the default weights *)

Local Open Scope Z_scope.

(** A finite number that is not negative, divided by a finite positive
    number, is not negative. *)
Lemma SFdiv_nonneg x my ey :
  match x with S754_zero _ | S754_finite false _ _ => True | _ => False end ->
  match SF64div x (S754_finite false my ey) with
  | S754_zero _ | S754_finite false _ _ | S754_infinity false => True
  | _ => False
  end.
Proof.
  intros Hx. destruct x as [sx|sx| |[|] mx ex]; try contradiction; [exact I|].
  unfold SF64div, SFdiv, SFdiv_core_binary. cbn [xorb].
  set (e' := Z.min _ _). set (s := ex - ey - e').
  set (m' := match s with Z0 => Zpos mx | Zpos _ => Z.shiftl (Zpos mx) s | Zneg _ => 0 end).
  assert (Hm' : 0 <= m').
  { unfold m'. destruct s; try lia. apply Z.shiftl_nonneg. lia. }
  pose proof (Z_div_mod m' (Zpos my) ltac:(lia)) as Hdiv.
  destruct (Z.div_eucl m' (Zpos my)) as [q r]. destruct Hdiv as [Hq Hr].
  assert (Hq0 : 0 <= q) by nia.
  pose proof (binary_round_aux_not_nan false q e' (new_location (Zpos my) r) Hq0) as Hn.
  unfold binary_round_aux in *.
  destruct (shr_fexp prec emax q e' (new_location (Zpos my) r)) as [mrs1 e1].
  destruct (shr_fexp prec emax _ e1 loc_Exact) as [mrs2 e2].
  destruct (shr_m mrs2); try exact I; [|contradiction].
  destruct (e2 <=? emax - prec); exact I.
Qed.

(** A counter that is not zero lies between [Number.EPSILON] and 2^53. *)
Lemma of_count_range (n : nat) :
  (0 < n)%nat -> Z.of_nat n < P53 ->
  (Number_EPSILON <=? of_count n)%float = true
  /\ (of_count n <=? 0x1p+53)%float = true
  /\ (of_count n =? 0)%float = false.
Proof.
  intros Hn Hb. destruct (of_count_normal n Hn Hb) as (m & e & E & Hm & He & _).
  rewrite !FloatAxioms.leb_spec, FloatAxioms.eqb_spec, E.
  change (Prim2SF Number_EPSILON) with (S754_finite false 4503599627370496 (-104)).
  change (Prim2SF 0x1p+53) with (S754_finite false 4503599627370496 1).
  change (Prim2SF 0) with (S754_zero false).
  unfold SFleb, SFeqb, SFcompare.
  rewrite (proj2 (Z.compare_lt_iff (-104) e)) by lia.
  rewrite (proj2 (Z.compare_lt_iff e 1)) by lia.
  repeat split.
Qed.

Local Close Scope Z_scope.

Lemma finite_positive_spec y :
  finite_positive y <-> exists m e, Prim2SF y = S754_finite false m e.
Proof.
  unfold finite_positive. rewrite is_finite_spec, FloatAxioms.ltb_spec.
  change (Prim2SF 0) with (S754_zero false).
  destruct (Prim2SF y) as [s|s| |s m e]; try destruct s; simpl; split;
    try (intros [H1 H2]; discriminate);
    try (intros (m' & e' & H); discriminate).
  - intros _. now exists m, e.
  - intros _. split; reflexivity.
Qed.

Lemma div_nonneg x y :
  finite_nonneg x -> finite_positive y -> (0 <=? x / y)%float = true.
Proof.
  rewrite finite_nonneg_spec, finite_positive_spec, nonneg_spec, FloatAxioms.div_spec.
  intros Hx (m & e & ->). now apply SFdiv_nonneg.
Qed.

(** The base of the power, for an A that is a counter. *)
Lemma AforS_range (a : nat) :
  (Z.of_nat a < P53)%Z ->
  (Number_EPSILON <=? AforS (of_count a))%float = true
  /\ (AforS (of_count a) <=? 0x1p+53)%float = true.
Proof.
  intros Hb. unfold AforS. destruct a as [|a].
  - split; reflexivity.
  - destruct (of_count_range (S a) ltac:(lia) Hb) as (H1 & H2 & ->). now split.
Qed.

Lemma result_S raw added m :
  In m (Analysis.results (analyze raw added)) ->
  sphericity m
  = (ModuleMetrics.V m
     / Math_pow (AforS (ModuleMetrics.A m)) (Analysis.alpha (analyze raw added)))%float.
Proof.
  intros Hm. apply In_results, In_composed in Hm. destruct Hm as (file & data & _ & ->).
  reflexivity.
Qed.

(** X14. Under the default weights, and with a power that is finite and
    positive on the bases from [Number.EPSILON] to 2^53, the S of every
    module is a number that is not negative: it is not NaN, and the order
    of the result is well defined. (V and A are below 2^53.) *)
Theorem X14_default_S_is_a_number (raw : option Config.t) (added : list SourceFile) :
  (forall k, configured_weight raw k = DEFAULT_WEIGHTS k) ->
  (forall base,
      (Number_EPSILON <=? base)%float = true -> (base <=? 0x1p+53)%float = true ->
      finite_positive (Math_pow base (Analysis.alpha (analyze raw added)))) ->
  Forall (fun m =>
            exact_count (default_V (ModuleMetrics.extras m)) ->
            exact_count (default_A (ModuleMetrics.extras m)) ->
            (0 <=? sphericity m)%float = true /\ is_nan (sphericity m) = false)
         (Analysis.results (analyze raw added)).
Proof.
  intros Hw Hpow. apply Forall_forall. intros m Hm HV HA.
  assert (H : (0 <=? sphericity m)%float = true).
  { rewrite (result_S raw added m Hm).
    destruct (result_V_A raw added m Hm) as [EV EA].
    assert (HwV : spec_V (configured_weight raw) (ModuleMetrics.extras m)
                  = spec_V DEFAULT_WEIGHTS (ModuleMetrics.extras m))
      by (unfold spec_V; now rewrite !Hw).
    assert (HwA : spec_A (configured_weight raw) (ModuleMetrics.extras m)
                  = spec_A DEFAULT_WEIGHTS (ModuleMetrics.extras m))
      by (unfold spec_A; now rewrite !Hw).
    unfold exact_count in HV, HA. rewrite P53_eq in HV, HA.
    rewrite EV, HwV, default_V_exact by exact HV.
    rewrite EA, HwA, default_A_exact by exact HA.
    destruct (AforS_range (default_A (ModuleMetrics.extras m)) HA) as [H1 H2].
    apply div_nonneg; [apply finite_nonneg_of_count|now apply Hpow]. }
  split; [exact H|]. apply nonneg_spec in H. rewrite is_nan_spec.
  destruct (Prim2SF (sphericity m)); try reflexivity; contradiction.
Qed.

(** ** The rating *)

Lemma ltb_true_not_nan x y :
  (x <? y)%float = true -> is_nan x = false /\ is_nan y = false.
Proof.
  rewrite FloatAxioms.ltb_spec, !is_nan_spec. unfold SFltb.
  destruct (Prim2SF x), (Prim2SF y); simpl; try discriminate; auto.
Qed.

Lemma leb_true_not_nan x y :
  (x <=? y)%float = true -> is_nan x = false /\ is_nan y = false.
Proof.
  rewrite FloatAxioms.leb_spec, !is_nan_spec. unfold SFleb.
  destruct (Prim2SF x), (Prim2SF y); simpl; try discriminate; auto.
Qed.

Lemma is_finite_not_nan x : is_finite x = true -> is_nan x = false.
Proof. rewrite is_finite_spec, is_nan_spec. destruct (Prim2SF x); auto; discriminate. Qed.

Lemma ltb_leb_trans x y z :
  (x <? y)%float = true -> (y <=? z)%float = true -> (x <? z)%float = true.
Proof.
  intros H1 H2.
  destruct (ltb_true_not_nan _ _ H1) as [Nx Ny].
  destruct (leb_true_not_nan _ _ H2) as [_ Nz].
  rewrite ltb_ord in * by assumption. rewrite leb_ord in H2 by assumption.
  apply Z.ltb_lt in H1. apply Z.leb_le in H2. apply Z.ltb_lt. lia.
Qed.

Lemma leb_ltb_trans x y z :
  (x <=? y)%float = true -> (y <? z)%float = true -> (x <? z)%float = true.
Proof.
  intros H1 H2.
  destruct (leb_true_not_nan _ _ H1) as [Nx Ny].
  destruct (ltb_true_not_nan _ _ H2) as [_ Nz].
  rewrite ltb_ord in * by assumption. rewrite leb_ord in H1 by assumption.
  apply Z.ltb_lt in H2. apply Z.leb_le in H1. apply Z.ltb_lt. lia.
Qed.

Lemma leb_trans x y z :
  (x <=? y)%float = true -> (y <=? z)%float = true -> (x <=? z)%float = true.
Proof.
  intros H1 H2.
  destruct (leb_true_not_nan _ _ H1) as [Nx Ny].
  destruct (leb_true_not_nan _ _ H2) as [_ Nz].
  rewrite leb_ord in * by assumption.
  apply Z.leb_le in H1, H2. apply Z.leb_le. lia.
Qed.

(** A rating other than [UNKNOWN] is the rating of a finite number under
    thresholds that are there. *)
Lemma rating_known s thresholds :
  rating (Some s) thresholds <> UNKNOWN ->
  is_finite s = true /\ thresholds <> None.
Proof.
  unfold rating. destruct thresholds as [t|]; [|congruence].
  destruct (is_finite s); simpl; [split; congruence|congruence].
Qed.

(** The rating grows with the number. *)
Lemma rating_rank_le s1 s2 thresholds :
  is_finite s1 = true -> is_finite s2 = true -> (s1 <=? s2)%float = true ->
  rank (rating (Some s1) thresholds) <= rank (rating (Some s2) thresholds).
Proof.
  intros F1 F2 Hle. unfold rating. destruct thresholds as [t|]; [|reflexivity].
  rewrite F1, F2. simpl negb. cbv iota.
  destruct (nullish (Run.good t) 10 <? s1)%float eqn:G1.
  - now rewrite (ltb_leb_trans _ _ _ G1 Hle).
  - destruct (nullish (Run.warning t) 3 <? s1)%float eqn:W1.
    + rewrite (ltb_leb_trans _ _ _ W1 Hle).
      destruct (nullish (Run.good t) 10 <? s2)%float; simpl; lia.
    + simpl. lia.
Qed.

(** X15. The rating of a finite S never gets worse when S grows, whatever
    the thresholds are: from [COLLAPSE] over [WARNING] to [GOOD]. *)
Theorem X15_rating_monotone (s1 s2 : float) (thresholds : option Run.Thresholds) :
  is_finite s1 = true -> is_finite s2 = true -> (s1 <=? s2)%float = true ->
  rank (rating (Some s1) thresholds) <= rank (rating (Some s2) thresholds).
Proof. apply rating_rank_le. Qed.

(** X16. When the [good] threshold is not above the [warning] threshold
    (each at its default when absent), no number is rated [WARNING]. *)
Theorem X16_no_warning_band (s : option float) (thresholds : Run.Thresholds) :
  (nullish (Run.good thresholds) 10 <=? nullish (Run.warning thresholds) 3)%float = true ->
  rating s (Some thresholds) <> WARNING.
Proof.
  intros Hgw. unfold rating. destruct s as [s|]; [|discriminate].
  destruct (is_finite s); simpl; [|discriminate].
  destruct (nullish (Run.good thresholds) 10 <? s)%float eqn:G; [discriminate|].
  destruct (nullish (Run.warning thresholds) 3 <? s)%float eqn:W; [|discriminate].
  rewrite (leb_ltb_trans _ _ _ Hgw W) in G. discriminate.
Qed.

Lemma ltb_irrefl x : (x <? x)%float = false.
Proof.
  destruct (is_nan x) eqn:E; [now apply ltb_nan_l|].
  rewrite ltb_ord by assumption. apply Z.ltb_irrefl.
Qed.

(** X17. The thresholds are exclusive bounds: an S equal to the [good]
    threshold is not rated [GOOD], and an S equal to the [warning]
    threshold is not rated [WARNING] (each threshold at its default when
    absent). *)
Theorem X17_thresholds_exclusive (thresholds : Run.Thresholds) :
  rating (Some (nullish (Run.good thresholds) 10%float)) (Some thresholds) <> GOOD
  /\ rating (Some (nullish (Run.warning thresholds) 3%float)) (Some thresholds) <> WARNING.
Proof.
  unfold rating. split.
  - destruct (is_finite _); simpl; [|discriminate].
    rewrite ltb_irrefl. destruct (_ <? _)%float; discriminate.
  - destruct (is_finite _); simpl; [|discriminate].
    rewrite ltb_irrefl. destruct (_ <? _)%float; discriminate.
Qed.

(** ** The report of [run] *)

Lemma annotate_s thresholds r :
  Annotated.s (annotate thresholds r) = sphericity r
  /\ Annotated.rating (annotate thresholds r) = rating (Some (sphericity r)) thresholds.
Proof. split; reflexivity. Qed.

(** X18. [run] rates a module [UNKNOWN] exactly when no thresholds are in
    force or the S of the module is not a finite number. No thresholds are
    in force exactly when neither the configuration that [run] loads nor
    the one that [analyze] loads has the key [thresholds]: the defaults 10
    and 3 stand in for a key that is missing inside [thresholds], not for
    [thresholds] itself. *)
Theorem X18_unknown_rating (rawRun : option Run.Config) (raw : option Config.t)
  (added : list SourceFile) :
  let cfg := Run.loadConfig rawRun in
  let analysis := analyze raw added in
  (thresholdsInForce cfg analysis = None
   <-> Run.thresholds cfg = None /\ Config.thresholds (loadConfig raw) = None)
  /\ Forall (fun a =>
               Annotated.rating a = UNKNOWN
               <-> thresholdsInForce cfg analysis = None \/ is_finite (Annotated.s a) = false)
       (annotated cfg analysis).
Proof.
  intros cfg analysis. split.
  - unfold thresholdsInForce, nullishOr, analysis. cbn [Analysis.thresholds analyze].
    destruct (Run.thresholds cfg); [split; [discriminate|intros [H _]; discriminate]|].
    destruct (Config.thresholds (loadConfig raw)); simpl;
      [split; [discriminate|intros [_ H]; discriminate]|tauto].
  - unfold annotated. apply Forall_forall. intros a Ha.
    apply in_map_iff in Ha. destruct Ha as (r & <- & _).
    destruct (annotate_s (thresholdsInForce cfg analysis) r) as [-> ->].
    unfold rating. destruct (thresholdsInForce cfg analysis) as [t|]; [|tauto].
    destruct (is_finite (sphericity r)); simpl.
    + split; [|intros [H|H]; discriminate].
      destruct (_ <? _)%float; [discriminate|]. destruct (_ <? _)%float; discriminate.
    + tauto.
Qed.

(** The result of [analyze] is ordered by S when every S is a number. *)
Lemma results_StronglySorted raw added :
  Forall (fun m => is_nan (sphericity m) = false) (Analysis.results (analyze raw added)) ->
  StronglySorted (fun a b => (sphericity a <=? sphericity b)%float = true)
    (Analysis.results (analyze raw added)).
Proof.
  intros Hnan. apply Sorted_StronglySorted.
  - intros a b c. apply leb_trans.
  - rewrite results_composed in *.
    apply (Array_sort_Sorted compareFn (fun m => is_nan (sphericity m) = false)).
    + intros x y Hx Hy H. rewrite SortCompare_compareFn in H by assumption.
      now apply ltb_true_leb.
    + intros x y Hx Hy H. rewrite SortCompare_compareFn in H by assumption.
      now apply ltb_false_leb.
    + rewrite Forall_forall in *. intros m Hm. apply Hnan. now apply In_Array_sort.
Qed.

Lemma StronglySorted_map {X Y : Type} (f : X -> Y) (R : X -> X -> Prop)
  (R' : Y -> Y -> Prop) l :
  (forall a b, R a b -> R' (f a) (f b)) ->
  StronglySorted R l -> StronglySorted R' (map f l).
Proof.
  intros HR. induction 1 as [|a l Hl IH Ha]; simpl; constructor; [exact IH|].
  rewrite Forall_forall in *. intros y Hy. apply in_map_iff in Hy.
  destruct Hy as (b & <- & Hb). auto.
Qed.

(** X19. In the list that [run] reports, which is in the order of S, the
    ratings are in order as well: of two modules with a rating other than
    [UNKNOWN], the later one is rated at least as well as the earlier one.
    (Every S is a number.) *)
Theorem X19_report_in_rating_order (rawRun : option Run.Config) (raw : option Config.t)
  (added : list SourceFile) :
  Forall (fun m => is_nan (sphericity m) = false) (Analysis.results (analyze raw added)) ->
  StronglySorted
    (fun a b =>
       Annotated.rating a <> UNKNOWN -> Annotated.rating b <> UNKNOWN ->
       rank (Annotated.rating a) <= rank (Annotated.rating b))
    (annotated (Run.loadConfig rawRun) (analyze raw added)).
Proof.
  intros Hnan. unfold annotated.
  apply (StronglySorted_map _ (fun a b => (sphericity a <=? sphericity b)%float = true));
    [|now apply results_StronglySorted].
  intros a b Hle. cbn [annotate Annotated.rating]. fold (sphericity a) (sphericity b).
  intros Ka Kb. apply rating_known in Ka, Kb.
  apply rating_rank_le; tauto.
Qed.


(** ** The summary of [toMarkdown] *)

Lemma Rating_eqb_eq a b : Rating_eqb a b = true <-> a = b.
Proof. destruct a, b; simpl; split; congruence. Qed.

Lemma count_get_set_same k n acc : count_get k (count_set k n acc) = Some n.
Proof.
  induction acc as [|[k' n'] acc IH]; simpl.
  - now rewrite (proj2 (Rating_eqb_eq k k) eq_refl).
  - destruct (Rating_eqb k' k) eqn:E; simpl; now rewrite E.
Qed.

Lemma count_get_set_other k k' n acc :
  k <> k' -> count_get k' (count_set k n acc) = count_get k' acc.
Proof.
  intros Hne. induction acc as [|[k0 n0] acc IH]; simpl.
  - destruct (Rating_eqb k k') eqn:E; [|reflexivity].
    apply Rating_eqb_eq in E. contradiction.
  - destruct (Rating_eqb k0 k) eqn:E; simpl.
    + apply Rating_eqb_eq in E. subst k0.
      destruct (Rating_eqb k k') eqn:E'; [|reflexivity].
      apply Rating_eqb_eq in E'. contradiction.
    + destruct (Rating_eqb k0 k'); [reflexivity|exact IH].
Qed.

Lemma ratingCounts_from k results : forall acc,
  orZero (count_get k (fold_left tallyRating results acc))
  = orZero (count_get k acc) + rated k results.
Proof.
  unfold rated. induction results as [|c results IH]; intros acc; simpl; [lia|].
  rewrite IH. unfold tallyRating.
  destruct (Rating_eqb (Annotated.rating c) k) eqn:E; simpl.
  - apply Rating_eqb_eq in E. rewrite <- E, count_get_set_same. simpl. lia.
  - rewrite count_get_set_other; [lia|].
    intros H. apply Rating_eqb_eq in H. congruence.
Qed.

(** X20. The counts of the summary of [toMarkdown] are the numbers of
    records of each rating. The summary has a line for [GOOD], [WARNING]
    and [COLLAPSE] and none for [UNKNOWN]: its three numbers add up to the
    number of records less those rated [UNKNOWN]. *)
Theorem X20_summary_counts (results : list Annotated.t) :
  (forall k, orZero (count_get k (ratingCounts results)) = rated k results)
  /\ orZero (count_get GOOD (ratingCounts results))
     + orZero (count_get WARNING (ratingCounts results))
     + orZero (count_get COLLAPSE (ratingCounts results))
     + rated UNKNOWN results
     = length results.
Proof.
  assert (H : forall k, orZero (count_get k (ratingCounts results)) = rated k results)
    by (intros k; unfold ratingCounts; now rewrite ratingCounts_from).
  split; [exact H|]. rewrite !H. clear H. unfold rated.
  induction results as [|c results IH]; simpl; [reflexivity|].
  destruct (Annotated.rating c); simpl; lia.
Qed.

(** ** What [run] prints and writes *)

Lemma writes_app out out' : writes (out ++ out') = writes out ++ writes out'.
Proof. unfold writes. apply flat_map_app. Qed.

Lemma results_nil raw added :
  removeExcluded (loadConfig raw) added = [] -> Analysis.results (analyze raw added) = [].
Proof.
  intros H. unfold analyze, tallied. cbn [Analysis.results]. rewrite H. reflexivity.
Qed.

(** X21. Each line of the Markdown report carries the rating that [run]
    gave the record, although [toMarkdown] rates anew and by the thresholds
    of the configuration of [run] alone. (The configuration that [run]
    loads has the key [thresholds] whenever the one that [analyze] loads
    has it: both read the same file.) *)
Theorem X21_hotspot_rating (Number_toString : float -> string)
  (Number_toFixed : float -> nat -> string)
  (rawRun : option Run.Config) (raw : option Config.t) (added : list SourceFile) :
  let cfg := Run.loadConfig rawRun in
  let analysis := analyze raw added in
  Run.thresholds cfg <> None \/ Analysis.thresholds analysis = None ->
  Forall (fun a =>
            rating (Some (Annotated.s a)) (Run.thresholds cfg) = Annotated.rating a
            /\ hotspot Number_toString Number_toFixed cfg a
               = [ ("- **module** `" ++ Annotated.file a ++ "` — S="
                    ++ Number_toFixed (Annotated.s a) 3
                    ++ " — **" ++ Rating_toString (Annotated.rating a) ++ "**")%string;
                   ("  - V: " ++ Number_toString (Annotated.V a)
                    ++ ", A: " ++ Number_toString (Annotated.A a))%string ])
         (annotated cfg analysis).
Proof.
  intros cfg analysis Hsame.
  assert (Ht : thresholdsInForce cfg analysis = Run.thresholds cfg).
  { unfold thresholdsInForce, nullishOr.
    destruct (Run.thresholds cfg); [reflexivity|].
    destruct Hsame as [H| ->]; [congruence|reflexivity]. }
  unfold annotated. rewrite Ht. apply Forall_forall. intros a Ha.
  apply in_map_iff in Ha. destruct Ha as (r & <- & _).
  unfold hotspot. cbn [annotate Annotated.s Annotated.rating Annotated.file
                       Annotated.V Annotated.A nullish].
  split; reflexivity.
Qed.

Lemma rated_unknown_only k results :
  Forall (fun a => Annotated.rating a = UNKNOWN) results -> k <> UNKNOWN ->
  rated k results = 0.
Proof.
  intros H Hk. unfold rated. induction H as [|a results Ha _ IH]; [reflexivity|].
  simpl. rewrite Ha. destruct k; try congruence; exact IH.
Qed.

(** X22. A configuration file without the key [thresholds]: the Markdown
    report announces the thresholds 10 and 3 in its header, and yet no
    record is rated by them: every hotspot line reads [UNKNOWN] and the
    three counts of the summary are 0. *)
Theorem X22_report_without_thresholds (Number_toString : float -> string)
  (Number_toFixed : float -> nat -> string)
  (rawRun : option Run.Config) (raw : option Config.t) (added : list SourceFile) :
  let cfg := Run.loadConfig rawRun in
  let analysis := analyze raw added in
  Run.thresholds cfg = None -> Config.thresholds (loadConfig raw) = None ->
  toMarkdown Number_toString Number_toFixed (annotated cfg analysis) cfg
  = String.concat LF
      ([ "# Information Sphere Report";
         ("Alpha: " ++ Number_toString (nullish (Run.alpha cfg) alpha_1_8))%string;
         ("Thresholds: good > " ++ Number_toString 10%float
          ++ ", warning > " ++ Number_toString 3%float)%string;
         "";
         "## Hotspots (lowest sphericity first)" ]
       ++ flat_map (fun a =>
                      [ ("- **module** `" ++ Annotated.file a ++ "` — S="
                         ++ Number_toFixed (Annotated.s a) 3 ++ " — **UNKNOWN**")%string;
                        ("  - V: " ++ Number_toString (Annotated.V a)
                         ++ ", A: " ++ Number_toString (Annotated.A a))%string ])
                   (annotated cfg analysis)
       ++ [ ""; "## Summary";
            ("- Good: " ++ Number_toString 0%float)%string;
            ("- Warning: " ++ Number_toString 0%float)%string;
            ("- Collapse: " ++ Number_toString 0%float)%string ]).
Proof.
  intros cfg analysis Hrun Hraw.
  assert (Hu : Forall (fun a => Annotated.rating a = UNKNOWN) (annotated cfg analysis)).
  { unfold annotated, thresholdsInForce, analysis. cbn [Analysis.thresholds analyze].
    rewrite Hrun, Hraw. apply Forall_forall. intros a Ha.
    apply in_map_iff in Ha. destruct Ha as (r & <- & _). reflexivity. }
  assert (Hc : forall k, k <> UNKNOWN ->
                 orZero (count_get k (ratingCounts (annotated cfg analysis))) = 0).
  { intros k Hk. unfold ratingCounts. rewrite ratingCounts_from.
    now rewrite (rated_unknown_only k _ Hu Hk). }
  unfold toMarkdown. cbv zeta.
  rewrite !Hc by discriminate.
  rewrite (flat_map_ext (hotspot Number_toString Number_toFixed cfg)
             (fun a =>
                [ ("- **module** `" ++ Annotated.file a ++ "` — S="
                   ++ Number_toFixed (Annotated.s a) 3 ++ " — **UNKNOWN**")%string;
                  ("  - V: " ++ Number_toString (Annotated.V a)
                   ++ ", A: " ++ Number_toString (Annotated.A a))%string ]))
    by (intros a; unfold hotspot; rewrite Hrun; reflexivity).
  rewrite Hrun. cbn [chain nullish]. rewrite <- !app_assoc. reflexivity.
Qed.

(** X23. When no file is added, or every added file is excluded, [run]
    prints its heading and the notice that no source file was found, and
    writes no report. *)
Theorem X23_run_without_modules (Number_toString : float -> string)
  (Number_toFixed : float -> nat -> string) (path_resolve : string -> string)
  (JSON_stringify : float -> list Annotated.t -> string)
  (rawRun : option Run.Config) (raw : option Config.t) (added : list SourceFile) :
  (forall sf, In sf added -> excluded (loadConfig raw) (path_relative (getFilePath sf))) ->
  run Number_toString Number_toFixed path_resolve JSON_stringify rawRun raw added
  = [ console_log "";
      console_log "Information Sphere — Ranked hotspots (lowest S first)";
      console_log ("alpha = " ++ Number_toString (Analysis.alpha (analyze raw added)))%string;
      console_log "";
      console_log
        "No source files found by the analyzer. Check sphere.config.json include patterns." ].
Proof.
  intros Hex.
  assert (Hnil : removeExcluded (loadConfig raw) added = []).
  { destruct (removeExcluded (loadConfig raw) added) as [|sf l] eqn:E; [reflexivity|].
    assert (Hin : In sf (removeExcluded (loadConfig raw) added)) by (rewrite E; now left).
    apply In_removeExcluded in Hin. destruct Hin as [Hin Hn]. now apply Hex in Hin. }
  unfold run, annotated. rewrite (results_nil raw added Hnil). reflexivity.
Qed.

Lemma writes_moduleLines (Number_toString : float -> string)
  (Number_toFixed : float -> nat -> string) l :
  writes (flat_map (moduleLines Number_toString Number_toFixed) l) = [].
Proof. induction l as [|a l IH]; simpl; [reflexivity|exact IH]. Qed.

(** X24. When at least one module is analysed, [run] writes the JSON
    report and then the Markdown report, each at its resolved path and
    only if the report configuration gives it a path that is not empty;
    it writes nothing else. A configuration without the key [report]
    stands for the paths [sphere-report.json] and [sphere-report.md]. *)
Theorem X24_run_writes (Number_toString : float -> string)
  (Number_toFixed : float -> nat -> string) (path_resolve : string -> string)
  (JSON_stringify : float -> list Annotated.t -> string)
  (rawRun : option Run.Config) (raw : option Config.t) (added : list SourceFile) :
  let cfg := Run.loadConfig rawRun in
  let analysis := analyze raw added in
  let reportCfg := nullish (Run.report cfg) Run.defaultReport in
  Analysis.results analysis <> [] ->
  writes (run Number_toString Number_toFixed path_resolve JSON_stringify rawRun raw added)
  = match truthy (Run.json reportCfg) with
    | Some json =>
        [ (path_resolve json,
           JSON_stringify (Analysis.alpha analysis) (annotated cfg analysis)) ]
    | None => []
    end
    ++ match truthy (Run.markdown reportCfg) with
       | Some markdown =>
           [ (path_resolve markdown,
              toMarkdown Number_toString Number_toFixed (annotated cfg analysis) cfg) ]
       | None => []
       end.
Proof.
  intros cfg analysis reportCfg Hne. unfold run. fold cfg analysis.
  assert (Hlen : Nat.eqb (length (annotated cfg analysis)) 0 = false).
  { unfold annotated. rewrite length_map. apply Nat.eqb_neq.
    destruct (Analysis.results analysis); [congruence|discriminate]. }
  rewrite Hlen.
  change (match Run.report cfg with
          | Some report => report
          | None => Run.defaultReport
          end) with reportCfg.
  destruct (truthy (Run.json reportCfg)) as [json|];
    destruct (truthy (Run.markdown reportCfg)) as [markdown|];
    rewrite ?writes_app, writes_moduleLines; reflexivity.
Qed.

End Engine.

(** * The engine on the small corpus *)

Local Abbreviation example :=
  (analyze cwd_relative test_minimatch pow_2 (Some config) corpus).

Local Abbreviation initial :=
  (initModules cwd_relative (removeExcluded cwd_relative test_minimatch config corpus)).

(** The corpus through the engine: [src/a.ts] makes five calls, one to
    itself, one into [src/b.ts] and three more that count as external (a
    library, an unresolved callee, a file that the exclude pattern removed);
    [test/c.ts] is not in the result. *)
Example example_results :
  Analysis.results example = [metrics_a; metrics_b].
Proof. vm_compute. reflexivity. Qed.

(** [src/a.ts] alone, without a configuration file: the default weights
    and the default alpha. *)
Example default_results :
  Analysis.results (analyze cwd_relative test_minimatch pow_2 None [file_a])
  = [metrics_a_default].
Proof. vm_compute. reflexivity. Qed.

(** The order of [Object.entries]: the keys that are array indices by
    ascending index, then the others as they were inserted. [07], [1.5]
    and 2^32 - 1 are not array indices. *)
Example entries_order :
  map fst
    (Object_entries
       (map (fun k => (k, emptyAccumulator))
          ["b"; "10"; "a"; "4294967295"; "7"; "07"; "0"; "1.5"; "4294967294"]))
  = ["0"; "7"; "10"; "4294967294"; "b"; "a"; "4294967295"; "07"; "1.5"].
Proof. vm_compute. reflexivity. Qed.

(** Scenario A of the specification: one private function that calls
    itself, default weights: V = 1 + 1 = 2, A = 0, and the power is taken
    of [Number.EPSILON]. *)
Example scenario_A (pow : float -> float -> float) :
  map (fun m => (ModuleMetrics.V m, ModuleMetrics.A m, ModuleMetrics.s m))
      (Analysis.results
         (analyze cwd_relative test_minimatch pow None
            [ {| getFilePath := "/cwd/src/m.ts";
                 getExportedDeclarations_keys := [];
                 getImportDeclarations := [];
                 getClasses := [];
                 getFunctions :=
                   [ {| isExported := false; function_getBodyText := Some "return f();" |} ];
                 getCallExpressions :=
                   [ {| getExpression := Identifier (Some (declaredIn "/cwd/src/m.ts")) |} ];
                 getFullText := "function f() { return f(); }" |} ]))
  = [ (2%float, 0%float, Some (2 / pow Number_EPSILON alpha_1_8)%float) ].
Proof. vm_compute. reflexivity. Qed.

(** Scenario B of the specification: three exports, two public methods, no
    calls, default weights: V = 0 and A = 3 * 3 + 2 * 2 = 13. *)
Example scenario_B (pow : float -> float -> float) :
  map (fun m => (ModuleMetrics.V m, ModuleMetrics.A m))
      (Analysis.results
         (analyze cwd_relative test_minimatch pow None
            [ {| getFilePath := "/cwd/src/m.ts";
                 getExportedDeclarations_keys := ["a"; "b"; "c"];
                 getImportDeclarations := [];
                 getClasses :=
                   [ {| getMethods :=
                          [ {| hasPublicKeyword := true; hasPrivateKeyword := false;
                               hasProtectedKeyword := false; method_getBodyText := Some "" |};
                            {| hasPublicKeyword := false; hasPrivateKeyword := false;
                               hasProtectedKeyword := false; method_getBodyText := None |} ];
                        getProperties_length := 0;
                        getConstructors_length := 0 |} ];
                 getFunctions := [];
                 getCallExpressions := [];
                 getFullText := "" |} ]))
  = [ (0%float, 13%float) ].
Proof. vm_compute. reflexivity. Qed.

(** Scenario D of the specification: a call from [src/a.ts] into the
    excluded [test/c.ts] counts as external for the caller and leaves every
    incoming counter as it was. *)
Example scenario_D :
  classify cwd_relative "src/a.ts" call_excluded = CrossModule "test/c.ts"
  /\ lookup "test/c.ts" initial = None
  /\ map (fun kv => (fst kv, callsOut_external (snd kv),
                     incomingInternal (snd kv), incomingExternal (snd kv)))
         (tallyCall cwd_relative "src/a.ts" initial call_excluded)
     = [ ("src/a.ts", 1, 0, 0); ("src/b.ts", 0, 0, 0) ].
Proof. repeat split; vm_compute; reflexivity. Qed.

(** A chain [a.b.c()] of which only [a] has a symbol: the fallback reads the
    object [a.b] of the outermost access, not the left-most [a], and the
    call is unresolved, while the symbol of [a] resolves to [src/b.ts]. *)
Example resolve_chain :
  resolveCallTargetFile cwd_relative call_chain = TargetUndefined
  /\ symbolTarget cwd_relative (getSymbol (leftMost (getExpression call_chain)))
     = TargetFile "src/b.ts".
Proof. split; reflexivity. Qed.

(** * The claims on the small corpus *)

(** C2 as stated fails. The base that replaces a zero A is
    [Number.EPSILON], and [Number.MIN_VALUE] is a smaller positive number.
    And with weights that are all positive and a positive alpha, a module
    with two private functions has V = +infinity, so that S is not a finite
    number whatever the power is. *)
Lemma C2_counterexample :
  AforS 0 = Number_EPSILON
  /\ (0 <? Number_MIN_VALUE)%float = true
  /\ (Number_MIN_VALUE <? Number_EPSILON)%float = true
  /\ forallb (fun k => (0 <? configured_weight (Some config_large) k)%float
                       && is_finite (configured_weight (Some config_large) k))
       [privateMethod; internalCall; internalType; exportedSymbol; publicMethod;
        externalImport; outgoingCall] = true
  /\ (forall pow,
         (0 <? Analysis.alpha
                 (analyze cwd_relative test_minimatch pow (Some config_large) [file_private]))%float
         = true
         /\ map ModuleMetrics.V
              (Analysis.results
                 (analyze cwd_relative test_minimatch pow (Some config_large) [file_private]))
            = [infinity]
         /\ map (fun m => option_map is_finite (ModuleMetrics.s m))
              (Analysis.results
                 (analyze cwd_relative test_minimatch pow (Some config_large) [file_private]))
            = [Some false]).
Proof.
  do 4 (split; [reflexivity|]).
  intros pow. split; [reflexivity|]. split; [reflexivity|].
  assert (H : map ModuleMetrics.s
                (Analysis.results
                   (analyze cwd_relative test_minimatch pow (Some config_large) [file_private]))
              = [Some (infinity / pow Number_EPSILON alpha_1_8)%float])
    by (vm_compute; reflexivity).
  rewrite <- (map_map ModuleMetrics.s (option_map is_finite)), H. simpl.
  now rewrite div_infinity_not_finite.
Qed.

(** C3 on [src/a.ts]: one call of five is internal. *)
Lemma C3_cohesion_witness :
  In metrics_a (Analysis.results example)
  /\ exact_count (callsOut_total (ModuleMetrics.extras metrics_a))
  /\ exists c,
       ModuleMetrics.cohesion metrics_a = Some c
       /\ (0 <=? c)%float = true /\ (c <=? 1)%float = true.
Proof.
  assert (Hin : In metrics_a (Analysis.results example))
    by (rewrite example_results; left; reflexivity).
  assert (Hex : exact_count (callsOut_total (ModuleMetrics.extras metrics_a)))
    by reflexivity.
  split; [exact Hin|]. split; [exact Hex|].
  destruct (C3_cohesion cwd_relative test_minimatch pow_2 (Some config) corpus
              metrics_a Hin Hex) as (c & Hc & H0 & H1 & _).
  exists c. auto.
Defined.



(** C5 on the first call of [src/a.ts] into [src/b.ts]. *)
Lemma C5_call_tally_witness :
  map fst initial = map fst (tallied cwd_relative test_minimatch config corpus)
  /\ lookup "src/a.ts" initial = Some emptyAccumulator
  /\ classify cwd_relative "src/a.ts" call_cross = CrossModule "src/b.ts"
  /\ exists e',
       lookup "src/a.ts" (tallyCall cwd_relative "src/a.ts" initial call_cross) = Some e'
       /\ callsOut_total e' = 1
       /\ callsOut_external e' = 1.
Proof.
  split; [reflexivity|]. split; [reflexivity|]. split; [reflexivity|].
  destruct (C5_call_tally cwd_relative test_minimatch config corpus initial
              "src/a.ts" call_cross emptyAccumulator eq_refl eq_refl)
    as [(e' & He' & Ht & Hx) _].
  exists e'. auto.
Defined.

(** C6 on the call of [src/a.ts] to itself. *)
Lemma C6_self_call_witness :
  lookup "src/a.ts" initial = Some emptyAccumulator
  /\ resolveCallTargetFile cwd_relative call_self = TargetFile "src/a.ts"
  /\ lookup "src/a.ts" (tallyCall cwd_relative "src/a.ts" initial call_self)
     = Some (set_callsOut_internal 1 (set_callsOut_total 1 emptyAccumulator)).
Proof.
  split; [reflexivity|]. split; [reflexivity|].
  exact (proj1 (C6_self_call cwd_relative initial
                  "src/a.ts" call_self emptyAccumulator eq_refl eq_refl)).
Defined.

(** C7 as stated fails: the callee [a.b] has no symbol, the fallback [a] has
    one, and the call is unresolved all the same, because the symbol has no
    declaration. *)
Lemma C7_counterexample :
  getSymbol (getExpression call_undeclared) = None
  /\ getSymbol (leftMost (getExpression call_undeclared)) = Some undeclared
  /\ resolveCallTargetFile cwd_relative call_undeclared = TargetUndefined.
Proof. repeat split; reflexivity. Qed.

(** C7, as amended, on the call [b.helper()] of [src/a.ts]. *)
Lemma C7_member_access_fallback_witness :
  leftMost (PropertyAccessExpression None (Identifier (Some (declaredIn "/cwd/src/b.ts"))))
  = Identifier (Some (declaredIn "/cwd/src/b.ts"))
  /\ resolveCallTargetFile cwd_relative call_cross = TargetFile "src/b.ts".
Proof.
  split; [reflexivity|].
  destruct (C7_member_access_fallback cwd_relative
              (Identifier (Some (declaredIn "/cwd/src/b.ts"))) eq_refl) as [H _].
  exact H.
Defined.

(** C8 on [src/a.ts]: two bodies with a pattern, two occurrences in the
    text. *)
Lemma C8_outgoing_heuristic_witness :
  NoDup (discovered cwd_relative test_minimatch (Some config) corpus)
  /\ In file_a (removeExcluded cwd_relative test_minimatch (loadConfig (Some config)) corpus)
  /\ In metrics_a (Analysis.results example)
  /\ ModuleMetrics.id metrics_a = cwd_relative (getFilePath file_a)
  /\ outgoingCallHeuristic (ModuleMetrics.extras metrics_a) = spec_outgoingCallHeuristic file_a.
Proof.
  assert (Hnd : NoDup (discovered cwd_relative test_minimatch (Some config) corpus)).
  { apply NoDup_cons; [intros [H|[]]; discriminate H|].
    apply NoDup_cons; [intros []|apply NoDup_nil]. }
  assert (Hsf : In file_a
                  (removeExcluded cwd_relative test_minimatch (loadConfig (Some config)) corpus))
    by (left; reflexivity).
  assert (Hin : In metrics_a (Analysis.results example))
    by (rewrite example_results; left; reflexivity).
  split; [exact Hnd|]. split; [exact Hsf|]. split; [exact Hin|]. split; [reflexivity|].
  exact (C8_outgoing_heuristic cwd_relative test_minimatch pow_2 (Some config) corpus
           file_a metrics_a Hnd Hsf Hin eq_refl).
Defined.

(** C9 on [src/a.ts] and on its call into a library. *)
Lemma C9_calls_partition_witness :
  lookup "src/a.ts" initial = Some emptyAccumulator
  /\ callsOut_internal (ModuleMetrics.extras metrics_a)
     + callsOut_external (ModuleMetrics.extras metrics_a)
     = callsOut_total (ModuleMetrics.extras metrics_a)
  /\ exists e',
       lookup "src/a.ts" (tallyCall cwd_relative "src/a.ts" initial call_library) = Some e'
       /\ callsOut_total e' = 1.
Proof.
  destruct (C9_calls_partition cwd_relative test_minimatch pow_2 (Some config) corpus)
    as [Hall Hstep].
  split; [reflexivity|]. split.
  - rewrite Forall_forall in Hall. apply Hall.
    rewrite example_results. left. reflexivity.
  - destruct (Hstep initial "src/a.ts" call_library emptyAccumulator eq_refl)
      as [(e' & He' & Ht & _) _].
    exists e'. auto.
Defined.

(** * The further properties on the small corpus *)

(** X2 on a symbol whose first declaration has no source file and whose
    second is in [src/b.ts]: the declaration in a package, the third, does
    not make the call external. *)
Lemma X2_first_declaration_decides_witness :
  getSymbol (getExpression call_merged) = Some merged
  /\ resolveCallTargetFile cwd_relative call_merged = TargetFile "src/b.ts".
Proof.
  split; [reflexivity|].
  exact (X2_first_declaration_decides cwd_relative call_merged merged
           [ {| getSourceFile := None |} ]
           [ {| getSourceFile := Some "/cwd/node_modules/lib/index.d.ts" |} ]
           {| getSourceFile := Some "/cwd/src/b.ts" |} "/cwd/src/b.ts"
           eq_refl eq_refl
           (fun d' H => match H with
                        | or_introl E => match E with eq_refl => eq_refl end
                        | or_intror F => match F with end
                        end)
           eq_refl).
Defined.

(** X5 on [src/a.ts]: two exports, one external import of two, and two
    public members, a method without keyword and an exported function. *)
Lemma X5_surface_counters_witness :
  NoDup (discovered cwd_relative test_minimatch (Some config) corpus)
  /\ In file_a (removeExcluded cwd_relative test_minimatch (loadConfig (Some config)) corpus)
  /\ In metrics_a (Analysis.results example)
  /\ ModuleMetrics.id metrics_a = cwd_relative (getFilePath file_a)
  /\ exportedCount (ModuleMetrics.extras metrics_a) = 2
  /\ externalImports (ModuleMetrics.extras metrics_a) = 1
  /\ publicMethodCount (ModuleMetrics.extras metrics_a) = 1 + 1.
Proof.
  assert (Hnd : NoDup (discovered cwd_relative test_minimatch (Some config) corpus)).
  { apply NoDup_cons; [intros [H|[]]; discriminate H|].
    apply NoDup_cons; [intros []|apply NoDup_nil]. }
  assert (Hsf : In file_a
                  (removeExcluded cwd_relative test_minimatch (loadConfig (Some config)) corpus))
    by (left; reflexivity).
  assert (Hin : In metrics_a (Analysis.results example))
    by (rewrite example_results; left; reflexivity).
  split; [exact Hnd|]. split; [exact Hsf|]. split; [exact Hin|]. split; [reflexivity|].
  exact (X5_surface_counters cwd_relative test_minimatch pow_2 (Some config) corpus
           file_a metrics_a Hnd Hsf Hin eq_refl).
Defined.

(** X6 on [src/a.ts]: a private method and a function that is not
    exported, four members in all, one property and one constructor. *)
Lemma X6_volume_counters_witness :
  NoDup (discovered cwd_relative test_minimatch (Some config) corpus)
  /\ In file_a (removeExcluded cwd_relative test_minimatch (loadConfig (Some config)) corpus)
  /\ In metrics_a (Analysis.results example)
  /\ ModuleMetrics.id metrics_a = cwd_relative (getFilePath file_a)
  /\ privateMethodCount (ModuleMetrics.extras metrics_a) = 1 + 1
  /\ publicMethodCount (ModuleMetrics.extras metrics_a)
     + privateMethodCount (ModuleMetrics.extras metrics_a) = 2 + 2
  /\ internalTypeCount (ModuleMetrics.extras metrics_a) = 2.
Proof.
  assert (Hnd : NoDup (discovered cwd_relative test_minimatch (Some config) corpus)).
  { apply NoDup_cons; [intros [H|[]]; discriminate H|].
    apply NoDup_cons; [intros []|apply NoDup_nil]. }
  assert (Hsf : In file_a
                  (removeExcluded cwd_relative test_minimatch (loadConfig (Some config)) corpus))
    by (left; reflexivity).
  assert (Hin : In metrics_a (Analysis.results example))
    by (rewrite example_results; left; reflexivity).
  split; [exact Hnd|]. split; [exact Hsf|]. split; [exact Hin|]. split; [reflexivity|].
  exact (X6_volume_counters cwd_relative test_minimatch pow_2 (Some config) corpus
           file_a metrics_a Hnd Hsf Hin eq_refl).
Defined.

(** X11 on [src/a.ts], one internal call of five: the cohesion is at
    neither end. *)
Lemma X11_cohesion_ends_witness :
  In metrics_a (Analysis.results example)
  /\ exact_count (callsOut_total (ModuleMetrics.extras metrics_a))
  /\ (ModuleMetrics.cohesion metrics_a = Some 1%float
      <-> callsOut_external (ModuleMetrics.extras metrics_a) = 0)
  /\ (ModuleMetrics.cohesion metrics_a = Some 0%float
      <-> callsOut_internal (ModuleMetrics.extras metrics_a) = 0
          /\ callsOut_total (ModuleMetrics.extras metrics_a) <> 0).
Proof.
  assert (Hin : In metrics_a (Analysis.results example))
    by (rewrite example_results; left; reflexivity).
  assert (Hex : exact_count (callsOut_total (ModuleMetrics.extras metrics_a)))
    by reflexivity.
  split; [exact Hin|]. split; [exact Hex|].
  exact (X11_cohesion_ends cwd_relative test_minimatch pow_2 (Some config) corpus
           metrics_a Hin Hex).
Defined.

(** X12 on [src/a.ts] without a configuration file: V = 2 + 1 + 2 * 2 = 7
    and A = 3 * 2 + 2 * 2 + 2 * 1 + 2 * 4 + 2 * 4 = 28. *)
Lemma X12_default_weights_exact_witness :
  In metrics_a_default
     (Analysis.results (analyze cwd_relative test_minimatch pow_2 None [file_a]))
  /\ exact_count (default_V (ModuleMetrics.extras metrics_a_default))
  /\ exact_count (default_A (ModuleMetrics.extras metrics_a_default))
  /\ ModuleMetrics.V metrics_a_default = of_count 7
  /\ ModuleMetrics.A metrics_a_default = of_count 28.
Proof.
  assert (Hin : In metrics_a_default
                   (Analysis.results (analyze cwd_relative test_minimatch pow_2 None [file_a])))
    by (rewrite default_results; left; reflexivity).
  assert (HV : exact_count (default_V (ModuleMetrics.extras metrics_a_default)))
    by reflexivity.
  assert (HA : exact_count (default_A (ModuleMetrics.extras metrics_a_default)))
    by reflexivity.
  split; [exact Hin|]. split; [exact HV|]. split; [exact HA|].
  destruct (X12_default_weights_exact cwd_relative test_minimatch pow_2 None [file_a]
              metrics_a_default (fun k => eq_refl) Hin) as [H1 H2].
  split; [exact (H1 HV)|exact (H2 HA)].
Defined.

(** X13 on [src/a.ts] without a configuration file: the default weights
    are finite and positive. *)
Lemma X13_V_A_not_negative_witness :
  (forall k, finite_nonneg (configured_weight None k))
  /\ Forall (fun m =>
               (0 <=? ModuleMetrics.V m)%float = true
               /\ (0 <=? ModuleMetrics.A m)%float = true)
       (Analysis.results (analyze cwd_relative test_minimatch pow_2 None [file_a])).
Proof.
  assert (Hw : forall k, finite_nonneg (configured_weight None k))
    by (intros k; destruct k; split; reflexivity).
  split; [exact Hw|].
  exact (X13_V_A_not_negative cwd_relative test_minimatch pow_2 None [file_a] Hw).
Defined.

(** X14 on [src/a.ts] without a configuration file, with the power taken
    at the exponent 0. *)
Lemma X14_default_S_is_a_number_witness :
  (forall k, configured_weight None k = DEFAULT_WEIGHTS k)
  /\ (forall base,
         (Number_EPSILON <=? base)%float = true -> (base <=? 0x1p+53)%float = true ->
         finite_positive
           (pow_0 base
              (Analysis.alpha (analyze cwd_relative test_minimatch pow_0 None [file_a]))))
  /\ Forall (fun m =>
               exact_count (default_V (ModuleMetrics.extras m))
               /\ exact_count (default_A (ModuleMetrics.extras m))
               /\ (0 <=? sphericity m)%float = true
               /\ is_nan (sphericity m) = false)
       (Analysis.results (analyze cwd_relative test_minimatch pow_0 None [file_a])).
Proof.
  assert (Hw : forall k, configured_weight None k = DEFAULT_WEIGHTS k)
    by (intros k; destruct k; reflexivity).
  assert (Hp : forall base,
             (Number_EPSILON <=? base)%float = true -> (base <=? 0x1p+53)%float = true ->
             finite_positive
               (pow_0 base
                  (Analysis.alpha (analyze cwd_relative test_minimatch pow_0 None [file_a]))))
    by (intros base _ _; split; reflexivity).
  split; [exact Hw|]. split; [exact Hp|].
  pose proof (X14_default_S_is_a_number cwd_relative test_minimatch pow_0 None [file_a]
                Hw Hp) as HX.
  apply Forall_forall. intros m Hm. rewrite Forall_forall in HX.
  assert (HV : exact_count (default_V (ModuleMetrics.extras m)))
    by (destruct Hm as [<-|[]]; reflexivity).
  assert (HA : exact_count (default_A (ModuleMetrics.extras m)))
    by (destruct Hm as [<-|[]]; reflexivity).
  split; [exact HV|]. split; [exact HA|]. exact (HX m Hm HV HA).
Defined.

(** X15 on 2 and 12 under the default thresholds 10 and 3: [COLLAPSE]
    and [GOOD]. *)
Lemma X15_rating_monotone_witness :
  is_finite 2 = true /\ is_finite 12 = true /\ (2 <=? 12)%float = true
  /\ rank (rating (Some 2%float) (Some {| Run.good := None; Run.warning := None |}))
     <= rank (rating (Some 12%float) (Some {| Run.good := None; Run.warning := None |})).
Proof.
  split; [reflexivity|]. split; [reflexivity|]. split; [reflexivity|].
  exact (X15_rating_monotone 2 12 (Some {| Run.good := None; Run.warning := None |})
           eq_refl eq_refl eq_refl).
Defined.

(** X16 on the thresholds [good = 3], [warning = 10]: 5 is rated [GOOD],
    not [WARNING]. *)
Lemma X16_no_warning_band_witness :
  (nullish (Run.good thresholds_swapped) 10 <=? nullish (Run.warning thresholds_swapped) 3)%float
  = true
  /\ rating (Some 5%float) (Some thresholds_swapped) <> WARNING.
Proof.
  split; [reflexivity|].
  exact (X16_no_warning_band (Some 5%float) thresholds_swapped eq_refl).
Defined.

(** X19 on the corpus, without a configuration file for [run]. *)
Lemma X19_report_in_rating_order_witness :
  Forall (fun m => is_nan (sphericity m) = false) (Analysis.results example)
  /\ StronglySorted
       (fun a b =>
          Annotated.rating a <> UNKNOWN -> Annotated.rating b <> UNKNOWN ->
          rank (Annotated.rating a) <= rank (Annotated.rating b))
       (annotated (Run.loadConfig None) example).
Proof.
  assert (Hnan : Forall (fun m => is_nan (sphericity m) = false) (Analysis.results example))
    by (rewrite example_results; repeat constructor).
  split; [exact Hnan|].
  exact (X19_report_in_rating_order cwd_relative test_minimatch pow_2 None (Some config)
           corpus Hnan).
Defined.

(** X21 on the corpus, without a configuration file for [run]: the
    default thresholds are in force. *)
Lemma X21_hotspot_rating_witness :
  Run.thresholds (Run.loadConfig None) <> None
  /\ Forall (fun a =>
               rating (Some (Annotated.s a)) (Run.thresholds (Run.loadConfig None))
               = Annotated.rating a)
       (annotated (Run.loadConfig None) example).
Proof.
  assert (H : Run.thresholds (Run.loadConfig None) <> None) by discriminate.
  split; [exact H|].
  pose proof (X21_hotspot_rating cwd_relative test_minimatch pow_2 show_number show_fixed
                None (Some config) corpus (or_introl H)) as HX.
  apply Forall_forall. intros a Ha.
  rewrite Forall_forall in HX. exact (proj1 (HX a Ha)).
Defined.

(** X22 on the corpus under [config], which has no key [thresholds]. *)
Lemma X22_report_without_thresholds_witness :
  Run.thresholds (Run.loadConfig (Some run_config)) = None
  /\ Config.thresholds (loadConfig (Some config)) = None
  /\ toMarkdown show_number show_fixed
       (annotated (Run.loadConfig (Some run_config)) example)
       (Run.loadConfig (Some run_config))
     = String.concat LF
         [ "# Information Sphere Report";
           "Alpha: <number>";
           "Thresholds: good > <number>, warning > <number>";
           "";
           "## Hotspots (lowest sphericity first)";
           "- **module** `src/a.ts` — S=<fixed> — **UNKNOWN**";
           "  - V: <number>, A: <number>";
           "- **module** `src/b.ts` — S=<fixed> — **UNKNOWN**";
           "  - V: <number>, A: <number>";
           "";
           "## Summary";
           "- Good: <number>";
           "- Warning: <number>";
           "- Collapse: <number>" ].
Proof.
  split; [reflexivity|]. split; [reflexivity|].
  rewrite (X22_report_without_thresholds cwd_relative test_minimatch pow_2 show_number
             show_fixed (Some run_config) (Some config) corpus eq_refl eq_refl).
  reflexivity.
Defined.

(** X23 on the one file [test/c.ts], which the pattern [test/**] excludes. *)
Lemma X23_run_without_modules_witness :
  excluded test_minimatch (loadConfig (Some config)) (cwd_relative (getFilePath file_c))
  /\ run cwd_relative test_minimatch pow_2 show_number show_fixed cwd_resolve show_json
       None (Some config) [file_c]
     = [ console_log "";
         console_log "Information Sphere — Ranked hotspots (lowest S first)";
         console_log "alpha = <number>";
         console_log "";
         console_log
           "No source files found by the analyzer. Check sphere.config.json include patterns." ].
Proof.
  assert (H : excluded test_minimatch (loadConfig (Some config))
                (cwd_relative (getFilePath file_c)))
    by (exists ["test/**"]; split; reflexivity).
  split; [exact H|].
  apply (X23_run_without_modules cwd_relative test_minimatch pow_2 show_number show_fixed
           cwd_resolve show_json None (Some config) [file_c]).
  intros sf [<-|[]]. exact H.
Defined.

(** X24 on the corpus, without a configuration file for [run]: the two
    reports at their default paths. *)
Lemma X24_run_writes_witness :
  Analysis.results example <> []
  /\ map fst
       (writes (run cwd_relative test_minimatch pow_2 show_number show_fixed cwd_resolve
                  show_json None (Some config) corpus))
     = [ "/cwd/sphere-report.json"; "/cwd/sphere-report.md" ].
Proof.
  assert (H : Analysis.results example <> []) by (rewrite example_results; discriminate).
  split; [exact H|].
  rewrite (X24_run_writes cwd_relative test_minimatch pow_2 show_number show_fixed
             cwd_resolve show_json None (Some config) corpus H).
  reflexivity.
Defined.
